(** * fsp-observer: a shallow embedding of the ingestion pipeline

    The development follows the three source files of the observer:
    [reward_epoch_manager.py] (entities, signing policy and its builder),
    [voting_round.py] (per-round accumulators and the round manager) and
    [observer.py] (the two validators and the per-block ingestion step).

    Python values are embedded as follows: unbounded [int] as [Z], [bytes] as
    [list byte], [str] (and checksum addresses) as [string], [None | T] as
    [option T], a [dict] whose iteration order is observable as an
    insertion-ordered association list, any other [dict] as a [gmap], a
    [set] as a [gset].  Each Python class is a module holding its record [t]
    and its methods.  A Python exception is a value of [PyExc]; code that may
    raise returns [exc]. *)

From Stdlib Require Import ZArith List Lia Bool Permutation Sorted.
From Stdlib Require Import Strings.Byte.
From stdpp Require Import gmap strings list pretty.

Open Scope Z_scope.

(** ** Exceptions *)

Inductive PyExc : Type :=
| AssertionError
| KeyError
| IndexError
| AttributeError
| ValueError (msg : string)
| ExternalError (msg : string).

Inductive exc (A : Type) : Type :=
| Ok (a : A)
| Raise (e : PyExc).
Arguments Ok {A} a.
Arguments Raise {A} e.

#[global] Instance exc_ret : MRet exc := λ A a, Ok a.
#[global] Instance exc_bind : MBind exc := λ A B k m,
  match m with
  | Ok a => k a
  | Raise e => Raise e
  end.

(** [assert c] *)
Definition py_assert (c : bool) : exc unit :=
  if c then Ok tt else Raise AssertionError.

(** [x is not None], as a statement that narrows the type *)
Definition py_not_none {A} (o : option A) : exc A :=
  match o with
  | Some a => Ok a
  | None => Raise AssertionError
  end.

(** [l[i]] on a list, for a non-negative index *)
Definition py_index {A} (l : list A) (i : nat) : exc A :=
  match l !! i with
  | Some x => Ok x
  | None => Raise IndexError
  end.

(** [d[k]] on a plain dict *)
Definition py_getitem `{Countable K} {A} (d : gmap K A) (k : K) : exc A :=
  match d !! k with
  | Some x => Ok x
  | None => Raise KeyError
  end.

(** [x or y] on integers: [x] when it is truthy (non-zero), else [y] *)
Definition py_or_int (x y : Z) : Z := if x =? 0 then y else x.

(** ** Bytes *)

Abbreviation bytes := (list byte).

#[global] Instance byte_eq_dec : EqDecision byte := Byte.byte_eq_dec.
#[global] Instance byte_countable : Countable byte :=
  inj_countable Byte.to_N Byte.of_N Byte.of_to_N.

(** The integer value of an element of a [bytes] object. *)
Definition byte_val (b : byte) : Z := Z.of_N (Byte.to_N b).

Definition hex_digit (n : N) : string :=
  match n with
  | 0%N => "0" | 1%N => "1" | 2%N => "2" | 3%N => "3"
  | 4%N => "4" | 5%N => "5" | 6%N => "6" | 7%N => "7"
  | 8%N => "8" | 9%N => "9" | 10%N => "a" | 11%N => "b"
  | 12%N => "c" | 13%N => "d" | 14%N => "e" | _ => "f"
  end%string.

(** [b.hex()] *)
Fixpoint hex (b : bytes) : string :=
  match b with
  | [] => ""
  | x :: r =>
      (hex_digit (Byte.to_N x / 16) +:+ hex_digit (Byte.to_N x mod 16) +:+ hex r)%string
  end.

(** ** Insertion-ordered dictionaries

    A Python [dict] iterates in insertion order; assigning to a key that is
    present keeps its position.  Keys are pairwise distinct in every
    dictionary built from [empty] with [set] and [pop]. *)

Module OrderedDict.
Section Ops.
Context {K V : Type} `{EqDecision K}.

Definition t : Type := list (K * V).

Definition empty : t := [].

Fixpoint get (k : K) (d : t) : option V :=
  match d with
  | [] => None
  | (k', v) :: r => if decide (k' = k) then Some v else get k r
  end.

Definition contains (k : K) (d : t) : bool :=
  match get k d with Some _ => true | None => false end.

(** [d[k] = v] *)
Fixpoint set (k : K) (v : V) (d : t) : t :=
  match d with
  | [] => [(k, v)]
  | (k', v') :: r => if decide (k' = k) then (k, v) :: r else (k', v') :: set k v r
  end.

(** the dictionary without the entry of [k] *)
Fixpoint remove (k : K) (d : t) : t :=
  match d with
  | [] => []
  | (k', v') :: r => if decide (k' = k) then r else (k', v') :: remove k r
  end.

(** [d.pop(k)]: raises [KeyError] when [k] is absent *)
Definition pop (k : K) (d : t) : exc (V * t) :=
  match get k d with
  | Some v => Ok (v, remove k d)
  | None => Raise KeyError
  end.

(** [d.pop(k, None)] *)
Definition pop_default (k : K) (d : t) : option V * t :=
  (get k d, remove k d).

(** [list(d.keys())] *)
Definition keys (d : t) : list K := map fst d.

(** [list(d.items())] *)
Definition items (d : t) : list (K * V) := d.
End Ops.
Arguments t : clear implicits.
End OrderedDict.

(** ** Python's [sorted]

    [sorted] is stable: elements that compare equal keep their relative
    order.  [le a b] is the test "the key of [a] is not after the key of
    [b]". *)

Section PySorted.
Context {A : Type} (le : A → A → bool).

Fixpoint sorted_insert (x : A) (l : list A) : list A :=
  match l with
  | [] => [x]
  | y :: r => if le x y then x :: y :: r else y :: sorted_insert x r
  end.

Definition py_sorted (l : list A) : list A := foldr sorted_insert [] l.
End PySorted.

(** ** Epoch calculus *)

(** Modelled from the spec: the epoch classes of the external package
    py_flare_common.  A voting epoch is an integer id; start, end and reveal
    deadline derive from the factory; two epochs with equal id are equal. *)
Record VotingEpochFactory : Type := {
  first_voting_round_start_ts : Z;
  voting_epoch_duration_seconds : Z;
  ftso_reveal_deadline_seconds : Z
}.

Module VotingEpoch.
Record t : Type := mk { id : Z }.

#[global] Instance eq_dec : EqDecision t.
Proof. solve_decision. Defined.

Section Factory.
Variable vef : VotingEpochFactory.

Definition next (v : t) : t := mk (id v + 1).
Definition previous (v : t) : t := mk (id v - 1).

Definition start_s (v : t) : Z :=
  first_voting_round_start_ts vef + id v * voting_epoch_duration_seconds vef.
Definition end_s (v : t) : Z := start_s (next v).
Definition reveal_deadline (v : t) : Z :=
  start_s v + ftso_reveal_deadline_seconds vef.

(** [factory.from_timestamp(ts)], with Python's floor division *)
Definition from_timestamp (ts : Z) : t :=
  mk ((ts - first_voting_round_start_ts vef) / voting_epoch_duration_seconds vef).
End Factory.
End VotingEpoch.

(** Modelled from the spec: a reward epoch is an integer id with a
    successor. *)
Module RewardEpoch.
Record t : Type := mk { id : Z }.
Definition next (r : t) : t := mk (id r + 1).
End RewardEpoch.

(** Python's [==] between the objects the loop compares.  An [int] and a
    [VotingEpoch] are instances of different classes: neither [__eq__]
    accepts the other operand, and the comparison falls back to identity. *)
Inductive PyObj : Type :=
| PyInt (z : Z)
| PyVotingEpoch (v : VotingEpoch.t).

Definition py_eq (a b : PyObj) : bool :=
  match a, b with
  | PyInt x, PyInt y => x =? y
  | PyVotingEpoch u, PyVotingEpoch v => VotingEpoch.id u =? VotingEpoch.id v
  | _, _ => false
  end.

(** ** types.py: the decoded contract events *)

(** Modelled from the spec: types.py is not among the sources at hand.  The
    events are records with the fields that the spec names and that the
    code reads; they are integers, addresses, byte strings and lists of
    them. *)
Module RandomAcquisitionStarted.
Record t : Type := mk { reward_epoch_id : Z }.
End RandomAcquisitionStarted.

Module VotePowerBlockSelected.
Record t : Type := mk { reward_epoch_id : Z; vote_power_block : Z }.
End VotePowerBlockSelected.

Module VoterRegistered.
Record t : Type := mk {
  reward_epoch_id : Z;
  voter : string;
  signing_policy_address : string;
  submit_address : string;
  submit_signatures_address : string;
  public_key : string;
  registration_weight : Z
}.
End VoterRegistered.

Module VoterRegistrationInfo.
Record t : Type := mk {
  reward_epoch_id : Z;
  voter : string;
  delegation_address : string;
  delegation_fee_bips : Z;
  w_nat_weight : Z;
  w_nat_capped_weight : Z;
  node_ids : list string;
  node_weights : list Z
}.
End VoterRegistrationInfo.

Module VoterRemoved.
Record t : Type := mk { reward_epoch_id : Z; voter : string }.
End VoterRemoved.

Module SigningPolicyInitialized.
Record t : Type := mk {
  reward_epoch_id : Z;
  start_voting_round_id : Z;
  threshold : Z;
  seed : Z;
  voters : list string;
  weights : list Z;
  signing_policy_bytes : bytes
}.
End SigningPolicyInitialized.

Module ProtocolMessageRelayed.
Record t : Type := mk {
  protocol_id : Z;
  voting_round_id : Z;
  is_secure_random : bool;
  merkle_root : bytes;
  timestamp : Z
}.
End ProtocolMessageRelayed.

Record FdcName : Type := { representation : string }.

Module AttestationRequest.
Record t : Type := mk {
  attestation_type : FdcName;
  source_id : FdcName;
  data : bytes;
  block : Z;
  log_index : Z;
  voting_epoch_id : VotingEpoch.t
}.
End AttestationRequest.

(** ** reward_epoch_manager.py *)

Module Node.
Record t : Type := mk { node_id : string; weight : Z }.
End Node.

Module Entity.
Record t : Type := mk {
  identity_address : string;
  submit_address : string;
  submit_signatures_address : string;
  signing_policy_address : string;
  delegation_address : string;
  public_key : string;
  nodes : list Node.t;
  delegation_fee_bips : Z;
  w_nat_weight : Z;
  w_nat_capped_weight : Z;
  registration_weight : Z;
  normalized_weight : Z
}.
End Entity.

Module EntityMapper.
Record t : Type := mk {
  by_identity_address : gmap string Entity.t;
  by_submit_address : gmap string Entity.t;
  by_submit_signatures_address : gmap string Entity.t;
  by_signing_policy_address : gmap string Entity.t;
  by_delegation_address : gmap string Entity.t;
  by_omni : gmap string Entity.t
}.

Definition empty : t := mk ∅ ∅ ∅ ∅ ∅ ∅.

Definition insert (e : Entity.t) (m : t) : t :=
  mk (<[Entity.identity_address e := e]> (by_identity_address m))
     (<[Entity.submit_address e := e]> (by_submit_address m))
     (<[Entity.submit_signatures_address e := e]> (by_submit_signatures_address m))
     (<[Entity.signing_policy_address e := e]> (by_signing_policy_address m))
     (<[Entity.delegation_address e := e]> (by_delegation_address m))
     (<[Entity.delegation_address e := e]>
        (<[Entity.signing_policy_address e := e]>
           (<[Entity.submit_signatures_address e := e]>
              (<[Entity.submit_address e := e]>
                 (<[Entity.identity_address e := e]> (by_omni m)))))).
End EntityMapper.

Module SigningPolicy.
Record t : Type := mk {
  reward_epoch : RewardEpoch.t;
  vote_power_block : Z;
  start_voting_round : Z;
  threshold : Z;
  seed : Z;
  signing_policy_bytes : bytes;
  entities : list Entity.t;
  entity_mapper : EntityMapper.t
}.
End SigningPolicy.

(** The six event kinds the builder accepts. *)
Inductive PolicyEvent : Type :=
| EvRandomAcquisitionStarted (e : RandomAcquisitionStarted.t)
| EvVotePowerBlockSelected (e : VotePowerBlockSelected.t)
| EvVoterRegistered (e : VoterRegistered.t)
| EvVoterRegistrationInfo (e : VoterRegistrationInfo.t)
| EvVoterRemoved (e : VoterRemoved.t)
| EvSigningPolicyInitialized (e : SigningPolicyInitialized.t).

Module SigningPolicyBuilder.
Record t : Type := mk {
  reward_epoch : option RewardEpoch.t;
  random_acquisation_started : option RandomAcquisitionStarted.t;
  vote_power_block_selected : option VotePowerBlockSelected.t;
  voter_registered : list VoterRegistered.t;
  voter_registration_info : list VoterRegistrationInfo.t;
  voter_removed : list VoterRemoved.t;
  signing_policy_initialized : option SigningPolicyInitialized.t
}.

(** [SigningPolicy.builder()] *)
Definition builder : t := mk None None None [] [] [] None.

Definition for_epoch (r : RewardEpoch.t) (b : t) : t :=
  mk (Some r) (random_acquisation_started b) (vote_power_block_selected b)
     (voter_registered b) (voter_registration_info b) (voter_removed b)
     (signing_policy_initialized b).

Definition add (event : PolicyEvent) (b : t) : exc t :=
  match event with
  | EvRandomAcquisitionStarted e =>
      _ ← py_assert (bool_decide (random_acquisation_started b = None));
      Ok (mk (reward_epoch b) (Some e) (vote_power_block_selected b)
             (voter_registered b) (voter_registration_info b) (voter_removed b)
             (signing_policy_initialized b))
  | EvVotePowerBlockSelected e =>
      _ ← py_assert (bool_decide (vote_power_block_selected b = None));
      Ok (mk (reward_epoch b) (random_acquisation_started b) (Some e)
             (voter_registered b) (voter_registration_info b) (voter_removed b)
             (signing_policy_initialized b))
  | EvVoterRegistered e =>
      Ok (mk (reward_epoch b) (random_acquisation_started b)
             (vote_power_block_selected b)
             (voter_registered b ++ [e]) (voter_registration_info b)
             (voter_removed b) (signing_policy_initialized b))
  | EvVoterRegistrationInfo e =>
      Ok (mk (reward_epoch b) (random_acquisation_started b)
             (vote_power_block_selected b)
             (voter_registered b) (voter_registration_info b ++ [e])
             (voter_removed b) (signing_policy_initialized b))
  | EvVoterRemoved e =>
      Ok (mk (reward_epoch b) (random_acquisation_started b)
             (vote_power_block_selected b)
             (voter_registered b) (voter_registration_info b)
             (voter_removed b ++ [e]) (signing_policy_initialized b))
  | EvSigningPolicyInitialized e =>
      _ ← py_assert (bool_decide (signing_policy_initialized b = None));
      Ok (mk (reward_epoch b) (random_acquisation_started b)
             (vote_power_block_selected b)
             (voter_registered b) (voter_registration_info b) (voter_removed b)
             (Some e))
  end.

(** [{v.signing_policy_address: v.voter for v in voter_registered}]: a later
    event overwrites an earlier one with the same key. *)
Definition spa_index (l : list VoterRegistered.t) : gmap string string :=
  foldl (λ m v, <[VoterRegistered.signing_policy_address v := VoterRegistered.voter v]> m) ∅ l.

(** [{v.voter: v for v in voter_registered}] *)
Definition vres_index (l : list VoterRegistered.t) : gmap string VoterRegistered.t :=
  foldl (λ m v, <[VoterRegistered.voter v := v]> m) ∅ l.

(** [{v.voter: v for v in voter_registration_info}] *)
Definition vries_index (l : list VoterRegistrationInfo.t)
    : gmap string VoterRegistrationInfo.t :=
  foldl (λ m v, <[VoterRegistrationInfo.voter v := v]> m) ∅ l.

(** [[Node(n, w) for n, w in zip(node_ids, node_weights)]] *)
Definition make_nodes (vrie : VoterRegistrationInfo.t) : list Node.t :=
  map (λ nw, Node.mk (fst nw) (snd nw))
      (combine (VoterRegistrationInfo.node_ids vrie) (VoterRegistrationInfo.node_weights vrie)).

Definition make_entity (vre : VoterRegistered.t) (vrie : VoterRegistrationInfo.t)
    (weight : Z) : Entity.t :=
  Entity.mk (VoterRegistered.voter vre)
            (VoterRegistered.submit_address vre)
            (VoterRegistered.submit_signatures_address vre)
            (VoterRegistered.signing_policy_address vre)
            (VoterRegistrationInfo.delegation_address vrie)
            (VoterRegistered.public_key vre)
            (make_nodes vrie)
            (VoterRegistrationInfo.delegation_fee_bips vrie)
            (VoterRegistrationInfo.w_nat_weight vrie)
            (VoterRegistrationInfo.w_nat_capped_weight vrie)
            (VoterRegistered.registration_weight vre)
            weight.

(** The loop [for i, voter in enumerate(voters)] from index [i] on, with the
    accumulators [entities] and [mapper]. *)
Fixpoint build_loop (spa : gmap string string)
    (vres : gmap string VoterRegistered.t)
    (vries : gmap string VoterRegistrationInfo.t)
    (weights : list Z) (i : nat) (voters : list string)
    (entities : list Entity.t) (mapper : EntityMapper.t)
    : exc (list Entity.t * EntityMapper.t) :=
  match voters with
  | [] => Ok (entities, mapper)
  | voter :: rest =>
      weight ← py_index weights i;
      a ← py_getitem spa voter;
      vre ← py_getitem vres a;
      a' ← py_getitem spa voter;
      vrie ← py_getitem vries a';
      let entity := make_entity vre vrie weight in
      build_loop spa vres vries weights (S i) rest
                 (entities ++ [entity]) (EntityMapper.insert entity mapper)
  end.

Definition build (b : t) : exc SigningPolicy.t :=
  re ← py_not_none (reward_epoch b);
  let rid := RewardEpoch.id re in
  ras ← py_not_none (random_acquisation_started b);
  _ ← py_assert (RandomAcquisitionStarted.reward_epoch_id ras =? rid);
  vpbs ← py_not_none (vote_power_block_selected b);
  _ ← py_assert (VotePowerBlockSelected.reward_epoch_id vpbs =? rid);
  spi ← py_not_none (signing_policy_initialized b);
  _ ← py_assert (SigningPolicyInitialized.reward_epoch_id spi =? rid);
  _ ← py_assert (bool_decide (length (voter_registered b) = length (voter_registration_info b)));
  let spa := spa_index (voter_registered b) in
  let vres := vres_index (voter_registered b) in
  let vries := vries_index (voter_registration_info b) in
  '(entities, mapper) ← build_loop spa vres vries (SigningPolicyInitialized.weights spi) 0
                          (SigningPolicyInitialized.voters spi) [] EntityMapper.empty;
  Ok (SigningPolicy.mk re
        (VotePowerBlockSelected.vote_power_block vpbs)
        (SigningPolicyInitialized.start_voting_round_id spi)
        (SigningPolicyInitialized.threshold spi)
        (SigningPolicyInitialized.seed spi)
        (SigningPolicyInitialized.signing_policy_bytes spi)
        entities mapper).
End SigningPolicyBuilder.

(** ** The wire types of the submission parsers and of the chain client *)

(** Modelled from the spec: the parsers and the RPC client are external
    collaborators.  These are the shapes of the values the observer
    receives from them, with the fields the spec names and the code
    reads. *)

Module FtsoSubmit1.
Record t : Type := mk { commit_hash : bytes }.
End FtsoSubmit1.

Module FtsoSubmit2.
Record t : Type := mk { random : Z; values : list (option Z) }.
End FtsoSubmit2.

Module FdcSubmit1.
Record t : Type := mk { }.
End FdcSubmit1.

Module FdcSubmit2.
Record t : Type := mk { number_of_requests : Z; bit_vector : list bool }.
End FdcSubmit2.

Module SSignature.
Record t : Type := mk { v : string; r : string; s : string }.
End SSignature.

Module SubmitSignatures.
Record t : Type := mk { signature : SSignature.t; unsigned_message : bytes }.
End SubmitSignatures.

Module ParsedPayload.
Record t (T : Type) : Type := mk {
  protocol_id : Z;
  voting_round_id : Z;
  payload : T
}.
Arguments mk {T} _ _ _.
Arguments protocol_id {T} _.
Arguments voting_round_id {T} _.
Arguments payload {T} _.
End ParsedPayload.

Module ParsedMessage.
Record t (A B : Type) : Type := mk {
  ftso : option (ParsedPayload.t A);
  fdc : option (ParsedPayload.t B)
}.
Arguments mk {A B} _ _.
Arguments ftso {A B} _.
Arguments fdc {A B} _.
End ParsedMessage.

Module TxData.
Record t : Type := mk {
  hash : bytes;
  to : option string;
  input : bytes;
  blockNumber : Z;
  transactionIndex : Z;
  from : string;
  value : Z
}.
End TxData.

Module BlockData.
Record t : Type := mk {
  number : Z;
  timestamp : Z;
  transactions : list TxData.t
}.
End BlockData.

(** ** voting_round.py *)

Module WTxData.
Record t : Type := mk {
  wrapped : TxData.t;
  hash : bytes;
  to_address : option string;
  input : bytes;
  block_number : Z;
  timestamp : Z;
  transaction_index : Z;
  from_address : string;
  value : Z
}.

Definition is_first_or_second (w : t) : bool :=
  if (transaction_index w =? 0) || (transaction_index w =? 1) then true else false.

(** The key assertions of [from_tx_data] hold of every [TxData.t] and
    [BlockData.t]: the records have all the fields. *)
Definition from_tx_data (tx_data : TxData.t) (block_data : BlockData.t) : t :=
  mk tx_data
     (TxData.hash tx_data)
     (TxData.to tx_data)
     (TxData.input tx_data)
     (TxData.blockNumber tx_data)
     (BlockData.timestamp block_data)
     (TxData.transactionIndex tx_data)
     (TxData.from tx_data)
     (TxData.value tx_data).
End WTxData.

Module WParsedPayload.
Record t (T : Type) : Type := mk {
  parsed_payload : ParsedPayload.t T;
  wtx_data : WTxData.t
}.
Arguments mk {T} _ _.
Arguments parsed_payload {T} _.
Arguments wtx_data {T} _.
End WParsedPayload.

(** Python's [range(start, stop)]: only its two attributes are read. *)
Record range : Type := { start : Z; stop : Z }.

Module WParsedPayloadList.
Section Methods.
Context {T : Type}.

(** the attribute [agg] *)
Definition t : Type := list (WParsedPayload.t T).

(** One iteration of the loop of [extract_latest]. *)
Definition extract_latest_step (r : range)
    (latest : option (WParsedPayload.t T)) (wpp : WParsedPayload.t T)
    : option (WParsedPayload.t T) :=
  let wtx := WParsedPayload.wtx_data wpp in
  if negb ((start r <=? WTxData.timestamp wtx) && (WTxData.timestamp wtx <? stop r))
  then latest
  else
    match latest with
    | None => Some wpp
    | Some l =>
        if WTxData.timestamp wtx >? WTxData.timestamp (WParsedPayload.wtx_data l)
        then Some wpp else latest
    end.

Definition extract_latest (agg : t) (r : range) : option (WParsedPayload.t T) :=
  fold_left (extract_latest_step r) agg None.
End Methods.
Arguments t : clear implicits.
End WParsedPayloadList.

Module ParsedPayloadMapper.
Section Methods.
Context {T : Type}.

(** [by_identity] is a [defaultdict(WParsedPayloadList)].  Reading a missing
    key yields an empty list (and stores it, which no later read can tell
    from the key being absent). *)
Definition t : Type := gmap string (WParsedPayloadList.t T).

Definition empty : t := ∅.

(** [by_identity[a]] *)
Definition lookup (a : string) (m : t) : WParsedPayloadList.t T := default [] (m !! a).

Definition insert (r : Entity.t) (wpp : WParsedPayload.t T) (m : t) : t :=
  <[Entity.identity_address r := lookup (Entity.identity_address r) m ++ [wpp]]> m.
End Methods.
Arguments t : clear implicits.
End ParsedPayloadMapper.

Module VotingRoundProtocol.
Record t (S1 S2 SS : Type) : Type := mk {
  submit_1 : ParsedPayloadMapper.t S1;
  submit_2 : ParsedPayloadMapper.t S2;
  submit_signatures : ParsedPayloadMapper.t SS;
  finalization : option ProtocolMessageRelayed.t
}.
Arguments mk {S1 S2 SS} _ _ _ _.
Arguments submit_1 {S1 S2 SS} _.
Arguments submit_2 {S1 S2 SS} _.
Arguments submit_signatures {S1 S2 SS} _.
Arguments finalization {S1 S2 SS} _.

Section Methods.
Context {S1 S2 SS : Type}.

Definition empty : t S1 S2 SS :=
  mk ParsedPayloadMapper.empty ParsedPayloadMapper.empty ParsedPayloadMapper.empty None.

Definition insert_submit_1 (e : Entity.t) (pp : ParsedPayload.t S1) (wtx : WTxData.t)
    (p : t S1 S2 SS) : t S1 S2 SS :=
  mk (ParsedPayloadMapper.insert e (WParsedPayload.mk pp wtx) (submit_1 p))
     (submit_2 p) (submit_signatures p) (finalization p).

Definition insert_submit_2 (e : Entity.t) (pp : ParsedPayload.t S2) (wtx : WTxData.t)
    (p : t S1 S2 SS) : t S1 S2 SS :=
  mk (submit_1 p)
     (ParsedPayloadMapper.insert e (WParsedPayload.mk pp wtx) (submit_2 p))
     (submit_signatures p) (finalization p).

Definition insert_submit_signatures (e : Entity.t) (pp : ParsedPayload.t SS)
    (wtx : WTxData.t) (p : t S1 S2 SS) : t S1 S2 SS :=
  mk (submit_1 p) (submit_2 p)
     (ParsedPayloadMapper.insert e (WParsedPayload.mk pp wtx) (submit_signatures p))
     (finalization p).

(** [p.finalization = e] *)
Definition set_finalization (e : ProtocolMessageRelayed.t) (p : t S1 S2 SS) : t S1 S2 SS :=
  mk (submit_1 p) (submit_2 p) (submit_signatures p) (Some e).
End Methods.
End VotingRoundProtocol.

Module FtsoVotingRoundProtocol.
Definition t : Type := VotingRoundProtocol.t FtsoSubmit1.t FtsoSubmit2.t SubmitSignatures.t.
Definition empty : t := VotingRoundProtocol.empty.
End FtsoVotingRoundProtocol.

Module AttestationRequestMapper.
(** the attribute [agg] *)
Definition t : Type := list AttestationRequest.t.

(** [key=lambda x: (x.block, x.log_index)], compared as Python compares
    tuples *)
Definition key_le (a b : AttestationRequest.t) : bool :=
  (AttestationRequest.block a <? AttestationRequest.block b)
  || ((AttestationRequest.block a =? AttestationRequest.block b)
      && (AttestationRequest.log_index a <=? AttestationRequest.log_index b)).

(** The loop of [sorted] over the ordered requests, with the accumulators
    [ret] and [seen]. *)
Fixpoint dedup_loop (l : list AttestationRequest.t)
    (ret : list AttestationRequest.t) (seen : gset bytes)
    : list AttestationRequest.t :=
  match l with
  | [] => ret
  | ar :: rest =>
      if bool_decide (AttestationRequest.data ar ∈ seen) then dedup_loop rest ret seen
      else dedup_loop rest (ret ++ [ar]) ({[AttestationRequest.data ar]} ∪ seen)
  end.

Definition sorted (agg : t) : list AttestationRequest.t :=
  rev (dedup_loop (py_sorted key_le agg) [] ∅).
End AttestationRequestMapper.

Module FdcVotingRoundProtocol.
Record t : Type := mk {
  base : VotingRoundProtocol.t FdcSubmit1.t FdcSubmit2.t SubmitSignatures.t;
  requests : AttestationRequestMapper.t;
  consensus_bitvote : OrderedDict.t bytes Z
}.

Definition empty : t := mk VotingRoundProtocol.empty [] OrderedDict.empty.

Definition submit_1 (p : t) := VotingRoundProtocol.submit_1 (base p).
Definition submit_2 (p : t) := VotingRoundProtocol.submit_2 (base p).
Definition submit_signatures (p : t) := VotingRoundProtocol.submit_signatures (base p).
Definition finalization (p : t) := VotingRoundProtocol.finalization (base p).

(** a method of the base class, applied to the derived object *)
Definition on_base
    (f : VotingRoundProtocol.t FdcSubmit1.t FdcSubmit2.t SubmitSignatures.t →
         VotingRoundProtocol.t FdcSubmit1.t FdcSubmit2.t SubmitSignatures.t)
    (p : t) : t :=
  mk (f (base p)) (requests p) (consensus_bitvote p).

(** [p.requests.agg.append(e)] *)
Definition append_request (e : AttestationRequest.t) (p : t) : t :=
  mk (base p) (requests p ++ [e]) (consensus_bitvote p).

(** [p.consensus_bitvote[k] += 1] on a [defaultdict(int)] *)
Definition count_bitvote (k : bytes) (p : t) : t :=
  mk (base p) (requests p)
     (OrderedDict.set k (default 0 (OrderedDict.get k (consensus_bitvote p)) + 1)
        (consensus_bitvote p)).
End FdcVotingRoundProtocol.

Module VotingRound.
Record t : Type := mk {
  voting_epoch : VotingEpoch.t;
  ftso : FtsoVotingRoundProtocol.t;
  fdc : FdcVotingRoundProtocol.t
}.

(** [VotingRound(v)] *)
Definition init (v : VotingEpoch.t) : t :=
  mk v FtsoVotingRoundProtocol.empty FdcVotingRoundProtocol.empty.

Definition on_ftso (f : FtsoVotingRoundProtocol.t → FtsoVotingRoundProtocol.t) (r : t) : t :=
  mk (voting_epoch r) (f (ftso r)) (fdc r).
Definition on_fdc (f : FdcVotingRoundProtocol.t → FdcVotingRoundProtocol.t) (r : t) : t :=
  mk (voting_epoch r) (ftso r) (f (fdc r)).
End VotingRound.

Module VotingRoundManager.
Record t : Type := mk {
  finalized : Z;
  rounds : OrderedDict.t VotingEpoch.t VotingRound.t
}.

(** [VotingRoundManager(finalized)] *)
Definition init (finalized : Z) : t := mk finalized OrderedDict.empty.

(** [get(v)]: the round of [v], created when absent, and the manager after
    the call. *)
Definition get (v : VotingEpoch.t) (m : t) : VotingRound.t * t :=
  match OrderedDict.get v (rounds m) with
  | None =>
      let r := VotingRound.init v in
      (r, mk (finalized m) (OrderedDict.set v r (rounds m)))
  | Some r => (r, m)
  end.

(** [get(v)] followed by a mutation [f] of the round through the reference
    that [get] returned. *)
Definition update (v : VotingEpoch.t) (f : VotingRound.t → VotingRound.t) (m : t) : t :=
  let '(r, m') := get v m in
  mk (finalized m') (OrderedDict.set v (f r) (rounds m')).

Section Finalize.
Variable vef : VotingEpochFactory.

(** The loop [for k in keys] of [finalize], with the output list so far. *)
Fixpoint finalize_loop (block_timestamp : Z) (keys : list VotingEpoch.t)
    (m : t) (out : list VotingRound.t) : exc (list VotingRound.t * t) :=
  match keys with
  | [] => Ok (out, m)
  | k :: ks =>
      if VotingEpoch.id k <=? finalized m then
        finalize_loop block_timestamp ks
          (mk (finalized m) (snd (OrderedDict.pop_default k (rounds m)))) out
      else
        let round_completed :=
          VotingEpoch.end_s vef (VotingEpoch.next k) <? block_timestamp in
        if round_completed then
          '(r, rest) ← OrderedDict.pop k (rounds m);
          finalize_loop block_timestamp ks
            (mk (Z.max (finalized m) (VotingEpoch.id k)) rest) (out ++ [r])
        else finalize_loop block_timestamp ks m out
  end.

Definition finalize (block : BlockData.t) (m : t) : exc (list VotingRound.t * t) :=
  let keys := OrderedDict.keys (rounds m) in
  finalize_loop (BlockData.timestamp block) keys m [].
End Finalize.
End VotingRoundManager.

(** ** message.py *)

Inductive MessageLevel : Type := INFO | WARNING | ERROR | CRITICAL.

(** Modelled from the spec: message.py is not among the sources at hand.  A
    message is [(network, round?, protocol?, level, text)]; the builder
    collects the first three and [build] adds the level and the text. *)
Module Message.
Record t : Type := mk {
  network : option Z;
  round : option VotingEpoch.t;
  protocol : option Z;
  level : MessageLevel;
  message : string
}.

Record builder_t : Type := mk_builder {
  b_network : option Z;
  b_round : option VotingEpoch.t;
  b_protocol : option Z
}.

Definition builder : builder_t := mk_builder None None None.

Definition add (network : Z) (round : VotingEpoch.t) (protocol : Z) (b : builder_t)
    : builder_t :=
  mk_builder (Some network) (Some round) (Some protocol).

Definition build (b : builder_t) (level : MessageLevel) (message : string) : t :=
  mk (b_network b) (b_round b) (b_protocol b) level message.
End Message.

(** ** The configuration and the collaborators of observer.py *)

(** Modelled from the spec: configuration/types.py is not among the sources
    at hand.  Of the configuration the loop reads the chain id, the
    monitored identity and the three function selectors. *)
Module Configuration.
Record t : Type := mk {
  chain_id : Z;
  identity_address : string;
  (** [config.contracts.Submission.functions[name].signature] *)
  submit1_signature : string;
  submit2_signature : string;
  submitSignatures_signature : string
}.
End Configuration.

(** The collaborators the validators and the loop call: the payload parsers,
    the byte parser, the commit hash and the signature recovery.  A
    collaborator that may raise returns [exc]. *)
Module Collaborators.
Record t : Type := mk {
  parse_submit1_tx : string → exc (ParsedMessage.t FtsoSubmit1.t FdcSubmit1.t);
  parse_submit2_tx : string → exc (ParsedMessage.t FtsoSubmit2.t FdcSubmit2.t);
  parse_submit_signature_tx :
    string → exc (ParsedMessage.t SubmitSignatures.t SubmitSignatures.t);
  parse_generic_tx : bytes → exc (ParsedMessage.t bytes bytes);
  (** [ByteParser(b).uint16()] and [ByteParser(b).uint256()]: the integer
      read and the bytes that [drain()] returns after it *)
  uint16 : bytes → exc (Z * bytes);
  uint256 : bytes → exc (Z * bytes);
  (** [commit_hash(submit_address, epoch_id, random, feeds)]: it raises on
      arguments that it cannot encode *)
  commit_hash : string → Z → Z → bytes → exc string;
  (** [Signature.from_vrs(s).recover_public_key_from_msg_hash(m).to_checksum_address()] *)
  recover_address : SSignature.t → bytes → exc string;
  (** [ProtocolMessageRelayed.to_message] *)
  to_message : ProtocolMessageRelayed.t → bytes
}.
End Collaborators.

(** ** observer.py: the validators *)

(** [sep.join(l)] *)
Fixpoint join (sep : string) (l : list string) : string :=
  match l with
  | [] => ""
  | [x] => x
  | x :: r => (x +:+ sep +:+ join sep r)%string
  end.

(** [[str(i) for i, v in enumerate(values) if v is None]], from index [i] *)
Fixpoint none_indices (i : nat) (values : list (option Z)) : list string :=
  match values with
  | [] => []
  | None :: r => pretty i :: none_indices (S i) r
  | Some _ :: r => none_indices (S i) r
  end.

(** [l[i] = x] on a list, for a non-negative index *)
Definition py_setitem {A} (l : list A) (i : nat) (x : A) : exc (list A) :=
  if bool_decide (i < length l)%nat then Ok (<[i := x]> l) else Raise IndexError.

(** The inner loop [for shift in range(8)] of the bitvote inflation, over
    the shifts still to do. *)
Fixpoint inflate_byte (n_requests : Z) (j : Z) (byte : Z) (shifts : list Z)
    (consensus_bitvote : list bool) : exc (list bool) :=
  match shifts with
  | [] => Ok consensus_bitvote
  | shift :: rest =>
      let i := n_requests - 1 - j * 8 - shift in
      if (i <? 0) && (Z.land (Z.shiftr byte shift) 1 =? 1) then
        Raise (ValueError "Invalid payload length.")
      else if i >=? 0 then
        cb ← py_setitem consensus_bitvote (Z.to_nat i)
               (Z.land (Z.shiftr byte shift) 1 =? 1);
        inflate_byte n_requests j byte rest cb
      else inflate_byte n_requests j byte rest consensus_bitvote
  end.

(** The outer loop [for j, byte in enumerate(reversed(votes))], from [j]. *)
Fixpoint inflate_loop (n_requests : Z) (j : Z) (reversed_votes : bytes)
    (consensus_bitvote : list bool) : exc (list bool) :=
  match reversed_votes with
  | [] => Ok consensus_bitvote
  | byte :: rest =>
      cb ← inflate_byte n_requests j (byte_val byte) (seqZ 0 8) consensus_bitvote;
      inflate_loop n_requests (j + 1) rest cb
  end.

(** The inflation of the consensus bitvote in [validate_fdc]. *)
Definition inflate_bitvote (n_requests : Z) (votes : bytes) : exc (list bool) :=
  inflate_loop n_requests 0 (rev votes) (replicate (Z.to_nat n_requests) false).

(** [sorted(d.items(), key=lambda x: x[1], reverse=True)]; with
    [reverse=True] items of equal count keep their order. *)
Definition sorted_by_count_desc (d : OrderedDict.t bytes Z) : list (bytes * Z) :=
  py_sorted (λ a b, snd b <=? snd a) (OrderedDict.items d).

Section Validators.
Variable vef : VotingEpochFactory.
Variable ext : Collaborators.t.

(** [(finalization and finalization.timestamp + 1) or 0] *)
Definition finalization_grace (finalization : option ProtocolMessageRelayed.t) : Z :=
  match finalization with
  | Some f => py_or_int (ProtocolMessageRelayed.timestamp f + 1) 0
  | None => 0
  end.

Definition sig_grace (epoch : VotingEpoch.t)
    (finalization : option ProtocolMessageRelayed.t) : Z :=
  Z.max (VotingEpoch.start_s vef (VotingEpoch.next epoch) + 55 + 1)
        (finalization_grace finalization).

(** The block [if finalization and ss] shared by the two validators. *)
Definition check_signature (mb : Message.builder_t) (entity : Entity.t)
    (finalization : option ProtocolMessageRelayed.t)
    (submit_sig : option (WParsedPayload.t SubmitSignatures.t))
    (issues : list Message.t) : exc (list Message.t) :=
  match finalization, submit_sig with
  | Some f, Some sg =>
      addr ← Collaborators.recover_address ext
                (SubmitSignatures.signature
                   (ParsedPayload.payload (WParsedPayload.parsed_payload sg)))
                (Collaborators.to_message ext f);
      if negb (String.eqb addr (Entity.signing_policy_address entity)) then
        Ok (issues ++ [Message.build mb ERROR
                         "submit signatures signature doesn't match finalization"])
      else Ok issues
  | _, _ => Ok issues
  end.

Definition validate_ftso (round : VotingRound.t) (entity : Entity.t)
    (config : Configuration.t) : exc (list Message.t) :=
  let mb := Message.add (Configuration.chain_id config) (VotingRound.voting_epoch round)
              100 Message.builder in
  let epoch := VotingRound.voting_epoch round in
  let ftso := VotingRound.ftso round in
  let finalization := VotingRoundProtocol.finalization ftso in
  let _submit1 := ParsedPayloadMapper.lookup (Entity.identity_address entity)
                    (VotingRoundProtocol.submit_1 ftso) in
  let submit_1 := WParsedPayloadList.extract_latest _submit1
                    {| start := VotingEpoch.start_s vef epoch;
                       stop := VotingEpoch.end_s vef epoch |} in
  let _submit2 := ParsedPayloadMapper.lookup (Entity.identity_address entity)
                    (VotingRoundProtocol.submit_2 ftso) in
  let submit_2 := WParsedPayloadList.extract_latest _submit2
                    {| start := VotingEpoch.start_s vef (VotingEpoch.next epoch);
                       stop := VotingEpoch.reveal_deadline vef (VotingEpoch.next epoch) |} in
  let _submit_sig := ParsedPayloadMapper.lookup (Entity.identity_address entity)
                       (VotingRoundProtocol.submit_signatures ftso) in
  let submit_sig := WParsedPayloadList.extract_latest _submit_sig
                      {| start := VotingEpoch.reveal_deadline vef (VotingEpoch.next epoch);
                         stop := sig_grace epoch finalization |} in
  let issues := [] in
  let s1 := bool_decide (submit_1 ≠ None) in
  let s2 := bool_decide (submit_2 ≠ None) in
  let ss := bool_decide (submit_sig ≠ None) in
  let issues :=
    if negb s1 then issues ++ [Message.build mb INFO "no submit1 transaction"]
    else issues in
  let issues :=
    if s1 && negb s2 then
      issues ++ [Message.build mb CRITICAL "no submit2 transaction, causing reveal offence"]
    else issues in
  let issues :=
    match submit_2 with
    | Some s2v =>
        let indices :=
          none_indices 0 (FtsoSubmit2.values
                            (ParsedPayload.payload (WParsedPayload.parsed_payload s2v))) in
        if bool_decide (indices ≠ []) then
          issues ++ [Message.build mb WARNING
                       ("submit 2 had 'None' on indices " +:+ join ", " indices)]
        else issues
    | None => issues
    end in
  issues ←
    match submit_1, submit_2 with
    | Some s1v, Some s2v =>
        parsed ← Collaborators.parse_generic_tx ext
                   (WTxData.input (WParsedPayload.wtx_data s2v));
        fp ← match ParsedMessage.ftso parsed with
             | Some fp => Ok fp
             | None => Raise AttributeError
             end;
        '(rnd, feed_v) ← Collaborators.uint256 ext (ParsedPayload.payload fp);
        hashed ← Collaborators.commit_hash ext (Entity.submit_address entity)
                   (VotingEpoch.id epoch) rnd feed_v;
        if negb (String.eqb
                   (hex (FtsoSubmit1.commit_hash
                           (ParsedPayload.payload (WParsedPayload.parsed_payload s1v))))
                   hashed)
        then Ok (issues ++ [Message.build mb CRITICAL
                              "commit hash and reveal didn't match, causing reveal offence"])
        else Ok issues
    | _, _ => Ok issues
    end;
  let issues :=
    if negb ss then issues ++ [Message.build mb ERROR "no submit signatures transaction"]
    else issues in
  check_signature mb entity finalization submit_sig issues.

(** The loop over [zip(sorted_requests, bit_vector, consensus_bitvote)] of
    [validate_fdc], from index [i], threading [issues] and
    [expected_signatures]. *)
Fixpoint confirm_loop (mb : Message.builder_t) (n_requests : Z) (i : nat)
    (sorted_requests : list AttestationRequest.t) (bit_vector consensus_bitvote : list bool)
    (issues : list Message.t) (expected_signatures : bool) : list Message.t * bool :=
  match sorted_requests, bit_vector, consensus_bitvote with
  | r :: rs, bit :: bits, cbit :: cbits =>
      let idx := n_requests - 1 - Z.of_nat i in
      let at_ := AttestationRequest.attestation_type r in
      let si := AttestationRequest.source_id r in
      if cbit && negb bit then
        confirm_loop mb n_requests (S i) rs bits cbits
          (issues ++ [Message.build mb ERROR
                        ("submit2 didn't confirm request that was part of consensus "
                         +:+ representation at_ +:+ "/" +:+ representation si
                         +:+ " at index " +:+ pretty idx)])
          false
      else confirm_loop mb n_requests (S i) rs bits cbits issues expected_signatures
  | _, _, _ => (issues, expected_signatures)
  end.

Definition validate_fdc (round : VotingRound.t) (entity : Entity.t)
    (config : Configuration.t) : exc (list Message.t) :=
  let mb := Message.add (Configuration.chain_id config) (VotingRound.voting_epoch round)
              200 Message.builder in
  let epoch := VotingRound.voting_epoch round in
  let fdc := VotingRound.fdc round in
  let finalization := FdcVotingRoundProtocol.finalization fdc in
  let _submit1 := ParsedPayloadMapper.lookup (Entity.identity_address entity)
                    (FdcVotingRoundProtocol.submit_1 fdc) in
  let submit_1 := WParsedPayloadList.extract_latest _submit1
                    {| start := VotingEpoch.start_s vef epoch;
                       stop := VotingEpoch.end_s vef epoch |} in
  let _submit2 := ParsedPayloadMapper.lookup (Entity.identity_address entity)
                    (FdcVotingRoundProtocol.submit_2 fdc) in
  let submit_2 := WParsedPayloadList.extract_latest _submit2
                    {| start := VotingEpoch.start_s vef (VotingEpoch.next epoch);
                       stop := VotingEpoch.reveal_deadline vef (VotingEpoch.next epoch) |} in
  let _submit_sig := ParsedPayloadMapper.lookup (Entity.identity_address entity)
                       (FdcVotingRoundProtocol.submit_signatures fdc) in
  let submit_sig := WParsedPayloadList.extract_latest _submit_sig
                      {| start := VotingEpoch.reveal_deadline vef (VotingEpoch.next epoch);
                         stop := sig_grace epoch finalization |} in
  let submit_sig_deadline :=
    WParsedPayloadList.extract_latest _submit_sig
      {| start := VotingEpoch.reveal_deadline vef (VotingEpoch.next epoch);
         stop := VotingEpoch.end_s vef (VotingEpoch.next epoch) |} in
  top ← py_index (sorted_by_count_desc (FdcVotingRoundProtocol.consensus_bitvote fdc)) 0;
  '(n_requests, votes) ← Collaborators.uint16 ext (fst top);
  consensus_bitvote ← inflate_bitvote n_requests votes;
  let issues := [] in
  let s1 := bool_decide (submit_1 ≠ None) in
  let s2 := bool_decide (submit_2 ≠ None) in
  let ss := bool_decide (submit_sig ≠ None) in
  let ssd := bool_decide (submit_sig_deadline ≠ None) in
  let sorted_requests := AttestationRequestMapper.sorted (FdcVotingRoundProtocol.requests fdc) in
  _ ← py_assert (Z.of_nat (length sorted_requests) =? n_requests);
  let issues :=
    if negb s2 then issues ++ [Message.build mb ERROR "no submit2 transaction"]
    else issues in
  let expected_signatures := true in
  let '(issues, expected_signatures) :=
    match submit_2 with
    | Some s2v =>
        let p := ParsedPayload.payload (WParsedPayload.parsed_payload s2v) in
        if negb (FdcSubmit2.number_of_requests p =? Z.of_nat (length sorted_requests)) then
          (issues ++ [Message.build mb ERROR
                        "submit 2 length didn't match number of requests in round"],
           false)
        else
          confirm_loop mb n_requests 0 sorted_requests (FdcSubmit2.bit_vector p)
            consensus_bitvote issues expected_signatures
    | None => (issues, expected_signatures)
    end in
  let issues :=
    if s2 && expected_signatures && negb ssd then
      issues ++ [Message.build mb CRITICAL
                   "no submit signatures transaction, causing reveal offence"]
    else issues in
  let issues :=
    if s2 && ssd && negb ss then
      issues ++ [Message.build mb ERROR
                   ("no submit signatures transaction during grace period, "
                    +:+ "causing loss of rewards")]
    else issues in
  let issues :=
    if negb s2 && negb ss then
      issues ++ [Message.build mb ERROR "no submit signatures transaction"]
    else issues in
  check_signature mb entity finalization submit_sig issues.
End Validators.

(** ** observer.py: one block of the ingestion loop *)

(** The value of [target_function_signatures]. *)
Inductive Mode : Type := ModeSubmit1 | ModeSubmit2 | ModeSubmitSignatures.

(** A log of the block after [get_event_data], by [event.name]; the decoder
    is a collaborator.  [LogOther] is a log whose signature is unknown or
    whose event no [case] matches. *)
Inductive LogEvent : Type :=
| LogProtocolMessageRelayed (protocol_id voting_round_id : Z)
    (is_secure_random : bool) (merkle_root : bytes)
| LogAttestationRequest (attestation_type source_id : FdcName)
    (data : bytes) (block log_index : Z)
| LogPolicy (e : PolicyEvent)
| LogOther.

(** The variables of [observer_loop] that a block changes; [emitted] lists
    the issues handed to [log_issue], [parse_calls] the calls made to the
    submission parsers, oldest first. *)
Module ObserverState.
Record t : Type := mk {
  signing_policy : SigningPolicy.t;
  spb : SigningPolicyBuilder.t;
  vrm : VotingRoundManager.t;
  emitted : list Message.t;
  parse_calls : list (Mode * string)
}.

Definition set_vrm (f : VotingRoundManager.t → VotingRoundManager.t) (st : t) : t :=
  mk (signing_policy st) (spb st) (f (vrm st)) (emitted st) (parse_calls st).
Definition set_spb (b : SigningPolicyBuilder.t) (st : t) : t :=
  mk (signing_policy st) b (vrm st) (emitted st) (parse_calls st).
Definition emit (i : Message.t) (st : t) : t :=
  mk (signing_policy st) (spb st) (vrm st) (emitted st ++ [i]) (parse_calls st).
Definition record_parse (m : Mode) (input : string) (st : t) : t :=
  mk (signing_policy st) (spb st) (vrm st) (emitted st) (parse_calls st ++ [(m, input)]).
End ObserverState.

(** Statements of the loop: they change the state and may raise; what was
    changed before an exception stays changed. *)
Definition obs (A : Type) : Type := ObserverState.t → exc A * ObserverState.t.

#[global] Instance obs_ret : MRet obs := λ A a st, (Ok a, st).
#[global] Instance obs_bind : MBind obs := λ A B k m st,
  match m st with
  | (Ok a, st') => k a st'
  | (Raise e, st') => (Raise e, st')
  end.

Definition obs_get : obs ObserverState.t := λ st, (Ok st, st).
Definition obs_modify (f : ObserverState.t → ObserverState.t) : obs unit :=
  λ st, (Ok tt, f st).
Definition obs_lift {A} (e : exc A) : obs A := λ st, (e, st).

(** [try: body / except Exception: pass] *)
Definition try_except_pass (body : obs unit) : obs unit :=
  λ st, (Ok tt, snd (body st)).

(** [for x in l: body(x)] *)
Fixpoint obs_for {A} (l : list A) (body : A → obs unit) : obs unit :=
  match l with
  | [] => mret tt
  | x :: r => _ ← body x; obs_for r body
  end.

Section Loop.
Variable vef : VotingEpochFactory.
Variable ext : Collaborators.t.
Variable config : Configuration.t.
(** [tia = w.to_checksum_address(config.identity_address)], computed once
    before the loops *)
Variable tia : string.

(** [config.epoch.voting_epoch] *)
Definition ve (i : Z) : VotingEpoch.t := VotingEpoch.mk i.

(** [target_function_signatures], built in the order of the source *)
Definition target_function_signatures : gmap string Mode :=
  <[Configuration.submit2_signature config := ModeSubmit2]>
    (<[Configuration.submit1_signature config := ModeSubmit1]>
       (<[Configuration.submitSignatures_signature config := ModeSubmitSignatures]> ∅)).

(** The policy rollover at the head of the block. *)
Definition rollover (voting_epoch : VotingEpoch.t) : obs unit :=
  st ← obs_get;
  match SigningPolicyBuilder.signing_policy_initialized (ObserverState.spb st) with
  | Some spi =>
      if py_eq (PyInt (SigningPolicyInitialized.start_voting_round_id spi))
               (PyVotingEpoch voting_epoch)
      then
        signing_policy ← obs_lift (SigningPolicyBuilder.build (ObserverState.spb st));
        obs_modify (λ st,
          ObserverState.mk signing_policy
            (SigningPolicyBuilder.for_epoch
               (RewardEpoch.next (SigningPolicy.reward_epoch signing_policy))
               SigningPolicyBuilder.builder)
            (ObserverState.vrm st) (ObserverState.emitted st)
            (ObserverState.parse_calls st))
      else mret tt
  | None => mret tt
  end.

(** The body of [for log in block_logs]. *)
Definition process_log (block_data : BlockData.t) (voting_epoch : VotingEpoch.t)
    (log : LogEvent) : obs unit :=
  match log with
  | LogProtocolMessageRelayed protocol_id voting_round_id is_secure_random merkle_root =>
      let e := ProtocolMessageRelayed.mk protocol_id voting_round_id is_secure_random
                 merkle_root (BlockData.timestamp block_data) in
      obs_modify (ObserverState.set_vrm
        (VotingRoundManager.update (ve (ProtocolMessageRelayed.voting_round_id e))
           (λ voting_round,
              let voting_round :=
                if ProtocolMessageRelayed.protocol_id e =? 100 then
                  VotingRound.on_ftso (VotingRoundProtocol.set_finalization e) voting_round
                else voting_round in
              if ProtocolMessageRelayed.protocol_id e =? 200 then
                VotingRound.on_fdc
                  (FdcVotingRoundProtocol.on_base (VotingRoundProtocol.set_finalization e))
                  voting_round
              else voting_round)))
  | LogAttestationRequest attestation_type source_id data block log_index =>
      let e := AttestationRequest.mk attestation_type source_id data block log_index
                 voting_epoch in
      obs_modify (ObserverState.set_vrm
        (VotingRoundManager.update (AttestationRequest.voting_epoch_id e)
           (VotingRound.on_fdc (FdcVotingRoundProtocol.append_request e))))
  | LogPolicy e =>
      st ← obs_get;
      b ← obs_lift (SigningPolicyBuilder.add e (ObserverState.spb st));
      obs_modify (ObserverState.set_spb b)
  | LogOther => mret tt
  end.

(** The three [try] bodies of the transaction dispatch. *)
Definition submit1_body (entity : Entity.t) (input : string) (wtx : WTxData.t) : obs unit :=
  _ ← obs_modify (ObserverState.record_parse ModeSubmit1 input);
  parsed ← obs_lift (Collaborators.parse_submit1_tx ext input);
  _ ← match ParsedMessage.ftso parsed with
      | Some p =>
          obs_modify (ObserverState.set_vrm
            (VotingRoundManager.update (ve (ParsedPayload.voting_round_id p))
               (VotingRound.on_ftso (VotingRoundProtocol.insert_submit_1 entity p wtx))))
      | None => mret tt
      end;
  match ParsedMessage.fdc parsed with
  | Some p =>
      obs_modify (ObserverState.set_vrm
        (VotingRoundManager.update (ve (ParsedPayload.voting_round_id p))
           (VotingRound.on_fdc
              (FdcVotingRoundProtocol.on_base
                 (VotingRoundProtocol.insert_submit_1 entity p wtx)))))
  | None => mret tt
  end.

Definition submit2_body (entity : Entity.t) (input : string) (wtx : WTxData.t) : obs unit :=
  _ ← obs_modify (ObserverState.record_parse ModeSubmit2 input);
  parsed ← obs_lift (Collaborators.parse_submit2_tx ext input);
  _ ← match ParsedMessage.ftso parsed with
      | Some p =>
          obs_modify (ObserverState.set_vrm
            (VotingRoundManager.update (ve (ParsedPayload.voting_round_id p))
               (VotingRound.on_ftso (VotingRoundProtocol.insert_submit_2 entity p wtx))))
      | None => mret tt
      end;
  match ParsedMessage.fdc parsed with
  | Some p =>
      obs_modify (ObserverState.set_vrm
        (VotingRoundManager.update (ve (ParsedPayload.voting_round_id p))
           (VotingRound.on_fdc
              (FdcVotingRoundProtocol.on_base
                 (VotingRoundProtocol.insert_submit_2 entity p wtx)))))
  | None => mret tt
  end.

Definition submit_signatures_body (entity : Entity.t) (input : string) (wtx : WTxData.t)
    : obs unit :=
  _ ← obs_modify (ObserverState.record_parse ModeSubmitSignatures input);
  parsed ← obs_lift (Collaborators.parse_submit_signature_tx ext input);
  _ ← match ParsedMessage.ftso parsed with
      | Some p =>
          obs_modify (ObserverState.set_vrm
            (VotingRoundManager.update (ve (ParsedPayload.voting_round_id p))
               (VotingRound.on_ftso
                  (VotingRoundProtocol.insert_submit_signatures entity p wtx))))
      | None => mret tt
      end;
  match ParsedMessage.fdc parsed with
  | Some p =>
      obs_modify (ObserverState.set_vrm
        (VotingRoundManager.update (ve (ParsedPayload.voting_round_id p))
           (λ vr,
              let vr :=
                VotingRound.on_fdc
                  (FdcVotingRoundProtocol.on_base
                     (VotingRoundProtocol.insert_submit_signatures entity p wtx)) vr in
              VotingRound.on_fdc
                (FdcVotingRoundProtocol.count_bitvote
                   (SubmitSignatures.unsigned_message (ParsedPayload.payload p))) vr)))
  | None => mret tt
  end.

(** The body of [for tx in block_data["transactions"]]. *)
Definition process_tx (block_data : BlockData.t) (tx : TxData.t) : obs unit :=
  let wtx := WTxData.from_tx_data tx block_data in
  let called_function_sig := hex (take 4 (WTxData.input wtx)) in
  let input := hex (drop 4 (WTxData.input wtx)) in
  let sender_address := WTxData.from_address wtx in
  st ← obs_get;
  match EntityMapper.by_omni (SigningPolicy.entity_mapper (ObserverState.signing_policy st))
          !! sender_address with
  | None => mret tt
  | Some entity =>
      match target_function_signatures !! called_function_sig with
      | Some ModeSubmit1 => try_except_pass (submit1_body entity input wtx)
      | Some ModeSubmit2 => try_except_pass (submit2_body entity input wtx)
      | Some ModeSubmitSignatures =>
          try_except_pass (submit_signatures_body entity input wtx)
      | None => mret tt
      end
  end.

(** [for i in validate(r, by_identity_address[tia], config): log_issue(config, i)] *)
Definition run_validator
    (validate : VotingRound.t → Entity.t → Configuration.t → exc (list Message.t))
    (r : VotingRound.t) : obs unit :=
  st ← obs_get;
  entity ← obs_lift
    (py_getitem
       (EntityMapper.by_identity_address
          (SigningPolicy.entity_mapper (ObserverState.signing_policy st)))
       tia);
  issues ← obs_lift (validate r entity config);
  obs_for issues (λ i, obs_modify (ObserverState.emit i)).

(** The body of [for block in range(block_number, latest_block)], given the
    block and the logs that the chain client returned for it. *)
Definition process_block (block_data : BlockData.t) (block_logs : list LogEvent)
    : obs unit :=
  let block_ts := BlockData.timestamp block_data in
  let voting_epoch := VotingEpoch.from_timestamp vef block_ts in
  _ ← rollover voting_epoch;
  _ ← obs_for block_logs (process_log block_data voting_epoch);
  _ ← obs_for (BlockData.transactions block_data) (process_tx block_data);
  st ← obs_get;
  '(rounds, m) ← obs_lift (VotingRoundManager.finalize vef block_data (ObserverState.vrm st));
  _ ← obs_modify (ObserverState.set_vrm (λ _, m));
  obs_for rounds (λ r,
    _ ← run_validator (validate_ftso vef ext) r;
    run_validator (validate_fdc vef ext) r).
End Loop.

(** ** observer.py: the historical scan of the signing-policy events *)

(** The loop [for log in block_logs] of [get_signing_policy_events]: a log
    whose signature is not one of the six policy events is passed over, a
    policy event is added to the builder, and the loop ends after a
    [SigningPolicyInitialized]. *)
Fixpoint scan_policy_logs (block_logs : list LogEvent) (builder : SigningPolicyBuilder.t)
    : exc SigningPolicyBuilder.t :=
  match block_logs with
  | [] => Ok builder
  | LogPolicy e :: rest =>
      b ← SigningPolicyBuilder.add e builder;
      match e with
      | EvSigningPolicyInitialized _ => Ok b
      | _ => scan_policy_logs rest b
      end
  | _ :: rest => scan_policy_logs rest builder
  end.

(** [get_signing_policy_events], given the logs that the chain client
    returned for the block range. *)
Definition get_signing_policy_events (reward_epoch : RewardEpoch.t)
    (block_logs : list LogEvent) : exc SigningPolicy.t :=
  builder ← scan_policy_logs block_logs
               (SigningPolicyBuilder.for_epoch reward_epoch SigningPolicyBuilder.builder);
  SigningPolicyBuilder.build builder.

(** ** observer.py: [extract] *)

Section Extract.
Context {T : Type}.

(** One iteration of the loop of [extract]. *)
Definition extract_step (round : Z) (time_range : range)
    (latest : option (ParsedPayload.t T * WTxData.t))
    (p : ParsedPayload.t T * WTxData.t) : option (ParsedPayload.t T * WTxData.t) :=
  let '(pl, wtx) := p in
  if negb (ParsedPayload.voting_round_id pl =? round) then latest
  else if negb ((start time_range <=? WTxData.timestamp wtx)
                && (WTxData.timestamp wtx <? stop time_range)) then latest
  else
    match latest with
    | None => Some (pl, wtx)
    | Some l =>
        if WTxData.timestamp wtx >? WTxData.timestamp (snd l) then Some (pl, wtx)
        else latest
    end.

Definition extract (payloads : list (ParsedPayload.t T * WTxData.t)) (round : Z)
    (time_range : range) : option (ParsedPayload.t T * WTxData.t) :=
  match payloads with
  | [] => None
  | _ => fold_left (extract_step round time_range) payloads None
  end.
End Extract.

(** * Properties *)

(** ** [WParsedPayloadList.extract_latest] *)

Section ExtractLatestFacts.
Context {T : Type}.
Implicit Types (agg : list (WParsedPayload.t T)) (r : range).

Definition ts_of (w : WParsedPayload.t T) : Z :=
  WTxData.timestamp (WParsedPayload.wtx_data w).

Definition in_range (r : range) (t : Z) : bool := (start r <=? t) && (t <? stop r).

(** What the loop keeps true of [latest] after scanning the elements [seen]. *)
Definition latest_of (r : range) (seen : list (WParsedPayload.t T))
    (latest : option (WParsedPayload.t T)) : Prop :=
  match latest with
  | None => ∀ y, In y seen → in_range r (ts_of y) = false
  | Some x =>
      In x seen ∧ in_range r (ts_of x) = true ∧
      ∀ y, In y seen → in_range r (ts_of y) = true → ts_of y <= ts_of x
  end.

Lemma extract_latest_step_inv r seen latest w :
  latest_of r seen latest →
  latest_of r (seen ++ [w]) (WParsedPayloadList.extract_latest_step r latest w).
Proof.
  unfold WParsedPayloadList.extract_latest_step, latest_of, in_range, ts_of.
  intros H.
  destruct ((start r <=? WTxData.timestamp (WParsedPayload.wtx_data w))
            && (WTxData.timestamp (WParsedPayload.wtx_data w) <? stop r)) eqn:E; simpl.
  - destruct latest as [l|].
    + destruct H as (Hin & Hr & Hmax).
      destruct (WTxData.timestamp (WParsedPayload.wtx_data w)
                >? WTxData.timestamp (WParsedPayload.wtx_data l)) eqn:G.
      * split; [apply in_or_app; right; now left|]. split; [exact E|].
        intros y Hy Hyr. apply in_app_or in Hy as [Hy|[<-|[]]]; [|lia].
        specialize (Hmax y Hy Hyr). lia.
      * split; [apply in_or_app; now left|]. split; [exact Hr|].
        intros y Hy Hyr. apply in_app_or in Hy as [Hy|[<-|[]]]; [now apply Hmax|lia].
    + split; [apply in_or_app; right; now left|]. split; [exact E|].
      intros y Hy Hyr. apply in_app_or in Hy as [Hy|[<-|[]]]; [|lia].
      rewrite (H y Hy) in Hyr. discriminate.
  - destruct latest as [l|].
    + destruct H as (Hin & Hr & Hmax).
      split; [apply in_or_app; now left|]. split; [exact Hr|].
      intros y Hy Hyr. apply in_app_or in Hy as [Hy|[<-|[]]]; [now apply Hmax|].
      rewrite E in Hyr. discriminate.
    + intros y Hy. apply in_app_or in Hy as [Hy|[<-|[]]]; [now apply H|exact E].
Qed.

Lemma extract_latest_fold r agg : ∀ seen latest,
  latest_of r seen latest →
  latest_of r (seen ++ agg)
    (fold_left (WParsedPayloadList.extract_latest_step r) agg latest).
Proof.
  induction agg as [|w agg IH]; intros seen latest H; simpl.
  - now rewrite app_nil_r.
  - replace (seen ++ w :: agg) with ((seen ++ [w]) ++ agg)
      by (now rewrite <- app_assoc).
    apply IH. now apply extract_latest_step_inv.
Qed.

(** C6: [extract_latest] answers [None] exactly when no element has its
    timestamp in the half-open range [start, stop), and otherwise answers
    an element of the list whose timestamp lies in the range and is maximal
    among the elements whose timestamps lie in the range. *)
Theorem extract_latest_spec agg r :
  match WParsedPayloadList.extract_latest agg r with
  | None => ∀ y, In y agg → ¬ (start r <= ts_of y < stop r)
  | Some x =>
      In x agg ∧ start r <= ts_of x < stop r ∧
      ∀ y, In y agg → start r <= ts_of y < stop r → ts_of y <= ts_of x
  end.
Proof.
  pose proof (extract_latest_fold r agg [] None) as H.
  simpl in H. specialize (H (fun y Hy => match Hy with end)).
  unfold WParsedPayloadList.extract_latest. unfold latest_of, in_range in H.
  destruct (fold_left (WParsedPayloadList.extract_latest_step r) agg None) as [x|].
  - destruct H as (Hin & Hr & Hmax). split; [exact Hin|]. split; [lia|].
    intros y Hy Hyr. apply Hmax; [exact Hy|lia].
  - intros y Hy Hyr. specialize (H y Hy). lia.
Qed.
End ExtractLatestFacts.

(** ** Insertion-ordered dictionaries *)

Section OrderedDictFacts.
Context {K V : Type} `{EqDecision K}.
Implicit Types (d : OrderedDict.t K V) (k : K) (v : V).

Lemma keys_get d k : k ∈ OrderedDict.keys d ↔ is_Some (OrderedDict.get k d).
Proof.
  induction d as [|[k0 v0] d IH]; simpl.
  - rewrite elem_of_nil. split; [tauto|]. intros [? ?]; discriminate.
  - rewrite elem_of_cons. destruct (decide (k0 = k)) as [->|Hne].
    + split; [eauto|tauto].
    + rewrite <- IH. split; [intros [?|?]; [congruence|auto] | auto].
Qed.

Lemma get_elem d k v : OrderedDict.get k d = Some v → (k, v) ∈ d.
Proof.
  induction d as [|[k0 v0] d IH]; simpl; [discriminate|].
  destruct (decide (k0 = k)) as [->|Hne]; intros Hg.
  - injection Hg as ->. apply elem_of_cons; auto.
  - apply elem_of_cons; auto.
Qed.

Lemma keys_set d k v k' :
  k' ∈ OrderedDict.keys (OrderedDict.set k v d) ↔ k' = k ∨ k' ∈ OrderedDict.keys d.
Proof.
  induction d as [|[k0 v0] d IH]; simpl.
  - rewrite list_elem_of_singleton, elem_of_nil. tauto.
  - destruct (decide (k0 = k)) as [->|Hne]; simpl; rewrite !elem_of_cons.
    + tauto.
    + rewrite IH. tauto.
Qed.

Lemma NoDup_set d k v :
  NoDup (OrderedDict.keys d) → NoDup (OrderedDict.keys (OrderedDict.set k v d)).
Proof.
  induction d as [|[k0 v0] d IH]; simpl; intros Hnd.
  - apply NoDup_singleton.
  - apply NoDup_cons in Hnd as [Hk0 Hnd].
    destruct (decide (k0 = k)) as [->|Hne]; simpl; apply NoDup_cons.
    + split; assumption.
    + split; [|auto]. rewrite keys_set. intros [?|?]; [congruence|contradiction].
Qed.

Lemma elem_of_set d k v k' v' :
  (k', v') ∈ OrderedDict.set k v d → (k', v') = (k, v) ∨ (k', v') ∈ d.
Proof.
  induction d as [|[k0 v0] d IH]; simpl.
  - rewrite list_elem_of_singleton. auto.
  - destruct (decide (k0 = k)) as [->|Hne]; rewrite !elem_of_cons.
    + tauto.
    + intros [?|?]; [auto|]. destruct (IH ltac:(assumption)); auto.
Qed.

Lemma keys_remove d k k' :
  k' ∈ OrderedDict.keys (OrderedDict.remove k d) → k' ∈ OrderedDict.keys d.
Proof.
  induction d as [|[k0 v0] d IH]; simpl; [auto|].
  destruct (decide (k0 = k)) as [->|Hne]; simpl; rewrite !elem_of_cons; tauto.
Qed.

Lemma keys_remove_other d k k' :
  k' ≠ k → k' ∈ OrderedDict.keys d → k' ∈ OrderedDict.keys (OrderedDict.remove k d).
Proof.
  intros Hne. induction d as [|[k0 v0] d IH]; simpl; [auto|].
  destruct (decide (k0 = k)) as [->|Hne0]; simpl; rewrite !elem_of_cons.
  - intros [?|?]; [congruence|auto].
  - tauto.
Qed.

Lemma NoDup_remove d k :
  NoDup (OrderedDict.keys d) → NoDup (OrderedDict.keys (OrderedDict.remove k d)).
Proof.
  induction d as [|[k0 v0] d IH]; simpl; intros Hnd; [assumption|].
  apply NoDup_cons in Hnd as [Hk0 Hnd].
  destruct (decide (k0 = k)) as [->|Hne]; simpl; [assumption|].
  apply NoDup_cons. split; [|auto]. intros Hin. apply Hk0. eapply keys_remove, Hin.
Qed.

Lemma keys_remove_self d k :
  NoDup (OrderedDict.keys d) → k ∉ OrderedDict.keys (OrderedDict.remove k d).
Proof.
  induction d as [|[k0 v0] d IH]; simpl; intros Hnd.
  - apply not_elem_of_nil.
  - apply NoDup_cons in Hnd as [Hk0 Hnd].
    destruct (decide (k0 = k)) as [->|Hne]; simpl; [assumption|].
    rewrite elem_of_cons. intros [?|?]; [congruence|]. now apply IH.
Qed.

Lemma elem_of_remove d k k' v' :
  (k', v') ∈ OrderedDict.remove k d → (k', v') ∈ d.
Proof.
  induction d as [|[k0 v0] d IH]; simpl; [auto|].
  destruct (decide (k0 = k)) as [->|Hne]; rewrite !elem_of_cons; tauto.
Qed.
End OrderedDictFacts.

(** ** [VotingRoundManager]: runs of [get] and [finalize] *)

(** A call on the manager.  [CallGet v f g] is [get(v)] followed by what the
    caller does with the reference it gets: a change [f] of the round's
    FTSO part and a change [g] of its FDC part ([f] and [g] are identities
    for a bare [get]). *)
Inductive ManagerCall : Type :=
| CallGet (v : VotingEpoch.t)
    (f : FtsoVotingRoundProtocol.t → FtsoVotingRoundProtocol.t)
    (g : FdcVotingRoundProtocol.t → FdcVotingRoundProtocol.t)
| CallFinalize (block : BlockData.t).

Section ManagerRuns.
Variable vef : VotingEpochFactory.

(** The rounds a call returns to the loop and the manager after it. *)
Definition call (c : ManagerCall) (m : VotingRoundManager.t)
    : exc (list VotingRound.t * VotingRoundManager.t) :=
  match c with
  | CallGet v f g =>
      Ok ([], VotingRoundManager.update v
                (λ r, VotingRound.on_fdc g (VotingRound.on_ftso f r)) m)
  | CallFinalize block => VotingRoundManager.finalize vef block m
  end.

(** A run: the result of every call, in order. *)
Fixpoint run (cs : list ManagerCall) (m : VotingRoundManager.t)
    : exc (list (list VotingRound.t * VotingRoundManager.t)) :=
  match cs with
  | [] => Ok []
  | c :: cs' =>
      '(out, m') ← call c m;
      rest ← run cs' m';
      Ok ((out, m') :: rest)
  end.

(** The states a manager created by [VotingRoundManager(f0)] goes through. *)
Inductive reachable (f0 : Z) : VotingRoundManager.t → Prop :=
| reachable_init : reachable f0 (VotingRoundManager.init f0)
| reachable_call c m out m' :
    reachable f0 m → call c m = Ok (out, m') → reachable f0 m'.

(** The invariant of the spec: every live round is above [finalized]. *)
Definition rounds_above_finalized (m : VotingRoundManager.t) : Prop :=
  ∀ k, k ∈ OrderedDict.keys (VotingRoundManager.rounds m) →
       VotingRoundManager.finalized m < VotingEpoch.id k.

(** The representation invariant: keys are distinct and every round sits
    under its own epoch. *)
Definition manager_wf (m : VotingRoundManager.t) : Prop :=
  NoDup (OrderedDict.keys (VotingRoundManager.rounds m)) ∧
  ∀ k r, (k, r) ∈ VotingRoundManager.rounds m → VotingRound.voting_epoch r = k.

Definition round_id (r : VotingRound.t) : Z := VotingEpoch.id (VotingRound.voting_epoch r).

Definition round_completed (ts : Z) (k : VotingEpoch.t) : bool :=
  VotingEpoch.end_s vef (VotingEpoch.next k) <? ts.

Lemma manager_wf_init f0 : manager_wf (VotingRoundManager.init f0).
Proof.
  split; simpl; [apply NoDup_nil_2|]. intros k r Hin. now apply elem_of_nil in Hin.
Qed.

Lemma update_keys v f m k :
  k ∈ OrderedDict.keys (VotingRoundManager.rounds (VotingRoundManager.update v f m)) ↔
  k = v ∨ k ∈ OrderedDict.keys (VotingRoundManager.rounds m).
Proof.
  unfold VotingRoundManager.update, VotingRoundManager.get.
  destruct (OrderedDict.get v (VotingRoundManager.rounds m)) eqn:E; simpl;
    rewrite !keys_set; tauto.
Qed.

Lemma update_finalized v f m :
  VotingRoundManager.finalized (VotingRoundManager.update v f m)
  = VotingRoundManager.finalized m.
Proof.
  unfold VotingRoundManager.update, VotingRoundManager.get.
  now destruct (OrderedDict.get v (VotingRoundManager.rounds m)).
Qed.

Lemma manager_wf_update v f m :
  (∀ r, VotingRound.voting_epoch (f r) = VotingRound.voting_epoch r) →
  manager_wf m → manager_wf (VotingRoundManager.update v f m).
Proof.
  intros Hf [Hnd Hk]. unfold VotingRoundManager.update, VotingRoundManager.get.
  destruct (OrderedDict.get v (VotingRoundManager.rounds m)) as [r0|] eqn:E; simpl.
  - split; [now apply NoDup_set|]. intros k r Hin.
    apply elem_of_set in Hin as [Heq|Hin]; [|now apply Hk].
    injection Heq as -> ->. rewrite Hf. apply Hk. now apply get_elem.
  - split; [now apply NoDup_set, NoDup_set|]. intros k r Hin.
    apply elem_of_set in Hin as [Heq|Hin].
    + injection Heq as -> ->. now rewrite Hf.
    + apply elem_of_set in Hin as [Heq|Hin]; [|now apply Hk].
      now injection Heq as -> ->.
Qed.

(** [finalize] never raises on a well-formed manager; it keeps the manager
    well formed, does not lower [finalized], and the rounds it adds to the
    output lie above the old counter and at most at the new one. *)
Lemma finalize_loop_ok ts ks : ∀ m out,
  manager_wf m → NoDup ks →
  (∀ k, k ∈ ks → k ∈ OrderedDict.keys (VotingRoundManager.rounds m)) →
  ∃ out' m',
    VotingRoundManager.finalize_loop vef ts ks m out = Ok (out ++ out', m') ∧
    manager_wf m' ∧
    VotingRoundManager.finalized m <= VotingRoundManager.finalized m' ∧
    ∀ r, r ∈ out' →
         VotingRoundManager.finalized m < round_id r <= VotingRoundManager.finalized m'.
Proof.
  induction ks as [|k ks IH]; intros m out Hwf Hnd Hks; simpl.
  - exists [], m. rewrite app_nil_r. split; [reflexivity|]. split; [assumption|].
    split; [lia|]. intros r Hr. now apply elem_of_nil in Hr.
  - apply NoDup_cons in Hnd as [Hk Hnd]. destruct Hwf as [Hwf1 Hwf2].
    assert (Hrest : ∀ k', k' ∈ ks →
              k' ∈ OrderedDict.keys (OrderedDict.remove k (VotingRoundManager.rounds m))).
    { intros k' Hk'. apply keys_remove_other.
      - intros ->. contradiction.
      - apply Hks, elem_of_cons. auto. }
    assert (Hwf' : ∀ z, manager_wf
              (VotingRoundManager.mk z (OrderedDict.remove k (VotingRoundManager.rounds m)))).
    { intros z. split; simpl; [now apply NoDup_remove|].
      intros k' r' Hin. eapply Hwf2, elem_of_remove, Hin. }
    destruct (VotingEpoch.id k <=? VotingRoundManager.finalized m) eqn:Efin.
    + destruct (IH _ out (Hwf' (VotingRoundManager.finalized m)) Hnd Hrest)
        as (out' & m' & Heq & Hwfm' & Hmono & Hout).
      exists out', m'. simpl in *. auto.
    + destruct (VotingEpoch.end_s vef (VotingEpoch.next k) <? ts) eqn:Ecomp.
      * assert (Hget : is_Some (OrderedDict.get k (VotingRoundManager.rounds m))).
        { apply keys_get, Hks, elem_of_cons. auto. }
        destruct Hget as [r Hget]. unfold OrderedDict.pop. rewrite Hget. simpl.
        destruct (IH _ (out ++ [r])
                    (Hwf' (Z.max (VotingRoundManager.finalized m) (VotingEpoch.id k)))
                    Hnd Hrest)
          as (out' & m' & Heq & Hwfm' & Hmono & Hout).
        exists (r :: out'), m'. simpl in *.
        rewrite <- app_assoc in Heq. split; [exact Heq|]. split; [assumption|].
        split; [lia|]. intros r' Hr'. apply elem_of_cons in Hr' as [->|Hr'].
        -- unfold round_id. rewrite (Hwf2 k r (get_elem _ _ _ Hget)). lia.
        -- specialize (Hout r' Hr'). lia.
      * apply IH; [split; assumption|assumption|].
        intros k' Hk'. apply Hks, elem_of_cons. auto.
Qed.

Lemma finalize_ok block m :
  manager_wf m →
  ∃ out m',
    VotingRoundManager.finalize vef block m = Ok (out, m') ∧
    manager_wf m' ∧
    VotingRoundManager.finalized m <= VotingRoundManager.finalized m' ∧
    ∀ r, r ∈ out →
         VotingRoundManager.finalized m < round_id r <= VotingRoundManager.finalized m'.
Proof.
  intros Hwf. unfold VotingRoundManager.finalize.
  destruct (finalize_loop_ok (BlockData.timestamp block)
              (OrderedDict.keys (VotingRoundManager.rounds m)) m [] Hwf)
    as (out & m' & Heq & H); [apply Hwf|auto|].
  exists out, m'. auto.
Qed.

Lemma call_ok c m :
  manager_wf m →
  ∃ out m',
    call c m = Ok (out, m') ∧ manager_wf m' ∧
    VotingRoundManager.finalized m <= VotingRoundManager.finalized m' ∧
    ∀ r, r ∈ out →
         VotingRoundManager.finalized m < round_id r <= VotingRoundManager.finalized m'.
Proof.
  intros Hwf. destruct c as [v f g|block]; simpl.
  - eexists _, _. split; [reflexivity|].
    split; [apply manager_wf_update; [reflexivity|assumption]|].
    rewrite update_finalized. split; [lia|].
    intros r Hr. now apply elem_of_nil in Hr.
  - now apply finalize_ok.
Qed.

Lemma reachable_wf f0 m : reachable f0 m → manager_wf m.
Proof.
  induction 1 as [|c m out m' Hreach IH Hcall]; [apply manager_wf_init|].
  destruct (call_ok c m IH) as (out1 & m1 & Heq & Hwf & _).
  rewrite Heq in Hcall. now injection Hcall as <- <-.
Qed.
End ManagerRuns.

Section ManagerInvariants.
Variable vef : VotingEpochFactory.

Lemma run_ok cs : ∀ m,
  manager_wf m →
  ∃ hist,
    run vef cs m = Ok hist ∧
    StronglySorted Z.le
      (VotingRoundManager.finalized m
       :: map (λ x, VotingRoundManager.finalized (snd x)) hist) ∧
    ForallOrdPairs
      (λ a b : list VotingRound.t, ∀ r1 r2, r1 ∈ a → r2 ∈ b → round_id r1 ≠ round_id r2)
      (map fst hist) ∧
    Forall (λ o : list VotingRound.t,
              ∀ r, r ∈ o → VotingRoundManager.finalized m < round_id r)
           (map fst hist).
Proof.
  induction cs as [|c cs IH]; intros m Hwf; simpl.
  - exists []. simpl. repeat split; constructor; constructor.
  - destruct (call_ok vef c m Hwf) as (out & m' & Hcall & Hwf' & Hmono & Hout).
    destruct (IH m' Hwf') as (hist & Hrun & Hsorted & Hpairs & Habove).
    rewrite Hcall. simpl. rewrite Hrun. simpl.
    exists ((out, m') :: hist). simpl. split; [reflexivity|].
    apply StronglySorted_inv in Hsorted as [Hs Hall]. split; [|split].
    + constructor; [constructor; assumption|].
      constructor; [assumption|].
      eapply Forall_impl; [exact Hall|]. simpl. intros; lia.
    + constructor; [|assumption].
      eapply Forall_impl; [exact Habove|]. simpl.
      intros o Ho r1 r2 Hr1 Hr2. specialize (Hout r1 Hr1). specialize (Ho r2 Hr2). lia.
    + constructor; [intros r Hr; specialize (Hout r Hr); lia|].
      eapply Forall_impl; [exact Habove|]. simpl.
      intros o Ho r Hr. specialize (Ho r Hr). lia.
Qed.

(** C3: in every run of [get] and [finalize] calls on a fresh manager no
    call raises, the [finalized] counter never decreases from one state to
    the next, and no voting-epoch id occurs in the round lists returned by
    two different [finalize] calls. *)
Theorem finalized_monotone_and_rounds_returned_once (f0 : Z) (cs : list ManagerCall) :
  ∃ hist,
    run vef cs (VotingRoundManager.init f0) = Ok hist ∧
    StronglySorted Z.le (f0 :: map (λ x, VotingRoundManager.finalized (snd x)) hist) ∧
    ForallOrdPairs
      (λ a b : list VotingRound.t, ∀ r1 r2, r1 ∈ a → r2 ∈ b → round_id r1 ≠ round_id r2)
      (map fst hist).
Proof.
  destruct (run_ok cs (VotingRoundManager.init f0) (manager_wf_init f0))
    as (hist & Hrun & Hsorted & Hpairs & _).
  exists hist. auto.
Qed.

Lemma end_s_next_mono (a b : VotingEpoch.t) :
  0 <= voting_epoch_duration_seconds vef →
  VotingEpoch.id a <= VotingEpoch.id b →
  VotingEpoch.end_s vef (VotingEpoch.next a) <= VotingEpoch.end_s vef (VotingEpoch.next b).
Proof.
  intros Hd Hab. unfold VotingEpoch.end_s, VotingEpoch.start_s, VotingEpoch.next. simpl. nia.
Qed.

Lemma finalize_loop_above ts ks : ∀ m out out' m',
  0 <= voting_epoch_duration_seconds vef →
  manager_wf m →
  VotingRoundManager.finalize_loop vef ts ks m out = Ok (out', m') →
  (∀ k, k ∈ OrderedDict.keys (VotingRoundManager.rounds m) →
        k ∈ ks ∨ (VotingRoundManager.finalized m < VotingEpoch.id k
                  ∧ round_completed vef ts k = false)) →
  rounds_above_finalized m'.
Proof.
  induction ks as [|k ks IH]; intros m out out' m' Hd Hwf Hrun Hkeys; simpl in Hrun.
  - injection Hrun as <- <-. intros k Hk.
    destruct (Hkeys k Hk) as [Hin|[Hlt _]]; [now apply elem_of_nil in Hin|assumption].
  - destruct Hwf as [Hwf1 Hwf2].
    assert (Hwf' : ∀ z, manager_wf
              (VotingRoundManager.mk z (OrderedDict.remove k (VotingRoundManager.rounds m)))).
    { intros z. split; simpl; [now apply NoDup_remove|].
      intros k' r' Hin. eapply Hwf2, elem_of_remove, Hin. }
    destruct (VotingEpoch.id k <=? VotingRoundManager.finalized m) eqn:Efin.
    + eapply IH; [assumption|apply Hwf'|exact Hrun|]. simpl.
      intros k' Hk'.
      destruct (Hkeys k' (keys_remove _ _ _ Hk')) as [Hin|Hgood]; [|auto].
      apply elem_of_cons in Hin as [->|Hin]; [|auto].
      exfalso. revert Hk'. now apply keys_remove_self.
    + destruct (VotingEpoch.end_s vef (VotingEpoch.next k) <? ts) eqn:Ecomp.
      * unfold OrderedDict.pop in Hrun.
        destruct (OrderedDict.get k (VotingRoundManager.rounds m)) as [r|];
          [|discriminate]. simpl in Hrun.
        eapply IH; [assumption|apply Hwf'|exact Hrun|]. simpl.
        intros k' Hk'.
        destruct (Hkeys k' (keys_remove _ _ _ Hk')) as [Hin|[Hlt Hnc]].
        -- apply elem_of_cons in Hin as [->|Hin]; [|auto].
           exfalso. revert Hk'. now apply keys_remove_self.
        -- right. split; [|assumption]. unfold round_completed in Hnc.
           destruct (Z_le_gt_dec (VotingEpoch.id k') (VotingEpoch.id k)) as [Hle|Hgt];
             [|lia].
           pose proof (end_s_next_mono k' k Hd Hle). lia.
      * eapply IH; [assumption|split; eassumption|exact Hrun|].
        intros k' Hk'. destruct (Hkeys k' Hk') as [Hin|Hgood]; [|auto].
        apply elem_of_cons in Hin as [->|Hin]; [|auto].
        right. unfold round_completed. split; [lia|assumption].
Qed.

(** C2, amended: from every reachable state [finalize] returns, and the
    state it leaves has every key of [rounds] strictly above [finalized]
    (epochs of non-negative duration); [get(v)] keeps that property when
    [v.id] is above [finalized]. *)
Theorem rounds_above_finalized_after_finalize (f0 : Z) (m : VotingRoundManager.t) :
  0 <= voting_epoch_duration_seconds vef →
  reachable vef f0 m →
  (∀ block, ∃ out m',
      VotingRoundManager.finalize vef block m = Ok (out, m') ∧ rounds_above_finalized m') ∧
  (∀ v f, rounds_above_finalized m →
          VotingRoundManager.finalized m < VotingEpoch.id v →
          rounds_above_finalized (VotingRoundManager.update v f m)).
Proof.
  intros Hd Hreach. pose proof (reachable_wf vef f0 m Hreach) as Hwf. split.
  - intros block. destruct (finalize_ok vef block m Hwf) as (out & m' & Heq & _).
    exists out, m'. split; [exact Heq|].
    eapply finalize_loop_above; [exact Hd|exact Hwf|exact Heq|]. auto.
  - intros v f Hinv Hv k Hk. rewrite update_finalized.
    apply update_keys in Hk as [->|Hk]; [assumption|now apply Hinv].
Qed.
End ManagerInvariants.

(** ** [SigningPolicyBuilder.build] *)

Section BuildFacts.
Import SigningPolicyBuilder.

(** Every voter the [signing_policy_address] index answers is a key of the
    index of the registrations by voter. *)
Lemma spa_vres_fold (l : list VoterRegistered.t) :
  ∀ (ms : gmap string string) (mv : gmap string VoterRegistered.t),
    (∀ s a, ms !! s = Some a → is_Some (mv !! a)) →
    ∀ s a,
      foldl (λ m v, <[VoterRegistered.signing_policy_address v := VoterRegistered.voter v]> m)
            ms l !! s = Some a →
      is_Some (foldl (λ m v, <[VoterRegistered.voter v := v]> m) mv l !! a).
Proof.
  induction l as [|v l IH]; intros ms mv Hinv s a; simpl; [apply Hinv|].
  apply IH. intros s' a' Hs'.
  destruct (decide (VoterRegistered.signing_policy_address v = s')) as [<-|Hne].
  - rewrite lookup_insert_eq in Hs'. injection Hs' as <-.
    rewrite lookup_insert_eq. eauto.
  - rewrite lookup_insert_ne in Hs' by assumption.
    destruct (decide (VoterRegistered.voter v = a')) as [<-|Hne'].
    + rewrite lookup_insert_eq. eauto.
    + rewrite lookup_insert_ne by assumption. eapply Hinv, Hs'.
Qed.

Lemma spa_index_vres_index (l : list VoterRegistered.t) s a :
  spa_index l !! s = Some a → is_Some (vres_index l !! a).
Proof.
  apply spa_vres_fold. intros s' a' Hs'. now rewrite lookup_empty in Hs'.
Qed.

Lemma vres_key_fold (l : list VoterRegistered.t) :
  ∀ (mv : gmap string VoterRegistered.t),
    (∀ a v, mv !! a = Some v → VoterRegistered.voter v = a) →
    ∀ a v, foldl (λ m v, <[VoterRegistered.voter v := v]> m) mv l !! a = Some v →
           VoterRegistered.voter v = a.
Proof.
  induction l as [|v0 l IH]; intros mv Hinv a v; simpl; [apply Hinv|].
  apply IH. intros a' v' Ha'.
  destruct (decide (VoterRegistered.voter v0 = a')) as [<-|Hne].
  - rewrite lookup_insert_eq in Ha'. now injection Ha' as <-.
  - rewrite lookup_insert_ne in Ha' by assumption. eapply Hinv, Ha'.
Qed.

Lemma vres_index_key (l : list VoterRegistered.t) a v :
  vres_index l !! a = Some v → VoterRegistered.voter v = a.
Proof.
  apply vres_key_fold. intros a' v' Ha'. now rewrite lookup_empty in Ha'.
Qed.

(** How one voter is resolved: weight by position, registration through
    the two indexes, registration info through the voter. *)
Definition resolved (spa : gmap string string) (vres : gmap string VoterRegistered.t)
    (vries : gmap string VoterRegistrationInfo.t) (weights : list Z)
    (i : nat) (voter : string) (e : Entity.t) : Prop :=
  ∃ w a vre vrie,
    weights !! i = Some w ∧ spa !! voter = Some a ∧
    vres !! a = Some vre ∧ vries !! a = Some vrie ∧
    e = make_entity vre vrie w.

Lemma build_loop_spec spa vres vries weights : ∀ voters i entities mapper,
  (∀ n voter, voters !! n = Some voter →
     is_Some (weights !! (i + n)%nat) ∧
     ∃ a, spa !! voter = Some a ∧ is_Some (vres !! a) ∧ is_Some (vries !! a)) →
  ∃ es mapper',
    build_loop spa vres vries weights i voters entities mapper
      = Ok (entities ++ es, mapper') ∧
    length es = length voters ∧
    ∀ n voter, voters !! n = Some voter →
      ∃ e, es !! n = Some e ∧ resolved spa vres vries weights (i + n) voter e.
Proof.
  induction voters as [|voter voters IH]; intros i entities mapper Hdef; simpl.
  - exists [], mapper. rewrite app_nil_r. split; [reflexivity|]. split; [reflexivity|].
    intros n v Hn. discriminate.
  - destruct (Hdef 0%nat voter eq_refl) as ([w Hw] & a & Ha & [vre Hvre] & [vrie Hvrie]).
    rewrite Nat.add_0_r in Hw.
    unfold py_index, py_getitem. rewrite Hw, Ha. simpl. rewrite Hvre. simpl.
    rewrite Hvrie. simpl.
    destruct (IH (S i) (entities ++ [make_entity vre vrie w])
                (EntityMapper.insert (make_entity vre vrie w) mapper))
      as (es & mapper' & Heq & Hlen & Hres).
    { intros n v Hn. specialize (Hdef (S n) v Hn).
      now replace (S i + n)%nat with (i + S n)%nat by lia. }
    exists (make_entity vre vrie w :: es), mapper'.
    rewrite <- app_assoc in Heq. split; [exact Heq|]. split; [simpl; lia|].
    intros [|n] v Hn; simpl in Hn.
    + injection Hn as <-. exists (make_entity vre vrie w). split; [reflexivity|].
      rewrite Nat.add_0_r. exists w, a, vre, vrie. auto.
    + destruct (Hres n v Hn) as (e & He & Hr). exists e. split; [exact He|].
      now replace (i + S n)%nat with (S i + n)%nat by lia.
Qed.

(** C4: when the builder holds its reward epoch and the three singleton
    events with that epoch's id, as many registrations as registration
    infos, and every lookup of the loop is defined, [build] returns a policy
    whose [entities] has one entry per element of [voters], in order; entry
    [i] carries [weights[i]] as normalized weight and is the entity of the
    voter that the [signing_policy_address] index gives for [voters[i]]. *)
Theorem build_entities_follow_voters (b : SigningPolicyBuilder.t)
    (re : RewardEpoch.t) (ras : RandomAcquisitionStarted.t)
    (vpbs : VotePowerBlockSelected.t) (spi : SigningPolicyInitialized.t) :
  reward_epoch b = Some re →
  random_acquisation_started b = Some ras →
  RandomAcquisitionStarted.reward_epoch_id ras = RewardEpoch.id re →
  vote_power_block_selected b = Some vpbs →
  VotePowerBlockSelected.reward_epoch_id vpbs = RewardEpoch.id re →
  signing_policy_initialized b = Some spi →
  SigningPolicyInitialized.reward_epoch_id spi = RewardEpoch.id re →
  length (voter_registered b) = length (voter_registration_info b) →
  (∀ i voter, SigningPolicyInitialized.voters spi !! i = Some voter →
     is_Some (SigningPolicyInitialized.weights spi !! i) ∧
     ∃ a, spa_index (voter_registered b) !! voter = Some a ∧
          is_Some (vries_index (voter_registration_info b) !! a)) →
  ∃ sp,
    build b = Ok sp ∧
    length (SigningPolicy.entities sp) = length (SigningPolicyInitialized.voters spi) ∧
    ∀ i voter, SigningPolicyInitialized.voters spi !! i = Some voter →
      ∃ e w a,
        SigningPolicy.entities sp !! i = Some e ∧
        SigningPolicyInitialized.weights spi !! i = Some w ∧
        Entity.normalized_weight e = w ∧
        spa_index (voter_registered b) !! voter = Some a ∧
        Entity.identity_address e = a ∧
        resolved (spa_index (voter_registered b)) (vres_index (voter_registered b))
                 (vries_index (voter_registration_info b))
                 (SigningPolicyInitialized.weights spi) i voter e.
Proof.
  intros Hre Hras Hrasid Hvp Hvpid Hspi Hspiid Hlen Hdef.
  unfold build. rewrite Hre, Hras, Hvp, Hspi. simpl.
  rewrite Hrasid, Hvpid, Hspiid, Z.eqb_refl. simpl.
  rewrite bool_decide_eq_true_2 by assumption. simpl.
  destruct (build_loop_spec (spa_index (voter_registered b))
              (vres_index (voter_registered b))
              (vries_index (voter_registration_info b))
              (SigningPolicyInitialized.weights spi)
              (SigningPolicyInitialized.voters spi) 0%nat [] EntityMapper.empty)
    as (es & mapper' & Heq & Hlen' & Hres).
  { intros n voter Hn. destruct (Hdef n voter Hn) as (Hw & a & Ha & Hvrie).
    split; [exact Hw|]. exists a. split; [exact Ha|]. split; [|exact Hvrie].
    eapply spa_index_vres_index, Ha. }
  rewrite Heq. simpl. eexists. split; [reflexivity|]. simpl.
  split; [exact Hlen'|]. intros i voter Hi.
  destruct (Hres i voter Hi) as (e & He & Hr). simpl in Hr.
  pose proof Hr as (w & a & vre & vrie & Hw & Ha & Hvre & Hvrie & ->).
  exists (make_entity vre vrie w), w, a. simpl.
  repeat split; try assumption. eapply vres_index_key, Hvre.
Qed.
End BuildFacts.

(** ** The inflation of the FDC consensus bitvote *)

Section InflateFacts.

(** [(byte >> shift) & 1 == 1] *)
Definition bitb (byte shift : Z) : bool := Z.land (Z.shiftr byte shift) 1 =? 1.

Definition invalid_payload_length : PyExc := ValueError "Invalid payload length.".

(** Some set bit of the payload falls at a position whose index [i] is
    negative, that is at or beyond position [n_requests], counting
    positions from the least significant bit of the last byte. *)
Definition set_bit_beyond (n_requests : Z) (j0 : Z) (reversed_votes : bytes) : Prop :=
  ∃ (j : nat) (byte : byte) (shift : Z),
    reversed_votes !! j = Some byte ∧ 0 <= shift < 8 ∧
    n_requests - 1 - (j0 + Z.of_nat j) * 8 - shift < 0 ∧
    bitb (byte_val byte) shift = true.

(** The bit at position [p] of the packed payload: bit [p mod 8] of the
    byte [p / 8] from the end. *)
Definition vote_bit (votes : bytes) (p : Z) : bool :=
  match rev votes !! Z.to_nat (p / 8) with
  | Some byte => bitb (byte_val byte) (p mod 8)
  | None => false
  end.

(** Following the words of the spec: the array the inflation is to produce,
    entry [i] being the bit at position [n_requests - 1 - i]. *)
Definition inflated (n_requests : Z) (votes : bytes) : list bool :=
  (λ i, vote_bit votes (n_requests - 1 - i)) <$> seqZ 0 n_requests.

(** Following the words of the spec: the packed encoding of a bit array.
    Bit [shift] of the byte [j] from the end holds entry
    [n - 1 - j * 8 - shift] of the array, and is clear where that index is
    negative. *)
Definition bit_at (bits : list bool) (i : Z) : bool :=
  if i <? 0 then false else default false (bits !! Z.to_nat i).

(** The byte whose bit [s] is [b s], for [s] from 0 (least significant) to 7. *)
Definition byte_of_bit_fn (b : Z → bool) : byte :=
  Byte.of_bits (b 0, (b 1, (b 2, (b 3, (b 4, (b 5, (b 6, b 7))))))).

Definition pack_byte (bits : list bool) (j : Z) : byte :=
  byte_of_bit_fn (λ s, bit_at bits (Z.of_nat (length bits) - 1 - j * 8 - s)).

Definition pack_bitvote (bits : list bool) : bytes :=
  rev (pack_byte bits <$> seqZ 0 ((Z.of_nat (length bits) + 7) / 8)).

(** The array after the positions below [bound] have been written. *)
Definition written_below (n : Z) (f : Z → bool) (bound : Z) (cb : list bool) : Prop :=
  length cb = Z.to_nat n ∧
  ∀ x, 0 <= x < n →
       cb !! Z.to_nat x = Some (if n - 1 - x <? bound then f (n - 1 - x) else false).

Lemma inflate_byte_spec (n j byte : Z) (f : Z → bool) :
  0 <= n → 0 <= j →
  ∀ (len : nat) (s : Z) (cb : list bool),
    0 <= s →
    (∀ s', s <= s' < s + Z.of_nat len → f (j * 8 + s') = bitb byte s') →
    written_below n f (j * 8 + s) cb →
    (inflate_byte n j byte (seqZ s (Z.of_nat len)) cb = Raise invalid_payload_length ∧
     ∃ s', s <= s' < s + Z.of_nat len ∧ n - 1 - j * 8 - s' < 0 ∧ bitb byte s' = true)
    ∨
    (∃ cb', inflate_byte n j byte (seqZ s (Z.of_nat len)) cb = Ok cb' ∧
            written_below n f (j * 8 + s + Z.of_nat len) cb' ∧
            ∀ s', s <= s' < s + Z.of_nat len →
                  ¬ (n - 1 - j * 8 - s' < 0 ∧ bitb byte s' = true)).
Proof.
  intros Hn Hj. induction len as [|len IH]; intros s cb Hs Hf Hcb.
  - right. exists cb. simpl. split; [reflexivity|]. split.
    + now replace (j * 8 + s + Z.of_nat 0) with (j * 8 + s) by lia.
    + intros s' Hs'. lia.
  - rewrite seqZ_cons by lia.
    replace (Z.pred (Z.of_nat (S len))) with (Z.of_nat len) by lia.
    simpl inflate_byte. fold (bitb byte s).
    destruct Hcb as [Hlen Hcb].
    destruct (Z.ltb_spec (n - 1 - j * 8 - s) 0) as [Hneg|Hnonneg].
    + destruct (bitb byte s) eqn:Hbit; simpl.
      * left. split; [reflexivity|]. exists s. split; [lia|]. auto.
      * rewrite Z.geb_leb. destruct (Z.leb_spec 0 (n - 1 - j * 8 - s)) as [?|_]; [lia|].
        destruct (IH (Z.succ s) cb) as [(Hr & s' & Hs' & Hov)|(cb' & Hr & Hw & Hno)].
        -- lia.
        -- intros s' Hs'. apply Hf. lia.
        -- split; [exact Hlen|]. intros x Hx. rewrite (Hcb x Hx).
           destruct (Z.ltb_spec (n - 1 - x) (j * 8 + s)),
                    (Z.ltb_spec (n - 1 - x) (j * 8 + Z.succ s)); try reflexivity; lia.
        -- left. split; [exact Hr|]. exists s'. split; [lia|exact Hov].
        -- right. exists cb'. split; [exact Hr|]. split.
           ++ now replace (j * 8 + s + Z.of_nat (S len)) with (j * 8 + Z.succ s + Z.of_nat len) by lia.
           ++ intros s' Hs' [Hi Hb].
              destruct (Z.eq_dec s' s) as [->|Hne]; [congruence|].
              apply (Hno s'); [lia|auto].
    + simpl. rewrite Z.geb_leb.
      destruct (Z.leb_spec 0 (n - 1 - j * 8 - s)) as [_|?]; [|lia].
      unfold py_setitem. rewrite bool_decide_eq_true_2 by lia. simpl.
      destruct (IH (Z.succ s) (<[Z.to_nat (n - 1 - j * 8 - s) := bitb byte s]> cb))
        as [(Hr & s' & Hs' & Hov)|(cb' & Hr & Hw & Hno)].
      * lia.
      * intros s' Hs'. apply Hf. lia.
      * split; [now rewrite length_insert|]. intros x Hx.
        destruct (Z.eq_dec x (n - 1 - j * 8 - s)) as [->|Hne].
        -- rewrite list_lookup_insert_eq by lia.
           destruct (Z.ltb_spec (n - 1 - (n - 1 - j * 8 - s)) (j * 8 + Z.succ s)); [|lia].
           replace (n - 1 - (n - 1 - j * 8 - s)) with (j * 8 + s) by lia.
           rewrite Hf by lia. reflexivity.
        -- rewrite list_lookup_insert_ne by lia. rewrite (Hcb x Hx).
           destruct (Z.ltb_spec (n - 1 - x) (j * 8 + s)),
                    (Z.ltb_spec (n - 1 - x) (j * 8 + Z.succ s)); try reflexivity; lia.
      * left. split; [exact Hr|]. exists s'. split; [lia|exact Hov].
      * right. exists cb'. split; [exact Hr|]. split.
        -- now replace (j * 8 + s + Z.of_nat (S len)) with (j * 8 + Z.succ s + Z.of_nat len) by lia.
        -- intros s' Hs' [Hi Hb].
           destruct (Z.eq_dec s' s) as [->|Hne]; [lia|].
           apply (Hno s'); [lia|auto].
Qed.

Lemma inflate_loop_spec (n : Z) (f : Z → bool) :
  0 <= n →
  ∀ (rest : bytes) (j : Z) (cb : list bool),
    0 <= j →
    (∀ (j' : nat) byte s, rest !! j' = Some byte → 0 <= s < 8 →
       f ((j + Z.of_nat j') * 8 + s) = bitb (byte_val byte) s) →
    written_below n f (j * 8) cb →
    (inflate_loop n j rest cb = Raise invalid_payload_length ∧ set_bit_beyond n j rest)
    ∨
    (∃ cb', inflate_loop n j rest cb = Ok cb' ∧
            written_below n f ((j + Z.of_nat (length rest)) * 8) cb' ∧
            ¬ set_bit_beyond n j rest).
Proof.
  intros Hn. induction rest as [|byte rest IH]; intros j cb Hj Hf Hcb.
  - right. exists cb. simpl. split; [reflexivity|]. split.
    + now replace ((j + Z.of_nat 0) * 8) with (j * 8) by lia.
    + intros (j' & b & s & Hl & _). discriminate.
  - cbn [inflate_loop].
    destruct (inflate_byte_spec n j (byte_val byte) f Hn Hj 8%nat 0 cb)
      as [(Hr & s' & Hs' & Hov)|(cb1 & Hr & Hw & Hno)].
    + lia.
    + intros s' Hs'. specialize (Hf 0%nat byte s' eq_refl).
      replace ((j + Z.of_nat 0) * 8 + s') with (j * 8 + s') in Hf by lia. apply Hf. lia.
    + now replace (j * 8 + 0) with (j * 8) by lia.
    + left. change (seqZ 0 (Z.of_nat 8)) with (seqZ 0 8) in Hr. rewrite Hr. simpl.
      split; [reflexivity|]. exists 0%nat, byte, s'.
      split; [reflexivity|]. split; [lia|]. destruct Hov as [Hi Hb]. split; [lia|exact Hb].
    + change (seqZ 0 (Z.of_nat 8)) with (seqZ 0 8) in Hr. rewrite Hr. simpl.
      destruct (IH (j + 1) cb1) as [(Hr' & j' & b & s & Hl & Hs & Hi & Hb)
                                   |(cb' & Hr' & Hw' & Hno')].
      * lia.
      * intros j' b s Hl Hs. specialize (Hf (S j') b s Hl Hs).
        now replace ((j + 1 + Z.of_nat j') * 8 + s) with ((j + Z.of_nat (S j')) * 8 + s) by lia.
      * now replace ((j + 1) * 8) with (j * 8 + 0 + Z.of_nat 8) by lia.
      * left. split; [exact Hr'|]. exists (S j'), b, s. simpl.
        split; [exact Hl|]. split; [exact Hs|]. split; [lia|exact Hb].
      * right. exists cb'. split; [exact Hr'|]. split.
        -- cbn [length].
           now replace ((j + Z.of_nat (S (length rest))) * 8)
             with ((j + 1 + Z.of_nat (length rest)) * 8) by lia.
        -- intros ([|j'] & b & s & Hl & Hs & Hi & Hb); simpl in Hl.
           ++ injection Hl as <-. apply (Hno s); [lia|]. split; [lia|exact Hb].
           ++ apply Hno'. exists j', b, s. split; [exact Hl|]. split; [exact Hs|].
              split; [lia|exact Hb].
Qed.

Lemma vote_bit_byte (votes : bytes) (j : nat) (byte : byte) (s : Z) :
  rev votes !! j = Some byte → 0 <= s < 8 →
  vote_bit votes (Z.of_nat j * 8 + s) = bitb (byte_val byte) s.
Proof.
  intros Hl Hs. unfold vote_bit.
  replace ((Z.of_nat j * 8 + s) / 8) with (Z.of_nat j)
    by (apply Z.div_unique with s; lia).
  replace ((Z.of_nat j * 8 + s) mod 8) with s
    by (apply Z.mod_unique with (Z.of_nat j); lia).
  now rewrite Nat2Z.id, Hl.
Qed.

Lemma vote_bit_beyond (votes : bytes) (p : Z) :
  Z.of_nat (length votes) * 8 <= p → vote_bit votes p = false.
Proof.
  intros Hp. unfold vote_bit. rewrite lookup_ge_None_2; [reflexivity|].
  rewrite length_rev.
  assert (Z.of_nat (length votes) <= p / 8) by (apply Z.div_le_lower_bound; lia).
  lia.
Qed.

Lemma inflated_length (n : Z) (votes : bytes) : length (inflated n votes) = Z.to_nat n.
Proof. unfold inflated. now rewrite length_fmap, length_seqZ. Qed.

Lemma inflated_lookup (n : Z) (votes : bytes) (x : Z) :
  0 <= x < n → inflated n votes !! Z.to_nat x = Some (vote_bit votes (n - 1 - x)).
Proof.
  intros Hx. unfold inflated. rewrite list_lookup_fmap.
  rewrite (proj2 (lookup_seqZ 0 n (Z.to_nat x) x)) by lia. reflexivity.
Qed.

Lemma inflate_bitvote_cases (n : Z) (votes : bytes) :
  0 <= n →
  (inflate_bitvote n votes = Raise invalid_payload_length ∧ set_bit_beyond n 0 (rev votes))
  ∨ (inflate_bitvote n votes = Ok (inflated n votes) ∧ ¬ set_bit_beyond n 0 (rev votes)).
Proof.
  intros Hn. unfold inflate_bitvote.
  destruct (inflate_loop_spec n (vote_bit votes) Hn (rev votes) 0
              (replicate (Z.to_nat n) false))
    as [(Hr & Hov)|(cb' & Hr & [Hlen Hw] & Hno)].
  - lia.
  - intros j' byte s Hl Hs. now apply vote_bit_byte.
  - split; [apply length_replicate|]. intros x Hx.
    rewrite lookup_replicate_2 by lia.
    destruct (Z.ltb_spec (n - 1 - x) (0 * 8)); [lia|reflexivity].
  - left. auto.
  - right. split; [|exact Hno]. rewrite Hr. f_equal.
    apply list_eq. intros i.
    destruct (decide (i < Z.to_nat n)%nat) as [Hi|Hi].
    + replace i with (Z.to_nat (Z.of_nat i)) by apply Nat2Z.id.
      rewrite Hw, inflated_lookup by lia. f_equal.
      destruct (Z.ltb_spec (n - 1 - Z.of_nat i) ((0 + Z.of_nat (length (rev votes))) * 8));
        [reflexivity|].
      symmetry. apply vote_bit_beyond. rewrite length_rev in *. lia.
    + rewrite !lookup_ge_None_2; [reflexivity| |]; [rewrite inflated_length|]; lia.
Qed.

Lemma bitb_byte_of_bit_fn (b : Z → bool) (s : Z) :
  0 <= s < 8 → bitb (byte_val (byte_of_bit_fn b)) s = b s.
Proof.
  intros Hs.
  assert (s = 0 ∨ s = 1 ∨ s = 2 ∨ s = 3 ∨ s = 4 ∨ s = 5 ∨ s = 6 ∨ s = 7) as Hcase by lia.
  unfold byte_of_bit_fn.
  repeat (destruct Hcase as [Hcase|Hcase]); subst s;
    destruct (b 0), (b 1), (b 2), (b 3), (b 4), (b 5), (b 6), (b 7); reflexivity.
Qed.

Lemma pack_byte_bit (bits : list bool) (j s : Z) :
  0 <= s < 8 →
  bitb (byte_val (pack_byte bits j)) s
  = bit_at bits (Z.of_nat (length bits) - 1 - j * 8 - s).
Proof.
  intros Hs. unfold pack_byte. now rewrite bitb_byte_of_bit_fn.
Qed.

Lemma pack_bitvote_lookup (bits : list bool) (j : nat) (byte : byte) :
  rev (pack_bitvote bits) !! j = Some byte → byte = pack_byte bits (Z.of_nat j).
Proof.
  unfold pack_bitvote. rewrite rev_involutive, list_lookup_fmap.
  destruct (seqZ 0 ((Z.of_nat (length bits) + 7) / 8) !! j) as [k|] eqn:E; [|discriminate].
  apply lookup_seqZ in E as [-> _]. simpl. now intros [= <-].
Qed.

Lemma pack_bitvote_within (bits : list bool) :
  ¬ set_bit_beyond (Z.of_nat (length bits)) 0 (rev (pack_bitvote bits)).
Proof.
  intros (j & byte & s & Hl & Hs & Hi & Hb).
  apply pack_bitvote_lookup in Hl as ->. rewrite pack_byte_bit in Hb by assumption.
  unfold bit_at in Hb.
  destruct (Z.ltb_spec (Z.of_nat (length bits) - 1 - Z.of_nat j * 8 - s) 0);
    [discriminate|lia].
Qed.

Lemma inflated_pack_bitvote (bits : list bool) :
  inflated (Z.of_nat (length bits)) (pack_bitvote bits) = bits.
Proof.
  apply list_eq. intros i.
  destruct (decide (i < length bits)%nat) as [Hi|Hi].
  - replace i with (Z.to_nat (Z.of_nat i)) at 1 by apply Nat2Z.id.
    rewrite inflated_lookup by lia.
    set (p := Z.of_nat (length bits) - 1 - Z.of_nat i).
    assert (Hp : 0 <= p < Z.of_nat (length bits)) by (unfold p; lia).
    pose proof (Z.div_mod p 8 ltac:(lia)) as Hdm.
    pose proof (Z.mod_pos_bound p 8 ltac:(lia)) as Hm.
    assert (Hq : 0 <= p / 8) by (apply Z.div_pos; lia).
    assert (Hlk : rev (pack_bitvote bits) !! Z.to_nat (p / 8)
                  = Some (pack_byte bits (p / 8))).
    { unfold pack_bitvote. rewrite rev_involutive, list_lookup_fmap.
      rewrite (proj2 (lookup_seqZ 0 _ (Z.to_nat (p / 8)) (p / 8))); [reflexivity|].
      split; [lia|]. rewrite Z2Nat.id by lia.
      apply Z.div_lt_upper_bound; [lia|].
      pose proof (Z.div_mod (Z.of_nat (length bits) + 7) 8 ltac:(lia)).
      pose proof (Z.mod_pos_bound (Z.of_nat (length bits) + 7) 8 ltac:(lia)). lia. }
    unfold vote_bit. rewrite Hlk, pack_byte_bit by lia.
    replace (Z.of_nat (length bits) - 1 - p / 8 * 8 - p mod 8) with (Z.of_nat i)
      by (unfold p in *; lia).
    unfold bit_at. destruct (Z.ltb_spec (Z.of_nat i) 0); [lia|].
    rewrite Nat2Z.id. destruct (lookup_lt_is_Some_2 bits i Hi) as [b Hb].
    now rewrite Hb.
  - rewrite !lookup_ge_None_2; [reflexivity| |]; [|rewrite inflated_length]; lia.
Qed.

(** C5: for a payload parsed as [(n_requests : uint16, votes)] the
    inflation raises [Invalid payload length.] exactly when a set bit lies
    at a position whose index [i = n_requests - 1 - j * 8 - shift] is
    negative; otherwise it returns the array of length [n_requests] whose
    entry [i] is the bit at position [n_requests - 1 - i]; and it inverts
    the packed encoding of every bit array of length [n_requests]. *)
Theorem inflate_bitvote_inverts_packing (n_requests : Z) (votes : bytes) :
  0 <= n_requests < 65536 →
  (inflate_bitvote n_requests votes = Raise invalid_payload_length
   ↔ set_bit_beyond n_requests 0 (rev votes)) ∧
  (¬ set_bit_beyond n_requests 0 (rev votes) →
   inflate_bitvote n_requests votes = Ok (inflated n_requests votes)) ∧
  length (inflated n_requests votes) = Z.to_nat n_requests ∧
  (∀ bits, Z.of_nat (length bits) = n_requests →
           inflate_bitvote n_requests (pack_bitvote bits) = Ok bits).
Proof.
  intros Hn. split; [|split; [|split]].
  - destruct (inflate_bitvote_cases n_requests votes) as [[Hr Hov]|[Hr Hno]]; [lia| |].
    + tauto.
    + rewrite Hr. split; [discriminate|contradiction].
  - intros Hno.
    destruct (inflate_bitvote_cases n_requests votes) as [[Hr Hov]|[Hr _]];
      [lia|contradiction|exact Hr].
  - apply inflated_length.
  - intros bits <-.
    destruct (inflate_bitvote_cases (Z.of_nat (length bits)) (pack_bitvote bits))
      as [[_ Hov]|[Hr _]]; [lia| |].
    + now apply pack_bitvote_within in Hov.
    + now rewrite Hr, inflated_pack_bitvote.
Qed.
End InflateFacts.

(** ** Python's [sorted] *)

Section PySortedFacts.
Context {A : Type} (le : A → A → bool).
Hypothesis le_total : ∀ a b, le a b = false → le b a = true.
Hypothesis le_trans : ∀ a b c, le a b = true → le b c = true → le a c = true.

Lemma sorted_insert_perm (x : A) (l : list A) : sorted_insert le x l ≡ₚ x :: l.
Proof.
  induction l as [|y l IH]; simpl; [reflexivity|].
  destruct (le x y); [reflexivity|].
  rewrite IH. apply perm_swap.
Qed.

Lemma py_sorted_perm (l : list A) : py_sorted le l ≡ₚ l.
Proof.
  induction l as [|x l IH]; simpl; [reflexivity|].
  rewrite sorted_insert_perm. now rewrite IH.
Qed.

Lemma sorted_insert_sorted (x : A) (l : list A) :
  StronglySorted (λ a b, le a b = true) l →
  StronglySorted (λ a b, le a b = true) (sorted_insert le x l).
Proof.
  induction l as [|y l IH]; intros Hs; simpl.
  - constructor; constructor.
  - apply StronglySorted_inv in Hs as [Hs Hy].
    destruct (le x y) eqn:E.
    + constructor; [constructor; assumption|].
      constructor; [assumption|].
      eapply Forall_impl; [exact Hy|]. simpl. intros z Hz. eapply le_trans; eassumption.
    + constructor; [now apply IH|].
      rewrite sorted_insert_perm. constructor; [now apply le_total|assumption].
Qed.

Lemma py_sorted_sorted (l : list A) :
  StronglySorted (λ a b, le a b = true) (py_sorted le l).
Proof.
  induction l as [|x l IH]; simpl; [constructor|]. now apply sorted_insert_sorted.
Qed.

(** Stability: the elements that share a key keep their relative order.
    [same a b] says that [a] and [b] have the same key. *)
Lemma sorted_insert_stable (same : A → A → bool) (k x : A) (l : list A) :
  (∀ a b, same k a = true → same k b = true → le a b = true) →
  filter (λ y, same k y = true) (sorted_insert le x l)
  = filter (λ y, same k y = true) (x :: l).
Proof.
  intros Hsame. induction l as [|y l IH]; simpl; [reflexivity|].
  destruct (le x y) eqn:E; [reflexivity|].
  rewrite !filter_cons in *.
  destruct (decide (same k y = true)) as [Hy|Hy];
    destruct (decide (same k x = true)) as [Hx|Hx].
  - rewrite (Hsame x y Hx Hy) in E. discriminate.
  - now rewrite IH.
  - exact IH.
  - exact IH.
Qed.

Lemma py_sorted_stable (same : A → A → bool) (k : A) (l : list A) :
  (∀ a b, same k a = true → same k b = true → le a b = true) →
  filter (λ y, same k y = true) (py_sorted le l) = filter (λ y, same k y = true) l.
Proof.
  intros Hsame. induction l as [|x l IH]; simpl; [reflexivity|].
  rewrite sorted_insert_stable by assumption.
  rewrite !filter_cons. now rewrite IH.
Qed.
End PySortedFacts.

(** ** [AttestationRequestMapper.sorted] *)

Section AttestationRequestFacts.
Import AttestationRequestMapper.

(** The order [(block ascending, log_index ascending)]. *)
Definition request_before (a b : AttestationRequest.t) : Prop :=
  AttestationRequest.block a < AttestationRequest.block b ∨
  (AttestationRequest.block a = AttestationRequest.block b ∧
   AttestationRequest.log_index a <= AttestationRequest.log_index b).

Definition same_key (a b : AttestationRequest.t) : bool :=
  (AttestationRequest.block a =? AttestationRequest.block b)
  && (AttestationRequest.log_index a =? AttestationRequest.log_index b).

(** Following the words of the spec: the requests of [l] of which no
    earlier request (of [before] or of [l]) has the same [data]. *)
Fixpoint first_occurrences (before l : list AttestationRequest.t)
    : list AttestationRequest.t :=
  match l with
  | [] => []
  | ar :: rest =>
      if bool_decide (AttestationRequest.data ar ∈ (AttestationRequest.data <$> before))
      then first_occurrences (before ++ [ar]) rest
      else ar :: first_occurrences (before ++ [ar]) rest
  end.

Lemma key_le_spec a b : key_le a b = true ↔ request_before a b.
Proof. unfold key_le, request_before. lia. Qed.

Lemma key_le_total a b : key_le a b = false → key_le b a = true.
Proof. unfold key_le. lia. Qed.

Lemma key_le_trans a b c : key_le a b = true → key_le b c = true → key_le a c = true.
Proof. unfold key_le. lia. Qed.

Lemma dedup_loop_first_occurrences l : ∀ ret seen before,
  (∀ d, d ∈ seen ↔ d ∈ (AttestationRequest.data <$> before)) →
  dedup_loop l ret seen = ret ++ first_occurrences before l.
Proof.
  induction l as [|ar l IH]; intros ret seen before Hseen; simpl.
  - now rewrite app_nil_r.
  - destruct (decide (AttestationRequest.data ar ∈ seen)) as [Hin|Hnin].
    + rewrite !bool_decide_eq_true_2; [|now apply Hseen|assumption].
      apply IH. intros d. rewrite fmap_app, elem_of_app, <- Hseen. simpl.
      rewrite list_elem_of_singleton. split; [auto|]. intros [?| ->]; assumption.
    + rewrite !bool_decide_eq_false_2; [|now rewrite <- Hseen|assumption].
      rewrite (IH (ret ++ [ar]) ({[AttestationRequest.data ar]} ∪ seen) (before ++ [ar])).
      * now rewrite <- app_assoc.
      * intros d. rewrite fmap_app, elem_of_app, elem_of_union, elem_of_singleton, <- Hseen.
        simpl. rewrite list_elem_of_singleton. tauto.
Qed.

(** C7: [sorted()] is the reverse of the list obtained by ordering the
    requests by [(block, log_index)] ascending (a permutation of the
    requests, ordered, in which requests of equal key keep their order of
    arrival) and keeping of it the first occurrence of every [data]. *)
Theorem sorted_is_reversed_first_occurrences (agg : AttestationRequestMapper.t) :
  let ordered := py_sorted key_le agg in
  sorted agg = rev (first_occurrences [] ordered) ∧
  ordered ≡ₚ agg ∧
  StronglySorted request_before ordered ∧
  ∀ k, filter (λ y, same_key k y = true) ordered = filter (λ y, same_key k y = true) agg.
Proof.
  simpl. split; [|split; [|split]].
  - unfold sorted. f_equal.
    rewrite (dedup_loop_first_occurrences _ [] ∅ []); [reflexivity|].
    intros d. simpl. rewrite elem_of_nil. set_solver.
  - apply py_sorted_perm.
  - pose proof (py_sorted_sorted key_le key_le_total key_le_trans agg) as Hs.
    induction Hs as [|a l Hs IH Ha]; constructor; [assumption|].
    eapply Forall_impl; [exact Ha|]. intros b. apply key_le_spec.
  - intros k. apply py_sorted_stable. unfold same_key, key_le. intros a b. lia.
Qed.
End AttestationRequestFacts.

(** ** The FTSO validator *)

Section FtsoValidatorFacts.
Variable vef : VotingEpochFactory.
Variable ext : Collaborators.t.

(** The three selections of [validate_ftso] for the monitored identity. *)
Definition ftso_submit_1 (round : VotingRound.t) (entity : Entity.t)
    : option (WParsedPayload.t FtsoSubmit1.t) :=
  WParsedPayloadList.extract_latest
    (ParsedPayloadMapper.lookup (Entity.identity_address entity)
       (VotingRoundProtocol.submit_1 (VotingRound.ftso round)))
    {| start := VotingEpoch.start_s vef (VotingRound.voting_epoch round);
       stop := VotingEpoch.end_s vef (VotingRound.voting_epoch round) |}.

Definition ftso_submit_2 (round : VotingRound.t) (entity : Entity.t)
    : option (WParsedPayload.t FtsoSubmit2.t) :=
  WParsedPayloadList.extract_latest
    (ParsedPayloadMapper.lookup (Entity.identity_address entity)
       (VotingRoundProtocol.submit_2 (VotingRound.ftso round)))
    {| start := VotingEpoch.start_s vef (VotingEpoch.next (VotingRound.voting_epoch round));
       stop := VotingEpoch.reveal_deadline vef
                 (VotingEpoch.next (VotingRound.voting_epoch round)) |}.

Definition ftso_submit_sig (round : VotingRound.t) (entity : Entity.t)
    : option (WParsedPayload.t SubmitSignatures.t) :=
  WParsedPayloadList.extract_latest
    (ParsedPayloadMapper.lookup (Entity.identity_address entity)
       (VotingRoundProtocol.submit_signatures (VotingRound.ftso round)))
    {| start := VotingEpoch.reveal_deadline vef
                  (VotingEpoch.next (VotingRound.voting_epoch round));
       stop := sig_grace vef (VotingRound.voting_epoch round)
                 (VotingRoundProtocol.finalization (VotingRound.ftso round)) |}.

Definition ftso_issue (round : VotingRound.t) (config : Configuration.t)
    (level : MessageLevel) (text : string) : Message.t :=
  Message.mk (Some (Configuration.chain_id config)) (Some (VotingRound.voting_epoch round))
             (Some 100) level text.

Definition reveal_offence (round : VotingRound.t) (config : Configuration.t) : Message.t :=
  ftso_issue round config CRITICAL "no submit2 transaction, causing reveal offence".

Definition no_submit1 (round : VotingRound.t) (config : Configuration.t) : Message.t :=
  ftso_issue round config INFO "no submit1 transaction".

(** The signature recovery of [validate_ftso] raised [e]. *)
Definition ftso_recovery_raised (round : VotingRound.t) (entity : Entity.t) (e : PyExc)
    : Prop :=
  ∃ f sg,
    VotingRoundProtocol.finalization (VotingRound.ftso round) = Some f ∧
    ftso_submit_sig round entity = Some sg ∧
    Collaborators.recover_address ext
      (SubmitSignatures.signature (ParsedPayload.payload (WParsedPayload.parsed_payload sg)))
      (Collaborators.to_message ext f) = Raise e.

Lemma check_signature_cases mb entity finalization submit_sig issues :
  match check_signature ext mb entity finalization submit_sig issues with
  | Ok issues' =>
      issues' = issues ∨
      issues' = issues ++ [Message.build mb ERROR
                             "submit signatures signature doesn't match finalization"]
  | Raise e =>
      ∃ f sg, finalization = Some f ∧ submit_sig = Some sg ∧
              Collaborators.recover_address ext
                (SubmitSignatures.signature
                   (ParsedPayload.payload (WParsedPayload.parsed_payload sg)))
                (Collaborators.to_message ext f) = Raise e
  end.
Proof.
  unfold check_signature.
  destruct finalization as [f|], submit_sig as [sg|]; simpl; auto.
  destruct (Collaborators.recover_address ext _ _) as [addr|e] eqn:E; simpl.
  - destruct (negb _); auto.
  - eauto.
Qed.

Ltac case_conditions :=
  repeat match goal with
         | H : context [if ?b then _ else _] |- _ => destruct b
         | |- context [if ?b then _ else _] => destruct b
         end.

Ltac issue_in := apply list_elem_of_In; simpl; tauto.

Ltac issue_not_in :=
  let Hin := fresh "Hin" in
  intros Hin; apply list_elem_of_In in Hin; simpl in Hin;
  repeat (destruct Hin as [Hin|Hin]; [discriminate Hin|]); exact Hin.

(** The mapper [m] holds, under the address [a], a payload whose
    transaction has its timestamp in [lo, hi). *)
Definition stored_in_window {T} (m : ParsedPayloadMapper.t T) (a : string) (lo hi : Z)
    : Prop :=
  ∃ agg w, m !! a = Some agg ∧ w ∈ agg ∧
           lo <= WTxData.timestamp (WParsedPayload.wtx_data w) < hi.

(** A [submit_1] of the identity is stored in the round with its timestamp
    in [e.start_s, e.end_s). *)
Definition submit_1_stored (round : VotingRound.t) (entity : Entity.t) : Prop :=
  stored_in_window (VotingRoundProtocol.submit_1 (VotingRound.ftso round))
    (Entity.identity_address entity)
    (VotingEpoch.start_s vef (VotingRound.voting_epoch round))
    (VotingEpoch.end_s vef (VotingRound.voting_epoch round)).

(** A [submit_2] of the identity is stored in the round with its timestamp
    in [e.next.start_s, e.next.reveal_deadline()). *)
Definition submit_2_stored (round : VotingRound.t) (entity : Entity.t) : Prop :=
  stored_in_window (VotingRoundProtocol.submit_2 (VotingRound.ftso round))
    (Entity.identity_address entity)
    (VotingEpoch.start_s vef (VotingEpoch.next (VotingRound.voting_epoch round)))
    (VotingEpoch.reveal_deadline vef (VotingEpoch.next (VotingRound.voting_epoch round))).

Lemma selection_none_iff {T} (m : ParsedPayloadMapper.t T) (a : string) (lo hi : Z) :
  WParsedPayloadList.extract_latest (ParsedPayloadMapper.lookup a m)
    {| start := lo; stop := hi |} = None
  ↔ ¬ stored_in_window m a lo hi.
Proof.
  unfold stored_in_window, ParsedPayloadMapper.lookup.
  destruct (m !! a) as [agg|]; simpl.
  - pose proof (extract_latest_fold {| start := lo; stop := hi |} agg [] None
                  (λ y Hy, match Hy with end)) as H.
    simpl in H. unfold WParsedPayloadList.extract_latest.
    destruct (fold_left _ _ None) as [x|]; unfold latest_of, in_range, ts_of in H;
      simpl in H.
    + destruct H as (Hin & Hr & _). split; [discriminate|]. intros Hno. exfalso.
      apply Hno. exists agg, x.
      split; [reflexivity|]. split; [now apply list_elem_of_In|lia].
    + split; [intros _|reflexivity]. intros (agg' & w & E & Hin & Hw).
      injection E as <-. apply list_elem_of_In in Hin. specialize (H w Hin). lia.
  - split; [|reflexivity]. intros _ (agg & w & E & _). discriminate E.
Qed.

Lemma validate_ftso_missing_selection (round : VotingRound.t) (entity : Entity.t)
    (config : Configuration.t) :
  ftso_submit_1 round entity = None ∨ ftso_submit_2 round entity = None →
  match validate_ftso vef ext round entity config with
  | Ok issues =>
      (ftso_submit_1 round entity ≠ None → reveal_offence round config ∈ issues) ∧
      (ftso_submit_1 round entity = None →
       no_submit1 round config ∈ issues ∧ reveal_offence round config ∉ issues)
  | Raise e => ftso_recovery_raised round entity e
  end.
Proof.
  intros Hcase. unfold validate_ftso.
  fold (ftso_submit_1 round entity) (ftso_submit_2 round entity)
       (ftso_submit_sig round entity).
  destruct (ftso_submit_1 round entity) as [s1v|] eqn:E1;
    destruct (ftso_submit_2 round entity) as [s2v|] eqn:E2;
    [destruct Hcase; discriminate| | |]; simpl;
    match goal with
    | |- context [check_signature ?e ?mb ?en ?f ?s ?i] =>
        pose proof (check_signature_cases mb en f s i) as Hc;
        destruct (check_signature e mb en f s i) as [issues|e']
    end;
    try exact Hc.
  - split; [intros _|discriminate].
    unfold reveal_offence, ftso_issue.
    destruct Hc as [-> | ->]; case_conditions; issue_in.
  - split; [congruence|intros _].
    unfold reveal_offence, no_submit1, ftso_issue.
    destruct Hc as [-> | ->]; case_conditions; (split; [issue_in|issue_not_in]).
  - split; [congruence|intros _].
    unfold reveal_offence, no_submit1, ftso_issue.
    destruct Hc as [-> | ->]; case_conditions; (split; [issue_in|issue_not_in]).
Qed.

(** C8: when the round stores, for the monitored identity, no [submit_1]
    with a timestamp in [e.start_s, e.end_s) or no [submit_2] with a
    timestamp in [e.next.start_s, e.next.reveal_deadline()),
    [validate_ftso] can only raise from the signature recovery; the issues
    it returns contain the CRITICAL
    [no submit2 transaction, causing reveal offence] when such a [submit_1]
    is stored (and no such [submit_2]), and contain the INFO
    [no submit1 transaction] and not that CRITICAL when no such [submit_1]
    is stored. *)
Theorem validate_ftso_reveal_offence (round : VotingRound.t) (entity : Entity.t)
    (config : Configuration.t) :
  ¬ submit_1_stored round entity ∨ ¬ submit_2_stored round entity →
  match validate_ftso vef ext round entity config with
  | Ok issues =>
      (submit_1_stored round entity → reveal_offence round config ∈ issues) ∧
      (¬ submit_1_stored round entity →
       no_submit1 round config ∈ issues ∧ reveal_offence round config ∉ issues)
  | Raise e => ftso_recovery_raised round entity e
  end.
Proof.
  intros Hcase.
  assert (H1 : ftso_submit_1 round entity = None ↔ ¬ submit_1_stored round entity)
    by apply selection_none_iff.
  assert (H2 : ftso_submit_2 round entity = None ↔ ¬ submit_2_stored round entity)
    by apply selection_none_iff.
  pose proof (validate_ftso_missing_selection round entity config) as H.
  destruct (validate_ftso vef ext round entity config) as [issues|e].
  - destruct H as [Hs Hn]; [tauto|]. split.
    + intros Hst. apply Hs. intros Hnone. apply H1 in Hnone. exact (Hnone Hst).
    + intros Hno. apply Hn, H1, Hno.
  - apply H. tauto.
Qed.
End FtsoValidatorFacts.

(** ** The FDC validator *)

Section FdcValidatorFacts.
Variable vef : VotingEpochFactory.
Variable ext : Collaborators.t.

(** C10: on a round whose [consensus_bitvote] tally is empty,
    [validate_fdc] raises [IndexError] (the first element of the empty
    sorted list of tallies) and returns no issue, whatever the submissions
    of the monitored identity. *)
Theorem validate_fdc_empty_tally_raises (round : VotingRound.t) (entity : Entity.t)
    (config : Configuration.t) :
  FdcVotingRoundProtocol.consensus_bitvote (VotingRound.fdc round) = OrderedDict.empty →
  validate_fdc vef ext round entity config = Raise IndexError.
Proof.
  intros Hempty. unfold validate_fdc. rewrite Hempty. reflexivity.
Qed.
End FdcValidatorFacts.

(** ** The transaction dispatch of the loop *)

Section TransactionFacts.
Variable ext : Collaborators.t.
Variable config : Configuration.t.

(** The parser that the dispatch calls for [mode] raises on [input]. *)
Definition parser_raises (mode : Mode) (input : string) : Prop :=
  match mode with
  | ModeSubmit1 => ∃ e, Collaborators.parse_submit1_tx ext input = Raise e
  | ModeSubmit2 => ∃ e, Collaborators.parse_submit2_tx ext input = Raise e
  | ModeSubmitSignatures => ∃ e, Collaborators.parse_submit_signature_tx ext input = Raise e
  end.

Lemma try_except_pass_ok (body : obs unit) (st : ObserverState.t) :
  fst (try_except_pass body st) = Ok tt.
Proof. reflexivity. Qed.

Lemma process_tx_ok (block_data : BlockData.t) (tx : TxData.t) (st : ObserverState.t) :
  fst (process_tx ext config block_data tx st) = Ok tt.
Proof.
  unfold process_tx. simpl. unfold mbind, obs_bind, obs_get. simpl.
  destruct (EntityMapper.by_omni _ !! TxData.from tx) as [entity|]; [|reflexivity].
  destruct (target_function_signatures config !! _) as [[| |]|]; reflexivity.
Qed.

Lemma obs_for_ok {A} (body : A → obs unit) (l : list A) :
  (∀ x st, fst (body x st) = Ok tt) → ∀ st, fst (obs_for l body st) = Ok tt.
Proof.
  intros Hbody. induction l as [|x l IH]; intros st; simpl; [reflexivity|].
  unfold mbind, obs_bind. specialize (Hbody x st).
  destruct (body x st) as [[[]|e] st']; simpl in Hbody; [apply IH|discriminate].
Qed.

Lemma process_tx_dispatched (block_data : BlockData.t) (tx : TxData.t)
    (st : ObserverState.t) (entity : Entity.t) (mode : Mode) :
  EntityMapper.by_omni (SigningPolicy.entity_mapper (ObserverState.signing_policy st))
    !! TxData.from tx = Some entity →
  target_function_signatures config !! hex (take 4 (TxData.input tx)) = Some mode →
  ∃ st',
    process_tx ext config block_data tx st = (Ok tt, st') ∧
    ObserverState.parse_calls st'
    = ObserverState.parse_calls st ++ [(mode, hex (drop 4 (TxData.input tx)))] ∧
    (parser_raises mode (hex (drop 4 (TxData.input tx))) →
     st' = ObserverState.record_parse mode (hex (drop 4 (TxData.input tx))) st).
Proof.
  intros Hentity Hmode. unfold process_tx. simpl.
  unfold mbind at 1, obs_bind at 1, obs_get. simpl. rewrite Hentity, Hmode.
  destruct mode; (eexists; split; [reflexivity|]); simpl;
    unfold submit1_body, submit2_body, submit_signatures_body,
           mbind, obs_bind, obs_modify, obs_lift, mret, obs_ret; simpl.
  - destruct (Collaborators.parse_submit1_tx ext _) as [[[f|] [g|]]|e]; simpl;
      (split; [reflexivity|]); intros [e' He']; congruence.
  - destruct (Collaborators.parse_submit2_tx ext _) as [[[f|] [g|]]|e]; simpl;
      (split; [reflexivity|]); intros [e' He']; congruence.
  - destruct (Collaborators.parse_submit_signature_tx ext _) as [[[f|] [g|]]|e]; simpl;
      (split; [reflexivity|]); intros [e' He']; congruence.
Qed.

(** C9: a transaction whose sender is not in [by_omni] leaves the state as
    it is, the list of parser calls included.  A transaction whose sender
    resolves and whose selector is watched calls the parser of its mode
    once, never lets an exception escape, and when the parser raises leaves
    nothing but the record of that call.  In every case the loop goes on
    with the next transaction from the state this one left. *)
Theorem process_tx_swallows_decode_failures (block_data : BlockData.t)
    (tx : TxData.t) (txs : list TxData.t) (st : ObserverState.t) :
  let input := hex (drop 4 (TxData.input tx)) in
  match EntityMapper.by_omni (SigningPolicy.entity_mapper (ObserverState.signing_policy st))
          !! TxData.from tx with
  | None => process_tx ext config block_data tx st = (Ok tt, st)
  | Some entity =>
      match target_function_signatures config !! hex (take 4 (TxData.input tx)) with
      | None => process_tx ext config block_data tx st = (Ok tt, st)
      | Some mode =>
          ∃ st',
            process_tx ext config block_data tx st = (Ok tt, st') ∧
            ObserverState.parse_calls st'
            = ObserverState.parse_calls st ++ [(mode, input)] ∧
            (parser_raises mode input → st' = ObserverState.record_parse mode input st)
      end
  end ∧
  obs_for (tx :: txs) (process_tx ext config block_data) st
  = obs_for txs (process_tx ext config block_data)
      (snd (process_tx ext config block_data tx st)) ∧
  fst (obs_for (tx :: txs) (process_tx ext config block_data) st) = Ok tt.
Proof.
  simpl. split; [|split].
  - destruct (EntityMapper.by_omni _ !! TxData.from tx) as [entity|] eqn:Hentity.
    + destruct (target_function_signatures config !! _) as [mode|] eqn:Hmode.
      * now apply (process_tx_dispatched block_data tx st entity mode).
      * unfold process_tx. simpl. unfold mbind, obs_bind, obs_get. simpl.
        now rewrite Hentity, Hmode.
    + unfold process_tx. simpl. unfold mbind, obs_bind, obs_get. simpl.
      now rewrite Hentity.
  - pose proof (process_tx_ok block_data tx st) as Hok.
    unfold mbind, obs_bind.
    destruct (process_tx ext config block_data tx st) as [[[]|e] st']; simpl in *;
      [reflexivity|discriminate].
  - exact (obs_for_ok (process_tx ext config block_data) (tx :: txs)
             (λ x st0, process_tx_ok block_data x st0) st).
Qed.
End TransactionFacts.

(** ** The policy rollover of the loop *)

Section RolloverFacts.
Variable vef : VotingEpochFactory.
Variable ext : Collaborators.t.
Variable config : Configuration.t.

Lemma py_eq_int_epoch (i : Z) (v : VotingEpoch.t) :
  py_eq (PyInt i) (PyVotingEpoch v) = false.
Proof. reflexivity. Qed.

(** The test of the rollover compares [start_voting_round_id], an [int],
    with [voting_epoch], a [VotingEpoch]: it is never true, and the step
    changes nothing. *)
Lemma rollover_unchanged (voting_epoch : VotingEpoch.t) (st : ObserverState.t) :
  rollover voting_epoch st = (Ok tt, st).
Proof.
  unfold rollover, mbind, obs_bind, obs_get. simpl.
  destruct (SigningPolicyBuilder.signing_policy_initialized (ObserverState.spb st));
    reflexivity.
Qed.
End RolloverFacts.

(** * Concrete runs *)

Definition vef_sample : VotingEpochFactory :=
  {| first_voting_round_start_ts := 1658430000;
     voting_epoch_duration_seconds := 90;
     ftso_reveal_deadline_seconds := 45 |}.

(** Collaborators that reject every input. *)
Definition ext_sample : Collaborators.t :=
  Collaborators.mk
    (λ _, Raise (ExternalError "parse_submit1_tx"))
    (λ _, Raise (ExternalError "parse_submit2_tx"))
    (λ _, Raise (ExternalError "parse_submit_signature_tx"))
    (λ _, Raise (ExternalError "parse_generic_tx"))
    (λ _, Raise (ExternalError "uint16"))
    (λ _, Raise (ExternalError "uint256"))
    (λ _ _ _ _, Raise (ExternalError "commit_hash"))
    (λ _ _, Raise (ExternalError "recover"))
    (λ _, []).

Definition config_sample : Configuration.t :=
  Configuration.mk 14 "0xId" "6c532fae" "9d00c9fd" "57eed580".

(** The checksum form of the identity of [config_sample]. *)
Definition tia_sample : string := "0xId".

Definition entity_sample : Entity.t :=
  Entity.mk "0xId" "0xSubmit" "0xSigs" "0xPolicy" "0xDeleg" "pk" [] 0 0 0 0 1.

(** *** The round manager *)

(** [VotingRoundManager(10)] after [get] of the epoch 5. *)
Definition manager_after_late_get : VotingRoundManager.t :=
  VotingRoundManager.update (VotingEpoch.mk 5) (λ r, r) (VotingRoundManager.init 10).

Lemma manager_after_late_get_reachable : reachable vef_sample 10 manager_after_late_get.
Proof.
  apply (reachable_call vef_sample 10
           (CallGet (VotingEpoch.mk 5) (λ p, p) (λ p, p))
           (VotingRoundManager.init 10) []).
  - apply reachable_init.
  - reflexivity.
Qed.

(** C2, as stated, fails: after [get] of an epoch at or below [finalized]
    the manager holds a key that is not above the counter. *)
Lemma get_below_finalized_counterexample :
  reachable vef_sample 10 manager_after_late_get ∧
  ¬ rounds_above_finalized manager_after_late_get.
Proof.
  split; [apply manager_after_late_get_reachable|].
  intros Hinv. specialize (Hinv (VotingEpoch.mk 5)).
  assert (Hin : VotingEpoch.mk 5
                ∈ OrderedDict.keys (VotingRoundManager.rounds manager_after_late_get)).
  { apply list_elem_of_In. simpl. auto. }
  specialize (Hinv Hin). simpl in Hinv. lia.
Qed.

Lemma rounds_above_finalized_after_finalize_witness :
  ∃ out m',
    VotingRoundManager.finalize vef_sample (BlockData.mk 1 1658431000 [])
      manager_after_late_get = Ok (out, m') ∧
    rounds_above_finalized m'.
Proof.
  refine (proj1 (rounds_above_finalized_after_finalize vef_sample 10
                   manager_after_late_get _ _) (BlockData.mk 1 1658431000 [])).
  - simpl. lia.
  - apply (reachable_call vef_sample 10
             (CallGet (VotingEpoch.mk 5) (λ p, p) (λ p, p))
             (VotingRoundManager.init 10) []).
    + apply reachable_init.
    + reflexivity.
Defined.

(** The next [finalize] drops the late round without returning it. *)
Example finalize_drops_late_round :
  VotingRoundManager.finalize vef_sample (BlockData.mk 1 1658431000 [])
    manager_after_late_get
  = Ok ([], VotingRoundManager.init 10).
Proof. reflexivity. Qed.

(** *** The signing-policy builder *)

Definition registered_sample : list VoterRegistered.t :=
  [VoterRegistered.mk 2 "0xIdA" "0xPolicyA" "0xSubmitA" "0xSigsA" "pkA" 70;
   VoterRegistered.mk 2 "0xIdB" "0xPolicyB" "0xSubmitB" "0xSigsB" "pkB" 30].

Definition registration_info_sample : list VoterRegistrationInfo.t :=
  [VoterRegistrationInfo.mk 2 "0xIdA" "0xDelegA" 2000 500 400 ["node1"] [9];
   VoterRegistrationInfo.mk 2 "0xIdB" "0xDelegB" 1000 300 300 [] []].

Definition initialized_sample : SigningPolicyInitialized.t :=
  SigningPolicyInitialized.mk 2 7 32768 99 ["0xPolicyB"; "0xPolicyA"] [20000; 45535] [].

Definition builder_sample : SigningPolicyBuilder.t :=
  SigningPolicyBuilder.mk (Some (RewardEpoch.mk 2))
    (Some (RandomAcquisitionStarted.mk 2))
    (Some (VotePowerBlockSelected.mk 2 123456))
    registered_sample registration_info_sample []
    (Some initialized_sample).

Lemma build_entities_follow_voters_witness :
  ∃ sp,
    SigningPolicyBuilder.build builder_sample = Ok sp ∧
    length (SigningPolicy.entities sp) = 2%nat ∧
    ∀ i voter, SigningPolicyInitialized.voters initialized_sample !! i = Some voter →
      ∃ e w a,
        SigningPolicy.entities sp !! i = Some e ∧
        SigningPolicyInitialized.weights initialized_sample !! i = Some w ∧
        Entity.normalized_weight e = w ∧
        SigningPolicyBuilder.spa_index registered_sample !! voter = Some a ∧
        Entity.identity_address e = a ∧
        resolved (SigningPolicyBuilder.spa_index registered_sample)
                 (SigningPolicyBuilder.vres_index registered_sample)
                 (SigningPolicyBuilder.vries_index registration_info_sample)
                 (SigningPolicyInitialized.weights initialized_sample) i voter e.
Proof.
  apply (build_entities_follow_voters builder_sample (RewardEpoch.mk 2)
           (RandomAcquisitionStarted.mk 2) (VotePowerBlockSelected.mk 2 123456)
           initialized_sample); try reflexivity.
  intros [|[|i]] voter Hi; simpl in Hi; try discriminate Hi;
    injection Hi as <-; (split; [eexists; reflexivity|]).
  - exists "0xIdB"%string. split; [reflexivity|]. eexists. vm_compute. reflexivity.
  - exists "0xIdA"%string. split; [reflexivity|]. eexists. vm_compute. reflexivity.
Defined.

Example build_sample_entities :
  (SigningPolicy.entities <$>
     match SigningPolicyBuilder.build builder_sample with
     | Ok sp => Some sp
     | Raise _ => None
     end)
  = Some [Entity.mk "0xIdB" "0xSubmitB" "0xSigsB" "0xPolicyB" "0xDelegB" "pkB" []
            1000 300 300 30 20000;
          Entity.mk "0xIdA" "0xSubmitA" "0xSigsA" "0xPolicyA" "0xDelegA" "pkA"
            [Node.mk "node1" 9] 2000 500 400 70 45535].
Proof. vm_compute. reflexivity. Qed.

(** *** The bitvote inflation *)

Lemma inflate_bitvote_inverts_packing_witness :
  (inflate_bitvote 3 [x05] = Raise invalid_payload_length
   ↔ set_bit_beyond 3 0 (rev [x05])) ∧
  (¬ set_bit_beyond 3 0 (rev [x05]) →
   inflate_bitvote 3 [x05] = Ok (inflated 3 [x05])) ∧
  length (inflated 3 [x05]) = Z.to_nat 3 ∧
  (∀ bits, Z.of_nat (length bits) = 3 → inflate_bitvote 3 (pack_bitvote bits) = Ok bits).
Proof.
  apply (inflate_bitvote_inverts_packing 3 [x05]). lia.
Defined.

(** The payload [0b101] over three requests, and [0b1101], whose bit 3 has
    no request. *)
Example inflate_three_requests :
  inflate_bitvote 3 [x05] = Ok [true; false; true] ∧
  inflate_bitvote 3 [x0d] = Raise (ValueError "Invalid payload length.") ∧
  inflate_bitvote 10 [x02; x01] = Ok [true; false; false; false; false;
                                      false; false; false; false; true] ∧
  pack_bitvote [true; false; false; false; false; false; false; false; false; true]
  = [x02; x01].
Proof. vm_compute. repeat split. Qed.

(** *** The validators *)

Definition wtx_sample (ts : Z) : WTxData.t :=
  WTxData.mk (TxData.mk [] None [] 1 0 "0xSubmit" 0) [] None [] 1 ts 0 "0xSubmit" 0.

(** The round of epoch 0 with one [submit1] of the identity, ten seconds
    into the epoch, and nothing else. *)
Definition round_submit1_only : VotingRound.t :=
  VotingRound.on_ftso
    (VotingRoundProtocol.insert_submit_1 entity_sample
       (ParsedPayload.mk 100 0 (FtsoSubmit1.mk [xaa]))
       (wtx_sample 1658430010))
    (VotingRound.init (VotingEpoch.mk 0)).

Lemma validate_ftso_reveal_offence_witness :
  match validate_ftso vef_sample ext_sample round_submit1_only entity_sample config_sample
  with
  | Ok issues =>
      (submit_1_stored vef_sample round_submit1_only entity_sample →
       reveal_offence round_submit1_only config_sample ∈ issues) ∧
      (¬ submit_1_stored vef_sample round_submit1_only entity_sample →
       no_submit1 round_submit1_only config_sample ∈ issues ∧
       reveal_offence round_submit1_only config_sample ∉ issues)
  | Raise e => ftso_recovery_raised vef_sample ext_sample round_submit1_only entity_sample e
  end.
Proof.
  apply (validate_ftso_reveal_offence vef_sample ext_sample round_submit1_only
           entity_sample config_sample).
  right. intros (agg & w & Hagg & _). vm_compute in Hagg. discriminate Hagg.
Defined.

(** The [submit1] of that round is stored in the window of epoch 0. *)
Example round_submit1_only_stored :
  submit_1_stored vef_sample round_submit1_only entity_sample.
Proof.
  exists [WParsedPayload.mk (ParsedPayload.mk 100 0 (FtsoSubmit1.mk [xaa]))
            (wtx_sample 1658430010)], 
         (WParsedPayload.mk (ParsedPayload.mk 100 0 (FtsoSubmit1.mk [xaa]))
            (wtx_sample 1658430010)).
  split; [vm_compute; reflexivity|]. split; [apply list_elem_of_here|].
  vm_compute. split; [discriminate|reflexivity].
Qed.

Example validate_ftso_submit1_only :
  validate_ftso vef_sample ext_sample round_submit1_only entity_sample config_sample
  = Ok [reveal_offence round_submit1_only config_sample;
        ftso_issue round_submit1_only config_sample ERROR
          "no submit signatures transaction"].
Proof. vm_compute. reflexivity. Qed.

Example validate_ftso_empty_round :
  validate_ftso vef_sample ext_sample (VotingRound.init (VotingEpoch.mk 0))
    entity_sample config_sample
  = Ok [no_submit1 (VotingRound.init (VotingEpoch.mk 0)) config_sample;
        ftso_issue (VotingRound.init (VotingEpoch.mk 0)) config_sample ERROR
          "no submit signatures transaction"].
Proof. vm_compute. reflexivity. Qed.

Lemma validate_fdc_empty_tally_raises_witness :
  validate_fdc vef_sample ext_sample (VotingRound.init (VotingEpoch.mk 0))
    entity_sample config_sample
  = Raise IndexError.
Proof.
  apply (validate_fdc_empty_tally_raises vef_sample ext_sample
           (VotingRound.init (VotingEpoch.mk 0)) entity_sample config_sample).
  reflexivity.
Defined.

(** *** The policy rollover *)

Definition policy_sample : SigningPolicy.t :=
  SigningPolicy.mk (RewardEpoch.mk 1) 100000 0 32768 98 []
    [entity_sample] (EntityMapper.insert entity_sample EntityMapper.empty).

(** The loop during reward epoch 1, after the events of the next policy
    were seen: that policy starts at voting round 7. *)
Definition state_before_start_round : ObserverState.t :=
  ObserverState.mk policy_sample builder_sample (VotingRoundManager.init 5) [] [].

(** A block of the first second of voting epoch 7, without logs or
    transactions. *)
Definition block_of_start_round : BlockData.t := BlockData.mk 4242 1658430630 [].

(** C1: at a block of the voting epoch whose id is the builder's
    [start_voting_round_id], with [signing_policy_initialized] set and
    [build()] returning the policy of the next reward epoch, the loop keeps
    the old policy and the old builder. *)
Theorem rollover_missed_at_start_round :
  VotingEpoch.id (VotingEpoch.from_timestamp vef_sample
                    (BlockData.timestamp block_of_start_round))
  = SigningPolicyInitialized.start_voting_round_id initialized_sample ∧
  SigningPolicyBuilder.signing_policy_initialized
    (ObserverState.spb state_before_start_round) = Some initialized_sample ∧
  (∃ sp, SigningPolicyBuilder.build (ObserverState.spb state_before_start_round) = Ok sp ∧
         SigningPolicy.reward_epoch sp = RewardEpoch.mk 2) ∧
  process_block vef_sample ext_sample config_sample tia_sample block_of_start_round []
    state_before_start_round
  = (Ok tt, state_before_start_round) ∧
  SigningPolicy.reward_epoch (ObserverState.signing_policy state_before_start_round)
  = RewardEpoch.mk 1.
Proof.
  split; [reflexivity|]. split; [reflexivity|]. split.
  - eexists. split; [vm_compute; reflexivity|reflexivity].
  - split; [|reflexivity].
    unfold process_block. unfold mbind at 1, obs_bind at 1.
    rewrite rollover_unchanged. reflexivity.
Qed.

(** * Further properties *)

(** ** [EntityMapper] *)

Section EntityMapperFacts.

(** The five addresses of an entity, in the order [insert] stores them. *)
Definition addresses (e : Entity.t) : list string :=
  [Entity.identity_address e; Entity.submit_address e;
   Entity.submit_signatures_address e; Entity.signing_policy_address e;
   Entity.delegation_address e].

(** The mapper after the insertion of the entities of [l], in order. *)
Definition mapper_of (m : EntityMapper.t) (l : list Entity.t) : EntityMapper.t :=
  foldl (λ m e, EntityMapper.insert e m) m l.

Lemma insert_by_omni_in (e : Entity.t) (m : EntityMapper.t) (a : string) :
  a ∈ addresses e → EntityMapper.by_omni (EntityMapper.insert e m) !! a = Some e.
Proof.
  unfold addresses. rewrite !elem_of_cons, elem_of_nil. intros Ha.
  simpl. rewrite !lookup_insert. repeat case_decide; try reflexivity.
  exfalso. intuition congruence.
Qed.

Lemma insert_by_omni_out (e : Entity.t) (m : EntityMapper.t) (a : string) :
  a ∉ addresses e →
  EntityMapper.by_omni (EntityMapper.insert e m) !! a = EntityMapper.by_omni m !! a.
Proof.
  unfold addresses. rewrite !elem_of_cons, elem_of_nil. intros Ha.
  simpl. rewrite !lookup_insert. repeat case_decide; try reflexivity;
    exfalso; apply Ha; subst; tauto.
Qed.

(** X1: right after [insert(e)] each role map answers [e] at the address
    of its role, [by_omni] answers [e] at every one of the five addresses
    of [e], and [by_omni] is unchanged at every other address. *)
Theorem entity_mapper_insert_lookup (e : Entity.t) (m : EntityMapper.t) :
  let m' := EntityMapper.insert e m in
  EntityMapper.by_identity_address m' !! Entity.identity_address e = Some e ∧
  EntityMapper.by_submit_address m' !! Entity.submit_address e = Some e ∧
  EntityMapper.by_submit_signatures_address m' !! Entity.submit_signatures_address e
    = Some e ∧
  EntityMapper.by_signing_policy_address m' !! Entity.signing_policy_address e = Some e ∧
  EntityMapper.by_delegation_address m' !! Entity.delegation_address e = Some e ∧
  (∀ a, a ∈ addresses e → EntityMapper.by_omni m' !! a = Some e) ∧
  (∀ a, a ∉ addresses e → EntityMapper.by_omni m' !! a = EntityMapper.by_omni m !! a).
Proof.
  simpl. rewrite !lookup_insert_eq. repeat (split; [reflexivity|]). split.
  - intros a. apply insert_by_omni_in.
  - intros a. apply insert_by_omni_out.
Qed.

Lemma mapper_of_later (a : string) (l : list Entity.t) : ∀ m,
  (∀ e, e ∈ l → a ∉ addresses e) →
  EntityMapper.by_omni (mapper_of m l) !! a = EntityMapper.by_omni m !! a.
Proof.
  induction l as [|x l IH]; intros m Hl; simpl; [reflexivity|].
  rewrite IH.
  - apply insert_by_omni_out, Hl, elem_of_cons. auto.
  - intros e He. apply Hl, elem_of_cons. auto.
Qed.

Lemma mapper_of_sound (a : string) (e : Entity.t) (l : list Entity.t) : ∀ m,
  EntityMapper.by_omni (mapper_of m l) !! a = Some e →
  (e ∈ l ∧ a ∈ addresses e) ∨ EntityMapper.by_omni m !! a = Some e.
Proof.
  induction l as [|x l IH]; intros m Hl; simpl in Hl; [auto|].
  destruct (IH _ Hl) as [[Hin Ha]|Hm].
  - left. split; [apply elem_of_cons; auto|assumption].
  - destruct (decide (a ∈ addresses x)) as [Hax|Hax].
    + rewrite insert_by_omni_in in Hm by assumption. injection Hm as <-.
      left. split; [apply elem_of_cons; auto|assumption].
    + rewrite insert_by_omni_out in Hm by assumption. auto.
Qed.

Lemma mapper_of_last (a : string) (e : Entity.t) (l1 l2 : list Entity.t) (m : EntityMapper.t) :
  a ∈ addresses e → (∀ e', e' ∈ l2 → a ∉ addresses e') →
  EntityMapper.by_omni (mapper_of m (l1 ++ e :: l2)) !! a = Some e.
Proof.
  intros Ha Hl2. unfold mapper_of. rewrite foldl_app. simpl.
  fold (mapper_of (EntityMapper.insert e (foldl (λ m e, EntityMapper.insert e m) m l1)) l2).
  rewrite mapper_of_later by assumption. now apply insert_by_omni_in.
Qed.

Lemma mapper_of_keeps (a : string) (l : list Entity.t) : ∀ m,
  is_Some (EntityMapper.by_omni m !! a) →
  is_Some (EntityMapper.by_omni (mapper_of m l) !! a).
Proof.
  induction l as [|x l IH]; intros m Hm; [assumption|].
  cbn [mapper_of foldl]. apply IH.
  destruct (decide (a ∈ addresses x)) as [Hax|Hax].
  - rewrite insert_by_omni_in by assumption. eauto.
  - now rewrite insert_by_omni_out by assumption.
Qed.

Lemma mapper_of_complete (a : string) (e : Entity.t) (l : list Entity.t) : ∀ m,
  e ∈ l → a ∈ addresses e → is_Some (EntityMapper.by_omni (mapper_of m l) !! a).
Proof.
  induction l as [|x l IH]; intros m He Ha; [now apply elem_of_nil in He|].
  cbn [mapper_of foldl]. apply elem_of_cons in He as [->|He].
  - apply mapper_of_keeps. rewrite insert_by_omni_in by assumption. eauto.
  - now apply IH.
Qed.

Lemma build_loop_mapper spa vres vries weights : ∀ voters i entities mapper entities' mapper',
  SigningPolicyBuilder.build_loop spa vres vries weights i voters entities mapper
    = Ok (entities', mapper') →
  ∃ es, entities' = entities ++ es ∧ mapper' = mapper_of mapper es.
Proof.
  induction voters as [|voter voters IH]; intros i entities mapper entities' mapper' Hb;
    simpl in Hb.
  - injection Hb as <- <-. exists []. now rewrite app_nil_r.
  - destruct (py_index weights i) as [w|]; simpl in Hb; [|discriminate].
    destruct (py_getitem spa voter) as [a|]; simpl in Hb; [|discriminate].
    destruct (py_getitem vres a) as [vre|]; simpl in Hb; [|discriminate].
    destruct (py_getitem vries a) as [vrie|]; simpl in Hb; [|discriminate].
    destruct (IH _ _ _ _ _ Hb) as (es & -> & ->).
    exists (SigningPolicyBuilder.make_entity vre vrie w :: es).
    now rewrite <- app_assoc.
Qed.

Lemma build_ok_inv (b : SigningPolicyBuilder.t) (sp : SigningPolicy.t) :
  SigningPolicyBuilder.build b = Ok sp →
  ∃ re ras vpbs spi es mapper,
    SigningPolicyBuilder.reward_epoch b = Some re ∧
    SigningPolicyBuilder.random_acquisation_started b = Some ras ∧
    RandomAcquisitionStarted.reward_epoch_id ras = RewardEpoch.id re ∧
    SigningPolicyBuilder.vote_power_block_selected b = Some vpbs ∧
    VotePowerBlockSelected.reward_epoch_id vpbs = RewardEpoch.id re ∧
    SigningPolicyBuilder.signing_policy_initialized b = Some spi ∧
    SigningPolicyInitialized.reward_epoch_id spi = RewardEpoch.id re ∧
    length (SigningPolicyBuilder.voter_registered b)
      = length (SigningPolicyBuilder.voter_registration_info b) ∧
    SigningPolicyBuilder.build_loop
      (SigningPolicyBuilder.spa_index (SigningPolicyBuilder.voter_registered b))
      (SigningPolicyBuilder.vres_index (SigningPolicyBuilder.voter_registered b))
      (SigningPolicyBuilder.vries_index (SigningPolicyBuilder.voter_registration_info b))
      (SigningPolicyInitialized.weights spi) 0
      (SigningPolicyInitialized.voters spi) [] EntityMapper.empty = Ok (es, mapper) ∧
    sp = SigningPolicy.mk re
           (VotePowerBlockSelected.vote_power_block vpbs)
           (SigningPolicyInitialized.start_voting_round_id spi)
           (SigningPolicyInitialized.threshold spi)
           (SigningPolicyInitialized.seed spi)
           (SigningPolicyInitialized.signing_policy_bytes spi)
           es mapper.
Proof.
  unfold SigningPolicyBuilder.build. intros Hb.
  destruct (SigningPolicyBuilder.reward_epoch b) as [re|]; simpl in Hb; [|discriminate].
  destruct (SigningPolicyBuilder.random_acquisation_started b) as [ras|];
    simpl in Hb; [|discriminate].
  destruct (Z.eqb_spec (RandomAcquisitionStarted.reward_epoch_id ras) (RewardEpoch.id re))
    as [Hras|]; simpl in Hb; [|discriminate].
  destruct (SigningPolicyBuilder.vote_power_block_selected b) as [vpbs|];
    simpl in Hb; [|discriminate].
  destruct (Z.eqb_spec (VotePowerBlockSelected.reward_epoch_id vpbs) (RewardEpoch.id re))
    as [Hvpbs|]; simpl in Hb; [|discriminate].
  destruct (SigningPolicyBuilder.signing_policy_initialized b) as [spi|];
    simpl in Hb; [|discriminate].
  destruct (Z.eqb_spec (SigningPolicyInitialized.reward_epoch_id spi) (RewardEpoch.id re))
    as [Hspi|]; simpl in Hb; [|discriminate].
  destruct (decide (length (SigningPolicyBuilder.voter_registered b)
                    = length (SigningPolicyBuilder.voter_registration_info b)))
    as [Hlen|Hlen].
  2: { rewrite bool_decide_eq_false_2 in Hb by assumption. discriminate. }
  rewrite bool_decide_eq_true_2 in Hb by assumption. simpl in Hb.
  destruct (SigningPolicyBuilder.build_loop _ _ _ _ _ _ _ _) as [[es mp]|] eqn:Hloop;
    simpl in Hb; [|discriminate].
  injection Hb as <-. exists re, ras, vpbs, spi, es, mp. repeat split; assumption.
Qed.

Lemma build_mapper (b : SigningPolicyBuilder.t) (sp : SigningPolicy.t) :
  SigningPolicyBuilder.build b = Ok sp →
  SigningPolicy.entity_mapper sp = mapper_of EntityMapper.empty (SigningPolicy.entities sp).
Proof.
  intros Hb.
  destruct (build_ok_inv b sp Hb) as (re & ras & vpbs & spi & es & mp & H).
  destruct H as (_ & _ & _ & _ & _ & _ & _ & _ & Hloop & ->). simpl.
  destruct (build_loop_mapper _ _ _ _ _ _ _ _ _ _ Hloop) as (es' & -> & ->).
  reflexivity.
Qed.

(** X2: in a policy that [build] returns, [by_omni] answers only entities
    of the policy at one of their own addresses, it answers at every
    address of every entity, and at an address it answers the last entity of
    [entities] that has this address. *)
Theorem build_by_omni_indexes_entities (b : SigningPolicyBuilder.t) (sp : SigningPolicy.t) :
  SigningPolicyBuilder.build b = Ok sp →
  let by_omni := EntityMapper.by_omni (SigningPolicy.entity_mapper sp) in
  (∀ a e, by_omni !! a = Some e → e ∈ SigningPolicy.entities sp ∧ a ∈ addresses e) ∧
  (∀ e a, e ∈ SigningPolicy.entities sp → a ∈ addresses e → is_Some (by_omni !! a)) ∧
  (∀ l1 e l2 a,
     SigningPolicy.entities sp = l1 ++ e :: l2 → a ∈ addresses e →
     (∀ e', e' ∈ l2 → a ∉ addresses e') → by_omni !! a = Some e).
Proof.
  intros Hb. simpl. rewrite (build_mapper b sp Hb).
  assert (Hlast : ∀ l1 e l2 a,
            SigningPolicy.entities sp = l1 ++ e :: l2 → a ∈ addresses e →
            (∀ e', e' ∈ l2 → a ∉ addresses e') →
            EntityMapper.by_omni (mapper_of EntityMapper.empty (SigningPolicy.entities sp))
              !! a = Some e).
  { intros l1 e l2 a -> Ha Hl2. now apply mapper_of_last. }
  split; [|split; [|exact Hlast]].
  - intros a e Ha. apply mapper_of_sound in Ha as [?|Hempty]; [assumption|].
    simpl in Hempty. now rewrite lookup_empty in Hempty.
  - intros e a He Ha. now apply mapper_of_complete with e.
Qed.
End EntityMapperFacts.

(** ** [SigningPolicyBuilder]: streams of events *)

Section BuilderStreamFacts.
Import SigningPolicyBuilder.

(** [add] over a stream of events, as the loop feeds them; an exception
    ends the stream. *)
Fixpoint add_all (events : list PolicyEvent) (b : SigningPolicyBuilder.t)
    : exc SigningPolicyBuilder.t :=
  match events with
  | [] => Ok b
  | e :: rest => b' ← add e b; add_all rest b'
  end.

Definition is_ras (e : PolicyEvent) : bool :=
  match e with EvRandomAcquisitionStarted _ => true | _ => false end.
Definition is_vpbs (e : PolicyEvent) : bool :=
  match e with EvVotePowerBlockSelected _ => true | _ => false end.
Definition is_spi (e : PolicyEvent) : bool :=
  match e with EvSigningPolicyInitialized _ => true | _ => false end.

(** The events of each list kind, in stream order. *)
Definition registered_of (events : list PolicyEvent) : list VoterRegistered.t :=
  omap (λ e, match e with EvVoterRegistered x => Some x | _ => None end) events.
Definition registration_info_of (events : list PolicyEvent)
    : list VoterRegistrationInfo.t :=
  omap (λ e, match e with EvVoterRegistrationInfo x => Some x | _ => None end) events.
Definition removed_of (events : list PolicyEvent) : list VoterRemoved.t :=
  omap (λ e, match e with EvVoterRemoved x => Some x | _ => None end) events.

(** A singleton slot accepts the stream: no event of its kind when it is
    set, at most one when it is empty. *)
Definition slot_accepts {A} (slot : option A) (kind : PolicyEvent → bool)
    (events : list PolicyEvent) : Prop :=
  match slot with
  | Some _ => length (filter (λ e, kind e = true) events) = 0%nat
  | None => (length (filter (λ e, kind e = true) events) <= 1)%nat
  end.

Lemma add_all_raises (events : list PolicyEvent) : ∀ b e,
  add_all events b = Raise e → e = AssertionError.
Proof.
  induction events as [|ev events IH]; intros b e; simpl; [discriminate|].
  destruct (add ev b) as [b'|e'] eqn:E; simpl; [apply IH|].
  intros [= <-]. destruct ev; simpl in E; try discriminate;
    match type of E with
    | context [bool_decide ?P] => destruct (bool_decide P); simpl in E
    end; congruence.
Qed.

(** X3: a stream of events is accepted by the builder exactly when each of
    the three singleton slots accepts it (no second
    [RandomAcquisitionStarted], [VotePowerBlockSelected] or
    [SigningPolicyInitialized]); a rejected stream raises
    [AssertionError]. *)
Theorem add_all_ok_iff (events : list PolicyEvent) (b : SigningPolicyBuilder.t) :
  ((∃ b', add_all events b = Ok b') ↔
   slot_accepts (random_acquisation_started b) is_ras events ∧
   slot_accepts (vote_power_block_selected b) is_vpbs events ∧
   slot_accepts (signing_policy_initialized b) is_spi events) ∧
  (∀ e, add_all events b = Raise e → e = AssertionError).
Proof.
  split; [|intros e; apply add_all_raises].
  revert b. induction events as [|ev events IH]; intros b.
  - simpl. split; [|eauto]. intros _.
    unfold slot_accepts.
    destruct (random_acquisation_started b), (vote_power_block_selected b),
             (signing_policy_initialized b); simpl; repeat split; lia.
  - cbn [add_all]. destruct b as [re ras vpbs vr vri vrm spi].
    destruct ev as [x|x|x|x|x|x]; simpl;
      unfold slot_accepts; rewrite ?filter_cons; simpl;
      repeat match goal with
             | |- context [decide (?a = ?b)] => destruct (decide (a = b)); try congruence
             end;
      try (rewrite IH; simpl; unfold slot_accepts; reflexivity).
    + destruct ras as [r|]; simpl.
      * split; [intros [? ?]; discriminate|]. intros (H & _). simpl in H. lia.
      * rewrite IH. simpl. unfold slot_accepts.
        destruct vpbs, spi; simpl; intuition lia.
    + destruct vpbs as [r|]; simpl.
      * split; [intros [? ?]; discriminate|]. intros (_ & H & _). simpl in H. lia.
      * rewrite IH. simpl. unfold slot_accepts.
        destruct ras, spi; simpl; intuition lia.
    + destruct spi as [r|]; simpl.
      * split; [intros [? ?]; discriminate|]. intros (_ & _ & H). simpl in H. lia.
      * rewrite IH. simpl. unfold slot_accepts.
        destruct ras, vpbs; simpl; intuition lia.
Qed.

(** X4: a stream that the builder accepts leaves the reward epoch as it
    was, never changes a singleton slot that was set, and appends the
    registrations, registration infos and removals in stream order to the
    three lists; a removal takes nothing off the registrations. *)
Theorem add_all_appends (events : list PolicyEvent) (b b' : SigningPolicyBuilder.t) :
  add_all events b = Ok b' →
  reward_epoch b' = reward_epoch b ∧
  (∀ x, random_acquisation_started b = Some x → random_acquisation_started b' = Some x) ∧
  (∀ x, vote_power_block_selected b = Some x → vote_power_block_selected b' = Some x) ∧
  (∀ x, signing_policy_initialized b = Some x → signing_policy_initialized b' = Some x) ∧
  voter_registered b' = voter_registered b ++ registered_of events ∧
  voter_registration_info b' = voter_registration_info b ++ registration_info_of events ∧
  voter_removed b' = voter_removed b ++ removed_of events.
Proof.
  revert b. induction events as [|ev events IH]; intros b; simpl.
  - intros [= <-]. rewrite !app_nil_r. auto 10.
  - destruct (add ev b) as [b1|] eqn:E; simpl; [|discriminate].
    intros Hrest. destruct (IH b1 Hrest) as (Hre & Hras & Hvpbs & Hspi & Hvr & Hvri & Hvrm).
    rewrite Hre, Hvr, Hvri, Hvrm. clear IH Hrest Hre Hvr Hvri Hvrm.
    destruct b as [re ras vpbs vr vri vrm spi].
    destruct ev as [x|x|x|x|x|x]; simpl in E;
      try (injection E as <-; simpl; rewrite <- ?app_assoc; auto 10; fail).
    + destruct ras; simpl in E; [discriminate|]. injection E as <-. simpl in *.
      split; [reflexivity|]. split; [discriminate|]. auto.
    + destruct vpbs; simpl in E; [discriminate|]. injection E as <-. simpl in *.
      split; [reflexivity|]. split; [assumption|]. split; [discriminate|]. auto.
    + destruct spi; simpl in E; [discriminate|]. injection E as <-. simpl in *.
      split; [reflexivity|]. split; [assumption|]. split; [assumption|].
      split; [discriminate|]. auto.
Qed.
End BuilderStreamFacts.

(** ** [SigningPolicyBuilder.build]: what a returned policy implies *)

Section BuildConverse.
Import SigningPolicyBuilder.

Lemma build_loop_ok_lookups spa vres vries weights :
  ∀ voters i entities mapper res,
    build_loop spa vres vries weights i voters entities mapper = Ok res →
    ∀ n voter, voters !! n = Some voter →
      is_Some (weights !! (i + n)%nat) ∧
      ∃ a, spa !! voter = Some a ∧ is_Some (vres !! a) ∧ is_Some (vries !! a).
Proof.
  induction voters as [|voter voters IH]; intros i entities mapper res Hb n v Hn;
    [discriminate|].
  simpl in Hb. unfold py_index, py_getitem in Hb.
  destruct (weights !! i) as [w|] eqn:Hw; simpl in Hb; [|discriminate].
  destruct (spa !! voter) as [a|] eqn:Ha; simpl in Hb; [|discriminate].
  destruct (vres !! a) as [vre|] eqn:Hvre; simpl in Hb; [|discriminate].
  destruct (vries !! a) as [vrie|] eqn:Hvrie; simpl in Hb; [|discriminate].
  destruct n as [|n]; simpl in Hn.
  - injection Hn as <-. rewrite Nat.add_0_r, Hw. split; [eauto|].
    exists a. rewrite Hvre, Hvrie. eauto.
  - replace (i + S n)%nat with (S i + n)%nat by lia. eapply IH; eassumption.
Qed.

(** X5: when [build] returns a policy, the builder held its reward epoch
    and the three singleton events with that epoch's id, as many
    registrations as registration infos, a weight for every voter, and an
    entry of both indexes for every voter; the policy carries the reward
    epoch, the vote power block and the start round, threshold, seed and
    bytes of the [SigningPolicyInitialized] event. *)
Theorem build_ok_requires (b : SigningPolicyBuilder.t) (sp : SigningPolicy.t) :
  build b = Ok sp →
  ∃ re ras vpbs spi,
    reward_epoch b = Some re ∧
    random_acquisation_started b = Some ras ∧
    RandomAcquisitionStarted.reward_epoch_id ras = RewardEpoch.id re ∧
    vote_power_block_selected b = Some vpbs ∧
    VotePowerBlockSelected.reward_epoch_id vpbs = RewardEpoch.id re ∧
    signing_policy_initialized b = Some spi ∧
    SigningPolicyInitialized.reward_epoch_id spi = RewardEpoch.id re ∧
    length (voter_registered b) = length (voter_registration_info b) ∧
    (length (SigningPolicyInitialized.voters spi)
     <= length (SigningPolicyInitialized.weights spi))%nat ∧
    (∀ voter, voter ∈ SigningPolicyInitialized.voters spi →
       ∃ a, spa_index (voter_registered b) !! voter = Some a ∧
            is_Some (vries_index (voter_registration_info b) !! a)) ∧
    SigningPolicy.reward_epoch sp = re ∧
    SigningPolicy.vote_power_block sp = VotePowerBlockSelected.vote_power_block vpbs ∧
    SigningPolicy.start_voting_round sp
      = SigningPolicyInitialized.start_voting_round_id spi ∧
    SigningPolicy.threshold sp = SigningPolicyInitialized.threshold spi ∧
    SigningPolicy.seed sp = SigningPolicyInitialized.seed spi ∧
    SigningPolicy.signing_policy_bytes sp
      = SigningPolicyInitialized.signing_policy_bytes spi.
Proof.
  intros Hb.
  destruct (build_ok_inv b sp Hb) as (re & ras & vpbs & spi & es & mp & H).
  destruct H as (H1 & H2 & H3 & H4 & H5 & H6 & H7 & H8 & Hloop & ->).
  exists re, ras, vpbs, spi. simpl.
  pose proof (build_loop_ok_lookups _ _ _ _ _ _ _ _ _ Hloop) as Hlk.
  repeat (split; [assumption || reflexivity|]).
  split; [|split; [|repeat split]].
  - destruct (SigningPolicyInitialized.voters spi) as [|v0 vs] eqn:Ev using rev_ind;
      [simpl; lia|].
    clear IHvs. rewrite length_app. simpl.
    destruct (Hlk (length vs) v0) as ([w Hw] & _).
    { rewrite lookup_app_r by lia. now rewrite Nat.sub_diag. }
    apply lookup_lt_Some in Hw. simpl in Hw. lia.
  - intros voter Hv. apply list_elem_of_lookup in Hv as [n Hn].
    destruct (Hlk n voter Hn) as (_ & a & Ha & _ & Hvries). eauto.
Qed.
End BuildConverse.

(** ** [get_signing_policy_events] *)

Section HistoricalScanFacts.
Import SigningPolicyBuilder.

Definition is_initialized_log (log : LogEvent) : bool :=
  match log with
  | LogPolicy (EvSigningPolicyInitialized _) => true
  | _ => false
  end.

Lemma add_raises (ev : PolicyEvent) (b : SigningPolicyBuilder.t) (e : PyExc) :
  add ev b = Raise e → e = AssertionError.
Proof. intros H. apply (add_all_raises [ev] b e). simpl. now rewrite H. Qed.

Lemma add_keeps_empty_slot (ev : PolicyEvent) (b b' : SigningPolicyBuilder.t) :
  is_spi ev = false → add ev b = Ok b' →
  signing_policy_initialized b = None → signing_policy_initialized b' = None.
Proof.
  intros Hev Hadd Hnone. destruct ev; try discriminate; simpl in Hadd;
    try (injection Hadd as <-; exact Hnone);
    match type of Hadd with
    | context [bool_decide ?P] => destruct (bool_decide P); simpl in Hadd
    end; try discriminate; injection Hadd as <-; exact Hnone.
Qed.

Lemma scan_without_initialized (logs : list LogEvent) : ∀ b,
  Forall (λ log, is_initialized_log log = false) logs →
  signing_policy_initialized b = None →
  match scan_policy_logs logs b with
  | Ok b' => signing_policy_initialized b' = None
  | Raise e => e = AssertionError
  end.
Proof.
  induction logs as [|log logs IH]; intros b Hlogs Hnone; simpl; [assumption|].
  apply Forall_cons in Hlogs as [Hlog Hlogs].
  destruct log as [? ? ? ?|? ? ? ? ?|ev|]; try (now apply IH).
  destruct (add ev b) as [b'|e] eqn:E; simpl; [|now apply add_raises in E].
  assert (Hev : is_spi ev = false) by (destruct ev; try reflexivity; discriminate).
  pose proof (add_keeps_empty_slot ev b b' Hev E Hnone) as Hnone'.
  destruct ev; try discriminate; now apply IH.
Qed.

Lemma scan_app_initialized (l1 l2 : list LogEvent) (x : SigningPolicyInitialized.t) : ∀ b,
  Forall (λ log, is_initialized_log log = false) l1 →
  scan_policy_logs (l1 ++ LogPolicy (EvSigningPolicyInitialized x) :: l2) b
  = scan_policy_logs (l1 ++ [LogPolicy (EvSigningPolicyInitialized x)]) b.
Proof.
  induction l1 as [|log l1 IH]; intros b Hl1; simpl.
  - now destruct (add (EvSigningPolicyInitialized x) b).
  - apply Forall_cons in Hl1 as [Hlog Hl1].
    destruct log as [? ? ? ?|? ? ? ? ?|ev|]; try (now apply IH).
    destruct (add ev b) as [b'|e]; simpl; [|reflexivity].
    destruct ev; try discriminate; now apply IH.
Qed.

Lemma build_without_initialized (b : SigningPolicyBuilder.t) :
  signing_policy_initialized b = None → build b = Raise AssertionError.
Proof.
  intros Hnone. unfold build.
  destruct (reward_epoch b); simpl; [|reflexivity].
  destruct (random_acquisation_started b); simpl; [|reflexivity].
  destruct (_ =? _); simpl; [|reflexivity].
  destruct (vote_power_block_selected b); simpl; [|reflexivity].
  destruct (_ =? _); simpl; [|reflexivity].
  now rewrite Hnone.
Qed.

(** X6: the historical scan does not read past the first
    [SigningPolicyInitialized] log: what follows it does not change the
    result; and over logs without a [SigningPolicyInitialized] the scan
    raises [AssertionError]. *)
Theorem scan_ends_at_initialized (reward_epoch : RewardEpoch.t)
    (l1 l2 : list LogEvent) (x : SigningPolicyInitialized.t) :
  Forall (λ log, is_initialized_log log = false) l1 →
  get_signing_policy_events reward_epoch
    (l1 ++ LogPolicy (EvSigningPolicyInitialized x) :: l2)
  = get_signing_policy_events reward_epoch
      (l1 ++ [LogPolicy (EvSigningPolicyInitialized x)]) ∧
  get_signing_policy_events reward_epoch l1 = Raise AssertionError.
Proof.
  intros Hl1. unfold get_signing_policy_events. split.
  - now rewrite scan_app_initialized.
  - pose proof (scan_without_initialized l1
                  (for_epoch reward_epoch builder) Hl1 eq_refl) as Hscan.
    destruct (scan_policy_logs l1 _) as [b|e]; simpl.
    + now apply build_without_initialized.
    + now subst e.
Qed.
End HistoricalScanFacts.

(** ** [ParsedPayloadMapper] *)

Section PayloadMapperFacts.
Context {T : Type}.

Lemma mapper_insert_lookup (e : Entity.t) (wpp : WParsedPayload.t T)
    (m : ParsedPayloadMapper.t T) (a : string) :
  ParsedPayloadMapper.lookup a (ParsedPayloadMapper.insert e wpp m)
  = if decide (Entity.identity_address e = a)
    then ParsedPayloadMapper.lookup a m ++ [wpp]
    else ParsedPayloadMapper.lookup a m.
Proof.
  unfold ParsedPayloadMapper.lookup, ParsedPayloadMapper.insert.
  unfold ParsedPayloadMapper.t, WParsedPayloadList.t in *.
  destruct (decide (Entity.identity_address e = a)) as [<-|Hne].
  - now rewrite lookup_insert_eq.
  - now rewrite lookup_insert_ne.
Qed.

(** The insertion of a sequence of payloads, each under its entity. *)
Definition insert_all (l : list (Entity.t * WParsedPayload.t T))
    (m : ParsedPayloadMapper.t T) : ParsedPayloadMapper.t T :=
  foldl (λ m p, ParsedPayloadMapper.insert (fst p) (snd p) m) m l.

(** X7: after any sequence of insertions, [by_identity[a]] is what it was,
    followed by the payloads inserted under an entity whose identity
    address is [a], in the order of insertion; payloads of other
    identities do not show. *)
Theorem mapper_lists_payloads_of_identity (l : list (Entity.t * WParsedPayload.t T))
    (m : ParsedPayloadMapper.t T) (a : string) :
  ParsedPayloadMapper.lookup a (insert_all l m)
  = ParsedPayloadMapper.lookup a m
    ++ (snd <$> filter (λ p, Entity.identity_address (fst p) = a) l).
Proof.
  revert m. induction l as [|[e wpp] l IH]; intros m; simpl.
  - now rewrite app_nil_r.
  - unfold insert_all in *. simpl. rewrite IH, mapper_insert_lookup, filter_cons. simpl.
    case_decide; [|reflexivity]. simpl. now rewrite <- app_assoc.
Qed.
End PayloadMapperFacts.

(** ** [extract_latest]: ties, and [extract] *)

Section ExtractFacts.
Context {T : Type}.

(** What the loop keeps true of [latest], with the place of the selected
    element in the list: the elements before it that lie in the range are
    strictly older, those after it are not newer. *)
Definition first_latest_of (r : range) (seen : list (WParsedPayload.t T))
    (latest : option (WParsedPayload.t T)) : Prop :=
  match latest with
  | None => True
  | Some x =>
      ∃ l1 l2, seen = l1 ++ x :: l2 ∧ in_range r (ts_of x) = true ∧
        (∀ y, y ∈ l1 → in_range r (ts_of y) = true → ts_of y < ts_of x) ∧
        (∀ y, y ∈ l2 → in_range r (ts_of y) = true → ts_of y <= ts_of x)
  end.

Lemma first_latest_step r seen latest (w : WParsedPayload.t T) :
  latest_of r seen latest → first_latest_of r seen latest →
  first_latest_of r (seen ++ [w]) (WParsedPayloadList.extract_latest_step r latest w).
Proof.
  unfold WParsedPayloadList.extract_latest_step, first_latest_of.
  intros Hmax H.
  fold (ts_of w). fold (in_range r (ts_of w)).
  destruct (in_range r (ts_of w)) eqn:E; simpl.
  - destruct latest as [x|].
    + destruct H as (l1 & l2 & -> & Hx & H1 & H2). fold (ts_of x).
      destruct (Z.gtb_spec (ts_of w) (ts_of x)) as [Hgt|Hle].
      * exists (l1 ++ x :: l2), []. split; [reflexivity|]. split; [exact E|]. split.
        -- intros y Hy Hyr. rewrite elem_of_app, elem_of_cons in Hy.
           destruct Hy as [Hy|[->|Hy]]; [specialize (H1 y Hy Hyr)|
                                         |specialize (H2 y Hy Hyr)]; lia.
        -- intros y Hy. now apply elem_of_nil in Hy.
      * exists l1, (l2 ++ [w]). split; [now rewrite <- app_assoc|].
        split; [exact Hx|]. split; [exact H1|].
        intros y Hy Hyr. rewrite elem_of_app, list_elem_of_singleton in Hy.
        destruct Hy as [Hy| ->]; [now apply H2|lia].
    + exists seen, []. split; [reflexivity|]. split; [exact E|]. split.
      * intros y Hy Hyr. simpl in Hmax. apply list_elem_of_In in Hy.
        rewrite (Hmax y Hy) in Hyr. discriminate.
      * intros y Hy. now apply elem_of_nil in Hy.
  - destruct latest as [x|]; [|exact I].
    destruct H as (l1 & l2 & -> & Hx & H1 & H2).
    exists l1, (l2 ++ [w]). split; [now rewrite <- app_assoc|].
    split; [exact Hx|]. split; [exact H1|].
    intros y Hy Hyr. rewrite elem_of_app, list_elem_of_singleton in Hy.
    destruct Hy as [Hy| ->]; [now apply H2|]. rewrite E in Hyr. discriminate.
Qed.

Lemma first_latest_fold r (agg : list (WParsedPayload.t T)) : ∀ seen latest,
  latest_of r seen latest → first_latest_of r seen latest →
  first_latest_of r (seen ++ agg)
    (fold_left (WParsedPayloadList.extract_latest_step r) agg latest).
Proof.
  induction agg as [|w agg IH]; intros seen latest Hmax H; simpl.
  - now rewrite app_nil_r.
  - replace (seen ++ w :: agg) with ((seen ++ [w]) ++ agg) by (now rewrite <- app_assoc).
    apply IH; [now apply extract_latest_step_inv|now apply first_latest_step].
Qed.

(** X8: among the payloads of the range that share the latest timestamp,
    [extract_latest] answers the one that was appended first: every payload
    of the range that stands before the answer is strictly older, and none
    after it is newer. *)
Theorem extract_latest_first_of_latest (agg : list (WParsedPayload.t T)) (r : range)
    (x : WParsedPayload.t T) :
  WParsedPayloadList.extract_latest agg r = Some x →
  ∃ l1 l2, agg = l1 ++ x :: l2 ∧
    (∀ y, y ∈ l1 → start r <= ts_of y < stop r → ts_of y < ts_of x) ∧
    (∀ y, y ∈ l2 → start r <= ts_of y < stop r → ts_of y <= ts_of x).
Proof.
  intros Hx.
  pose proof (first_latest_fold r agg [] None (λ y Hy, match Hy with end) I) as H.
  simpl in H. unfold WParsedPayloadList.extract_latest in Hx. rewrite Hx in H.
  destruct H as (l1 & l2 & -> & _ & H1 & H2). exists l1, l2.
  split; [reflexivity|]. unfold in_range in *.
  split; intros y Hy Hyr; [apply H1|apply H2]; auto; lia.
Qed.

(** The pair that [extract] handles, as a wrapped payload, and back. *)
Definition wrap (p : ParsedPayload.t T * WTxData.t) : WParsedPayload.t T :=
  WParsedPayload.mk (fst p) (snd p).
Definition unwrap (w : WParsedPayload.t T) : ParsedPayload.t T * WTxData.t :=
  (WParsedPayload.parsed_payload w, WParsedPayload.wtx_data w).

Lemma extract_fold (round : Z) (r : range) (payloads : list (ParsedPayload.t T * WTxData.t)) :
  ∀ latest,
    fold_left (extract_step round r) payloads (unwrap <$> latest)
    = unwrap <$>
        fold_left (WParsedPayloadList.extract_latest_step r)
          (filter (λ w, ParsedPayload.voting_round_id (WParsedPayload.parsed_payload w)
                        = round)
                  (wrap <$> payloads))
          latest.
Proof.
  induction payloads as [|[pl wtx] payloads IH]; intros latest; simpl; [reflexivity|].
  rewrite filter_cons. simpl.
  destruct (Z.eqb_spec (ParsedPayload.voting_round_id pl) round) as [Heq|Hne]; simpl.
  - rewrite decide_True by assumption. simpl. rewrite <- IH. f_equal.
    unfold WParsedPayloadList.extract_latest_step. simpl.
    destruct (negb _); [reflexivity|].
    destruct latest as [l|]; simpl; [|reflexivity].
    now destruct (_ >? _).
  - rewrite decide_False by assumption. apply IH.
Qed.

(** X9: [extract] over pairs selects what [extract_latest] selects among
    the payloads of the given voting round: the round filter and the
    selection by time compose. *)
Theorem extract_is_extract_latest_of_round (payloads : list (ParsedPayload.t T * WTxData.t))
    (round : Z) (time_range : range) :
  extract payloads round time_range
  = unwrap <$>
      WParsedPayloadList.extract_latest
        (filter (λ w, ParsedPayload.voting_round_id (WParsedPayload.parsed_payload w)
                      = round)
                (wrap <$> payloads))
        time_range.
Proof.
  unfold extract, WParsedPayloadList.extract_latest.
  destruct payloads as [|p payloads]; [reflexivity|].
  apply (extract_fold round time_range (p :: payloads) None).
Qed.
End ExtractFacts.

(** ** [AttestationRequestMapper.sorted]: the requests it returns *)

Section SortedRequestsFacts.
Import AttestationRequestMapper.

Lemma strongly_sorted_snoc {A} (R : A → A → Prop) (l : list A) (a : A) :
  StronglySorted R l → Forall (λ y, R y a) l → StronglySorted R (l ++ [a]).
Proof.
  induction l as [|x l IH]; intros Hs Ha; simpl.
  - constructor; constructor.
  - apply StronglySorted_inv in Hs as [Hs Hx]. apply Forall_cons in Ha as [Hxa Ha].
    constructor; [now apply IH|].
    apply Forall_app. split; [assumption|]. constructor; [assumption|constructor].
Qed.

Lemma strongly_sorted_impl {A} (R Q : A → A → Prop) (l : list A) :
  (∀ a b, R a b → Q a b) → StronglySorted R l → StronglySorted Q l.
Proof.
  intros HRQ. induction 1 as [|a l Hs IH Ha]; constructor; [assumption|].
  eapply Forall_impl; [exact Ha|]. intros b. apply HRQ.
Qed.

Lemma strongly_sorted_rev {A} (R : A → A → Prop) (l : list A) :
  StronglySorted R l → StronglySorted (λ a b, R b a) (rev l).
Proof.
  induction 1 as [|a l Hs IH Ha]; simpl; [constructor|].
  apply strongly_sorted_snoc; [assumption|].
  apply Forall_forall. intros y Hy. rewrite Forall_forall in Ha. apply Ha.
  apply list_elem_of_In. apply list_elem_of_In in Hy. now apply in_rev.
Qed.

Lemma first_occurrences_facts (l : list AttestationRequest.t) : ∀ before,
  (∀ x, x ∈ first_occurrences before l →
        x ∈ l ∧ AttestationRequest.data x ∉ (AttestationRequest.data <$> before)) ∧
  NoDup (AttestationRequest.data <$> first_occurrences before l) ∧
  (∀ x, x ∈ l →
        AttestationRequest.data x ∈ (AttestationRequest.data <$> before) ∨
        AttestationRequest.data x
          ∈ (AttestationRequest.data <$> first_occurrences before l)) ∧
  (∀ R, StronglySorted R l → StronglySorted R (first_occurrences before l)).
Proof.
  induction l as [|ar rest IH]; intros before; simpl.
  - split; [intros x Hx; now apply elem_of_nil in Hx|].
    split; [apply NoDup_nil_2|].
    split; [intros x Hx; now apply elem_of_nil in Hx|]. intros R _. constructor.
  - destruct (IH (before ++ [ar])) as (Hin & Hnd & Hcov & Hsort).
    assert (Hbefore : ∀ d, d ∈ (AttestationRequest.data <$> (before ++ [ar])) ↔
                           d ∈ (AttestationRequest.data <$> before)
                           ∨ d = AttestationRequest.data ar).
    { intros d. rewrite fmap_app, elem_of_app. simpl.
      now rewrite list_elem_of_singleton. }
    destruct (decide (AttestationRequest.data ar ∈ (AttestationRequest.data <$> before)))
      as [Hseen|Hnew].
    + rewrite bool_decide_eq_true_2 by assumption.
      split; [|split; [assumption|split]].
      * intros x Hx. destruct (Hin x Hx) as [Hx1 Hx2].
        split; [apply elem_of_cons; auto|]. intros Hb. apply Hx2, Hbefore. auto.
      * intros x Hx. apply elem_of_cons in Hx as [->|Hx]; [auto|].
        destruct (Hcov x Hx) as [Hb|Hf]; [|auto].
        apply Hbefore in Hb as [Hb| ->]; auto.
      * intros R Hs. apply StronglySorted_inv in Hs as [Hs _]. now apply Hsort.
    + rewrite bool_decide_eq_false_2 by assumption.
      split; [|split; [|split]].
      * intros x Hx. apply elem_of_cons in Hx as [->|Hx].
        -- split; [apply elem_of_cons; auto|assumption].
        -- destruct (Hin x Hx) as [Hx1 Hx2].
           split; [apply elem_of_cons; auto|]. intros Hb. apply Hx2, Hbefore. auto.
      * rewrite fmap_cons. apply NoDup_cons. split; [|assumption].
        intros Hd. apply list_elem_of_fmap in Hd as (y & Hy & Hyin).
        destruct (Hin y Hyin) as [_ Hy2]. apply Hy2, Hbefore. auto.
      * intros x Hx. rewrite fmap_cons, elem_of_cons.
        apply elem_of_cons in Hx as [->|Hx]; [auto|].
        destruct (Hcov x Hx) as [Hb|Hf]; [|auto].
        apply Hbefore in Hb as [Hb| ->]; auto.
      * intros R Hs. apply StronglySorted_inv in Hs as [Hs Har].
        constructor; [now apply Hsort|].
        apply Forall_forall. intros y Hy. rewrite Forall_forall in Har.
        apply Har. now apply Hin.
Qed.

(** X10: the list that [sorted()] returns holds requests of the mapper
    only, no two with the same [data], at least one for every [data] of
    the mapper; it runs from the latest [(block, log_index)] to the
    earliest; and its length is the number of distinct [data] values. *)
Theorem sorted_requests_distinct (agg : AttestationRequestMapper.t) :
  (∀ x, x ∈ sorted agg → x ∈ agg) ∧
  NoDup (AttestationRequest.data <$> sorted agg) ∧
  (∀ x, x ∈ agg →
        AttestationRequest.data x ∈ (AttestationRequest.data <$> sorted agg)) ∧
  StronglySorted (λ a b, request_before b a) (sorted agg) ∧
  length (sorted agg) = length (remove_dups (AttestationRequest.data <$> agg)).
Proof.
  assert (Heq : sorted agg = rev (first_occurrences [] (py_sorted key_le agg))).
  { unfold sorted. f_equal.
    rewrite (dedup_loop_first_occurrences _ [] ∅ []); [reflexivity|].
    intros d. simpl. rewrite elem_of_nil. split; [apply not_elem_of_empty|tauto]. }
  pose proof (py_sorted_perm key_le agg) as Hperm.
  assert (Hsorted : StronglySorted request_before (py_sorted key_le agg)).
  { eapply strongly_sorted_impl;
      [|exact (py_sorted_sorted key_le key_le_total key_le_trans agg)].
    intros a b. apply key_le_spec. }
  destruct (first_occurrences_facts (py_sorted key_le agg) [])
    as (Hin & Hnd & Hcov & Hsort).
  set (fo := first_occurrences [] (py_sorted key_le agg)) in *.
  assert (Hrev : rev fo ≡ₚ fo) by (symmetry; apply Permutation_rev).
  rewrite Heq.
  assert (H1 : ∀ x, x ∈ rev fo → x ∈ agg).
  { intros x Hx. rewrite Hrev in Hx. rewrite <- Hperm. now apply Hin. }
  assert (H2 : NoDup (AttestationRequest.data <$> rev fo)) by now rewrite Hrev.
  assert (H3 : ∀ x, x ∈ agg →
                 AttestationRequest.data x ∈ (AttestationRequest.data <$> rev fo)).
  { intros x Hx. rewrite Hrev. rewrite <- Hperm in Hx.
    destruct (Hcov x Hx) as [Hb|Hf]; [|assumption]. now apply elem_of_nil in Hb. }
  split; [exact H1|]. split; [exact H2|]. split; [exact H3|]. split.
  - apply strongly_sorted_rev. now apply Hsort.
  - rewrite <- (length_fmap AttestationRequest.data (rev fo)).
    apply Permutation_length, NoDup_Permutation; [exact H2|apply NoDup_remove_dups|].
    intros d. rewrite elem_of_remove_dups. split.
    + intros Hd. apply list_elem_of_fmap in Hd as (y & -> & Hy).
      apply list_elem_of_fmap_2. now apply H1.
    + intros Hd. apply list_elem_of_fmap in Hd as (y & -> & Hy). now apply H3.
Qed.
End SortedRequestsFacts.

(** ** Insertion-ordered dictionaries: lookups after updates *)

Section OrderedDictLookups.
Context {K V : Type} `{EqDecision K}.
Implicit Types (d : OrderedDict.t K V) (k : K) (v : V).

Lemma get_set_eq d k v : OrderedDict.get k (OrderedDict.set k v d) = Some v.
Proof.
  induction d as [|[k0 v0] d IH]; simpl.
  - now rewrite decide_True.
  - destruct (decide (k0 = k)) as [->|Hne]; simpl.
    + now rewrite decide_True.
    + now rewrite decide_False.
Qed.

Lemma get_set_ne d k k' v :
  k' ≠ k → OrderedDict.get k' (OrderedDict.set k v d) = OrderedDict.get k' d.
Proof.
  intros Hne. induction d as [|[k0 v0] d IH]; simpl.
  - now rewrite decide_False by congruence.
  - destruct (decide (k0 = k)) as [->|Hne0]; simpl.
    + now rewrite !decide_False by congruence.
    + destruct (decide (k0 = k')); [reflexivity|exact IH].
Qed.

Lemma set_absent d k v :
  OrderedDict.get k d = None → OrderedDict.set k v d = d ++ [(k, v)].
Proof.
  induction d as [|[k0 v0] d IH]; simpl; [reflexivity|].
  destruct (decide (k0 = k)); [discriminate|]. intros Hg. now rewrite IH.
Qed.

Lemma set_same d k v : OrderedDict.get k d = Some v → OrderedDict.set k v d = d.
Proof.
  induction d as [|[k0 v0] d IH]; simpl; [discriminate|].
  destruct (decide (k0 = k)) as [->|Hne]; [now intros [= ->]|].
  intros Hg. now rewrite IH.
Qed.

Lemma get_middle d1 d2 k v :
  k ∉ OrderedDict.keys d1 → OrderedDict.get k (d1 ++ (k, v) :: d2) = Some v.
Proof.
  induction d1 as [|[k0 v0] d1 IH]; simpl; intros Hk.
  - now rewrite decide_True.
  - rewrite not_elem_of_cons in Hk. destruct Hk as [Hne Hk].
    rewrite decide_False by congruence. now apply IH.
Qed.

Lemma remove_middle d1 d2 k v :
  k ∉ OrderedDict.keys d1 → OrderedDict.remove k (d1 ++ (k, v) :: d2) = d1 ++ d2.
Proof.
  induction d1 as [|[k0 v0] d1 IH]; simpl; intros Hk.
  - now rewrite decide_True.
  - rewrite not_elem_of_cons in Hk. destruct Hk as [Hne Hk].
    rewrite decide_False by congruence. now rewrite IH.
Qed.
End OrderedDictLookups.

(** ** [VotingRoundManager]: [get] and [finalize] in detail *)

Section ManagerDetails.
Variable vef : VotingEpochFactory.

Lemma update_lookup (v : VotingEpoch.t) (f : VotingRound.t → VotingRound.t)
    (m : VotingRoundManager.t) :
  OrderedDict.get v (VotingRoundManager.rounds (VotingRoundManager.update v f m))
  = Some (f (default (VotingRound.init v)
                     (OrderedDict.get v (VotingRoundManager.rounds m)))) ∧
  ∀ k, k ≠ v →
       OrderedDict.get k (VotingRoundManager.rounds (VotingRoundManager.update v f m))
       = OrderedDict.get k (VotingRoundManager.rounds m).
Proof.
  unfold VotingRoundManager.update, VotingRoundManager.get.
  destruct (OrderedDict.get v (VotingRoundManager.rounds m)) as [r|] eqn:E; simpl.
  - split; [apply get_set_eq|]. intros k Hk. now apply get_set_ne.
  - split; [apply get_set_eq|]. intros k Hk. now rewrite !get_set_ne.
Qed.

(** X11: [get(v)] answers the round stored under [v], or stores and
    answers [VotingRound(v)] at the end of [rounds] when there is none; it
    leaves [finalized] and every other round as they were; and a second
    [get(v)] answers the same round and changes nothing. *)
Theorem get_creates_once (v : VotingEpoch.t) (m : VotingRoundManager.t) :
  let r := fst (VotingRoundManager.get v m) in
  let m1 := snd (VotingRoundManager.get v m) in
  VotingRoundManager.get v m1 = (r, m1) ∧
  VotingRoundManager.finalized m1 = VotingRoundManager.finalized m ∧
  OrderedDict.get v (VotingRoundManager.rounds m1) = Some r ∧
  (∀ k, k ≠ v → OrderedDict.get k (VotingRoundManager.rounds m1)
                = OrderedDict.get k (VotingRoundManager.rounds m)) ∧
  match OrderedDict.get v (VotingRoundManager.rounds m) with
  | Some r0 => r = r0 ∧ m1 = m
  | None =>
      r = VotingRound.init v ∧
      VotingRoundManager.rounds m1 = VotingRoundManager.rounds m ++ [(v, r)]
  end.
Proof.
  unfold VotingRoundManager.get.
  destruct (OrderedDict.get v (VotingRoundManager.rounds m)) as [r0|] eqn:E; simpl.
  - rewrite E. repeat split; reflexivity.
  - rewrite get_set_eq. split; [reflexivity|]. split; [reflexivity|].
    split; [reflexivity|]. split; [intros k Hk; now apply get_set_ne|].
    split; [reflexivity|now apply set_absent].
Qed.

Definition id_lt (a b : VotingEpoch.t) : Prop := VotingEpoch.id a < VotingEpoch.id b.

(** The entries that [finalize] returns and keeps when the keys are met in
    ascending order, for the counter [f0] at entry. *)
Definition is_returned (ts f0 : Z) (p : VotingEpoch.t * VotingRound.t) : bool :=
  (f0 <? VotingEpoch.id (fst p)) && round_completed vef ts (fst p).
Definition is_kept (ts f0 : Z) (p : VotingEpoch.t * VotingRound.t) : bool :=
  (f0 <? VotingEpoch.id (fst p)) && negb (round_completed vef ts (fst p)).

Lemma finalize_loop_ascending (ts f0 : Z) :
  ∀ (rest kept : list (VotingEpoch.t * VotingRound.t)) (f : Z) (out : list VotingRound.t),
    StronglySorted id_lt (OrderedDict.keys rest) →
    (∀ k, k ∈ OrderedDict.keys kept → k ∉ OrderedDict.keys rest) →
    (∀ k, k ∈ OrderedDict.keys rest → (VotingEpoch.id k <= f ↔ VotingEpoch.id k <= f0)) →
    VotingRoundManager.finalize_loop vef ts (OrderedDict.keys rest)
      (VotingRoundManager.mk f (kept ++ rest)) out
    = Ok (out ++ (snd <$> filter (λ p, is_returned ts f0 p = true) rest),
          VotingRoundManager.mk
            (foldl Z.max f
               ((λ p, VotingEpoch.id (fst p))
                  <$> filter (λ p, is_returned ts f0 p = true) rest))
            (kept ++ filter (λ p, is_kept ts f0 p = true) rest)).
Proof.
  induction rest as [|[k r] rest IH]; intros kept f out Hsorted Hkept Hf.
  - simpl. now rewrite !app_nil_r.
  - cbn [OrderedDict.keys map fst] in *. fold (OrderedDict.keys rest) in *.
    apply StronglySorted_inv in Hsorted as [Hsorted Hk].
    rewrite Forall_forall in Hk.
    assert (Hknew : k ∉ OrderedDict.keys kept).
    { intros Hin. apply (Hkept k Hin). apply elem_of_cons. auto. }
    assert (Hkept' : ∀ k', k' ∈ OrderedDict.keys kept → k' ∉ OrderedDict.keys rest).
    { intros k' Hin Hin'. apply (Hkept k' Hin). apply elem_of_cons. auto. }
    assert (Hlater : ∀ k', k' ∈ OrderedDict.keys rest →
                           VotingEpoch.id k < VotingEpoch.id k').
    { intros k' Hin. exact (Hk k' Hin). }
    pose proof (Hf k ltac:(apply elem_of_cons; auto)) as Hfk.
    rewrite !filter_cons.
    cbn [VotingRoundManager.finalize_loop VotingRoundManager.finalized
         VotingRoundManager.rounds].
    fold (round_completed vef ts k).
    destruct (Z.leb_spec (VotingEpoch.id k) f) as [Hle|Hgt].
    + assert (Hr : is_returned ts f0 (k, r) = false).
      { unfold is_returned. simpl.
        destruct (Z.ltb_spec f0 (VotingEpoch.id k)); [lia|reflexivity]. }
      assert (Hkp : is_kept ts f0 (k, r) = false).
      { unfold is_kept. simpl.
        destruct (Z.ltb_spec f0 (VotingEpoch.id k)); [lia|reflexivity]. }
      rewrite !(decide_False (P := is_returned ts f0 (k, r) = true))
        by (rewrite Hr; discriminate).
      rewrite (decide_False (P := is_kept ts f0 (k, r) = true))
        by (rewrite Hkp; discriminate).
      simpl. rewrite remove_middle by assumption.
      apply IH; [assumption|assumption|].
      intros k' Hin. apply Hf, elem_of_cons. auto.
    + assert (Hlt : (f0 <? VotingEpoch.id k) = true).
      { destruct (Z.ltb_spec f0 (VotingEpoch.id k)); [reflexivity|lia]. }
      destruct (round_completed vef ts k) eqn:Hcomp.
      * assert (Hr : is_returned ts f0 (k, r) = true).
        { unfold is_returned. simpl. now rewrite Hlt, Hcomp. }
        assert (Hkp : is_kept ts f0 (k, r) = false).
        { unfold is_kept. simpl. now rewrite Hlt, Hcomp. }
        rewrite !(decide_True (P := is_returned ts f0 (k, r) = true)) by exact Hr.
        rewrite (decide_False (P := is_kept ts f0 (k, r) = true))
          by (rewrite Hkp; discriminate).
        unfold OrderedDict.pop. rewrite get_middle, remove_middle by assumption.
        cbn [mbind exc_bind].
        rewrite (IH kept (Z.max f (VotingEpoch.id k)) (out ++ [r]));
          [|assumption|assumption|].
        -- simpl. now rewrite <- app_assoc.
        -- intros k' Hin. specialize (Hlater k' Hin). lia.
      * assert (Hr : is_returned ts f0 (k, r) = false).
        { unfold is_returned. simpl. now rewrite Hlt, Hcomp. }
        assert (Hkp : is_kept ts f0 (k, r) = true).
        { unfold is_kept. simpl. now rewrite Hlt, Hcomp. }
        rewrite !(decide_False (P := is_returned ts f0 (k, r) = true))
          by (rewrite Hr; discriminate).
        rewrite (decide_True (P := is_kept ts f0 (k, r) = true)) by exact Hkp.
        replace (kept ++ (k, r) :: rest) with ((kept ++ [(k, r)]) ++ rest)
          by (now rewrite <- app_assoc).
        rewrite (IH (kept ++ [(k, r)]) f out); [|assumption| |].
        -- now rewrite <- app_assoc.
        -- intros k' Hin Hin'. unfold OrderedDict.keys in Hin.
           rewrite map_app in Hin. apply elem_of_app in Hin as [Hin|Hin].
           ++ now apply (Hkept' k').
           ++ simpl in Hin. apply list_elem_of_singleton in Hin as ->.
              specialize (Hlater k Hin'). lia.
        -- intros k' Hin. apply Hf, elem_of_cons. auto.
Qed.

(** X12: when the keys of [rounds] stand in ascending order of id,
    [finalize] returns the rounds of the keys that are above [finalized]
    and completed at the block's timestamp, in that order, keeps the
    entries above [finalized] that are not completed, drops the others,
    and raises [finalized] to the greatest id it returned. *)
Theorem finalize_ascending (block : BlockData.t) (m : VotingRoundManager.t) :
  StronglySorted id_lt (OrderedDict.keys (VotingRoundManager.rounds m)) →
  let ts := BlockData.timestamp block in
  let f0 := VotingRoundManager.finalized m in
  let returned := filter (λ p, is_returned ts f0 p = true) (VotingRoundManager.rounds m) in
  VotingRoundManager.finalize vef block m
  = Ok (snd <$> returned,
        VotingRoundManager.mk
          (foldl Z.max f0 ((λ p, VotingEpoch.id (fst p)) <$> returned))
          (filter (λ p, is_kept ts f0 p = true) (VotingRoundManager.rounds m))).
Proof.
  intros Hsorted. simpl. unfold VotingRoundManager.finalize.
  destruct m as [f rounds]. simpl in *.
  apply (finalize_loop_ascending (BlockData.timestamp block) f rounds [] f []).
  - assumption.
  - intros k Hk. now apply elem_of_nil in Hk.
  - tauto.
Qed.
Lemma finalize_loop_sound (ts : Z) (ks : list VotingEpoch.t) :
  ∀ (m : VotingRoundManager.t) (out out' : list VotingRound.t) (m' : VotingRoundManager.t),
    VotingRoundManager.finalize_loop vef ts ks m out = Ok (out', m') →
    VotingRoundManager.finalized m <= VotingRoundManager.finalized m' ∧
    (∀ p, p ∈ VotingRoundManager.rounds m' → p ∈ VotingRoundManager.rounds m) ∧
    ∃ new, out' = out ++ new ∧
      ∀ r, r ∈ new →
        ∃ k, (k, r) ∈ VotingRoundManager.rounds m ∧ k ∈ ks ∧
             VotingRoundManager.finalized m < VotingEpoch.id k ∧
             round_completed vef ts k = true.
Proof.
  induction ks as [|k ks IH]; intros m out out' m' Hrun; simpl in Hrun.
  - injection Hrun as <- <-. split; [lia|]. split; [auto|].
    exists []. rewrite app_nil_r. split; [reflexivity|].
    intros r Hr. now apply elem_of_nil in Hr.
  - destruct (Z.leb_spec (VotingEpoch.id k) (VotingRoundManager.finalized m)) as [Hle|Hgt].
    + destruct (IH _ _ _ _ Hrun) as (Hmono & Hsub & new & -> & Hnew). simpl in *.
      split; [assumption|]. split.
      * intros [k' r'] Hp. eapply elem_of_remove, Hsub, Hp.
      * exists new. split; [reflexivity|]. intros r Hr.
        destruct (Hnew r Hr) as (k' & Hin & Hks & Hlt & Hc).
        exists k'. split; [eapply elem_of_remove, Hin|].
        split; [apply elem_of_cons; auto|auto].
    + fold (round_completed vef ts k) in Hrun.
      destruct (round_completed vef ts k) eqn:Hcomp.
      * unfold OrderedDict.pop in Hrun.
        destruct (OrderedDict.get k (VotingRoundManager.rounds m)) as [r0|] eqn:Hget;
          [|discriminate]. cbn [mbind exc_bind] in Hrun.
        destruct (IH _ _ _ _ Hrun) as (Hmono & Hsub & new & -> & Hnew). simpl in *.
        split; [lia|]. split.
        -- intros [k' r'] Hp. eapply elem_of_remove, Hsub, Hp.
        -- exists (r0 :: new). split; [now rewrite <- app_assoc|].
           intros r Hr. apply elem_of_cons in Hr as [->|Hr].
           ++ exists k. split; [now apply get_elem|].
              split; [apply elem_of_cons; auto|auto].
           ++ destruct (Hnew r Hr) as (k' & Hin & Hks & Hlt & Hc).
              exists k'. split; [eapply elem_of_remove, Hin|].
              split; [apply elem_of_cons; auto|]. split; [lia|assumption].
      * destruct (IH _ _ _ _ Hrun) as (Hmono & Hsub & new & -> & Hnew).
        split; [assumption|]. split; [assumption|].
        exists new. split; [reflexivity|]. intros r Hr.
        destruct (Hnew r Hr) as (k' & Hin & Hks & Hlt & Hc).
        exists k'. split; [assumption|]. split; [apply elem_of_cons; auto|auto].
Qed.

(** X13: every round that [finalize] returns was stored in [rounds]
    under a key above the [finalized] counter at entry and completed at
    the block's timestamp ([k.next.end_s < timestamp]); every entry that
    is left in [rounds] was there before, unchanged; and the counter does
    not go down. *)
Theorem finalize_returns_completed (block : BlockData.t)
    (m m' : VotingRoundManager.t) (out : list VotingRound.t) :
  VotingRoundManager.finalize vef block m = Ok (out, m') →
  (∀ r, r ∈ out →
     ∃ k, (k, r) ∈ VotingRoundManager.rounds m ∧
          VotingRoundManager.finalized m < VotingEpoch.id k ∧
          VotingEpoch.end_s vef (VotingEpoch.next k) < BlockData.timestamp block) ∧
  (∀ p, p ∈ VotingRoundManager.rounds m' → p ∈ VotingRoundManager.rounds m) ∧
  VotingRoundManager.finalized m <= VotingRoundManager.finalized m'.
Proof.
  unfold VotingRoundManager.finalize. intros Hrun.
  destruct (finalize_loop_sound _ _ _ _ _ _ Hrun) as (Hmono & Hsub & new & Heq & Hnew).
  simpl in Heq. subst new. split; [|auto].
  intros r Hr. destruct (Hnew r Hr) as (k & Hin & _ & Hlt & Hc).
  exists k. split; [assumption|]. split; [assumption|].
  unfold round_completed in Hc. lia.
Qed.

Lemma finalize_loop_not_completed (ts : Z) (ks : list VotingEpoch.t) :
  ∀ (m : VotingRoundManager.t) (out out' : list VotingRound.t) (m' : VotingRoundManager.t),
    manager_wf m →
    VotingRoundManager.finalize_loop vef ts ks m out = Ok (out', m') →
    (∀ k, k ∈ OrderedDict.keys (VotingRoundManager.rounds m) →
          k ∈ ks ∨ round_completed vef ts k = false) →
    ∀ k, k ∈ OrderedDict.keys (VotingRoundManager.rounds m') →
         round_completed vef ts k = false.
Proof.
  induction ks as [|k ks IH]; intros m out out' m' Hwf Hrun Hkeys; simpl in Hrun.
  - injection Hrun as <- <-. intros k Hk.
    destruct (Hkeys k Hk) as [Hin|?]; [now apply elem_of_nil in Hin|assumption].
  - destruct Hwf as [Hwf1 Hwf2].
    assert (Hwf' : ∀ z, manager_wf
              (VotingRoundManager.mk z (OrderedDict.remove k (VotingRoundManager.rounds m)))).
    { intros z. split; simpl; [now apply NoDup_remove|].
      intros k' r' Hin. eapply Hwf2, elem_of_remove, Hin. }
    assert (Hrem : ∀ k', k' ∈ OrderedDict.keys
                              (OrderedDict.remove k (VotingRoundManager.rounds m)) →
                         k' ∈ ks ∨ round_completed vef ts k' = false).
    { intros k' Hk'.
      destruct (Hkeys k' (keys_remove _ _ _ Hk')) as [Hin|?]; [|auto].
      apply elem_of_cons in Hin as [->|Hin]; [|auto].
      exfalso. revert Hk'. now apply keys_remove_self. }
    destruct (VotingEpoch.id k <=? VotingRoundManager.finalized m).
    + eapply IH; [apply Hwf'|exact Hrun|exact Hrem].
    + fold (round_completed vef ts k) in Hrun.
      destruct (round_completed vef ts k) eqn:Hcomp.
      * unfold OrderedDict.pop in Hrun.
        destruct (OrderedDict.get k (VotingRoundManager.rounds m)); [|discriminate].
        cbn [mbind exc_bind] in Hrun.
        eapply IH; [apply Hwf'|exact Hrun|exact Hrem].
      * eapply IH; [split; eassumption|exact Hrun|].
        intros k' Hk'. destruct (Hkeys k' Hk') as [Hin|?]; [|auto].
        apply elem_of_cons in Hin as [->|Hin]; auto.
Qed.

Lemma finalize_loop_settled (ts : Z) (ks : list VotingEpoch.t) :
  ∀ (m : VotingRoundManager.t) (out : list VotingRound.t),
    (∀ k, k ∈ ks → VotingRoundManager.finalized m < VotingEpoch.id k ∧
                   round_completed vef ts k = false) →
    VotingRoundManager.finalize_loop vef ts ks m out = Ok (out, m).
Proof.
  induction ks as [|k ks IH]; intros m out Hks; simpl; [reflexivity|].
  destruct (Hks k ltac:(apply elem_of_cons; auto)) as [Hlt Hc].
  destruct (Z.leb_spec (VotingEpoch.id k) (VotingRoundManager.finalized m)); [lia|].
  fold (round_completed vef ts k). rewrite Hc. apply IH.
  intros k' Hk'. apply Hks, elem_of_cons. auto.
Qed.

(** X14: once [finalize] has run for a block, running it again for that
    block or for a block that is not later returns no round and leaves the
    manager as it is (epochs of non-negative duration, distinct keys). *)
Theorem finalize_again_returns_nothing (block block' : BlockData.t)
    (m m' : VotingRoundManager.t) (out : list VotingRound.t) :
  0 <= voting_epoch_duration_seconds vef →
  manager_wf m →
  VotingRoundManager.finalize vef block m = Ok (out, m') →
  BlockData.timestamp block' <= BlockData.timestamp block →
  VotingRoundManager.finalize vef block' m' = Ok ([], m').
Proof.
  intros Hd Hwf Hrun Hts. unfold VotingRoundManager.finalize in *.
  apply finalize_loop_settled. intros k Hk. split.
  - eapply (finalize_loop_above vef); [exact Hd|exact Hwf|exact Hrun| |exact Hk]. auto.
  - pose proof (finalize_loop_not_completed _ _ _ _ _ _ Hwf Hrun
                  ltac:(auto) k Hk) as Hc.
    unfold round_completed in *. lia.
Qed.
End ManagerDetails.

(** ** The tally of consensus bitvotes *)

Section TallyFacts.

(** [consensus_bitvote[k] += 1] for every message of [ks], in order. *)
Definition count_all (ks : list bytes) (p : FdcVotingRoundProtocol.t)
    : FdcVotingRoundProtocol.t :=
  foldl (λ p k, FdcVotingRoundProtocol.count_bitvote k p) p ks.

(** [consensus_bitvote[k]] on the [defaultdict(int)] *)
Definition tally (p : FdcVotingRoundProtocol.t) (k : bytes) : Z :=
  default 0 (OrderedDict.get k (FdcVotingRoundProtocol.consensus_bitvote p)).

Lemma count_bitvote_tally (k k' : bytes) (p : FdcVotingRoundProtocol.t) :
  tally (FdcVotingRoundProtocol.count_bitvote k p) k'
  = tally p k' + (if decide (k = k') then 1 else 0).
Proof.
  unfold tally, FdcVotingRoundProtocol.count_bitvote. simpl.
  destruct (decide (k = k')) as [<-|Hne].
  - now rewrite get_set_eq.
  - rewrite get_set_ne by congruence. lia.
Qed.

(** X15: after the messages [ks] were counted, the tally of a message is
    what it was plus the number of its occurrences in [ks]; the
    submissions, the finalization and the requests of the round are
    untouched, and the keys of the tally stay distinct. *)
Theorem tally_counts_occurrences (ks : list bytes) (p : FdcVotingRoundProtocol.t)
    (k : bytes) :
  tally (count_all ks p) k = tally p k + Z.of_nat (length (filter (λ x, x = k) ks)) ∧
  FdcVotingRoundProtocol.base (count_all ks p) = FdcVotingRoundProtocol.base p ∧
  FdcVotingRoundProtocol.requests (count_all ks p) = FdcVotingRoundProtocol.requests p ∧
  (NoDup (OrderedDict.keys (FdcVotingRoundProtocol.consensus_bitvote p)) →
   NoDup (OrderedDict.keys (FdcVotingRoundProtocol.consensus_bitvote (count_all ks p)))).
Proof.
  revert p. induction ks as [|x ks IH]; intros p; simpl.
  - repeat split; [lia|auto].
  - destruct (IH (FdcVotingRoundProtocol.count_bitvote x p)) as (Ht & Hb & Hr & Hnd).
    unfold count_all in *. simpl. rewrite Ht, Hb, Hr, count_bitvote_tally, filter_cons.
    split; [|split; [reflexivity|split; [reflexivity|]]].
    + destruct (decide (x = k)); simpl; lia.
    + intros Hp. apply Hnd. simpl. now apply NoDup_set.
Qed.

Lemma filter_head_split {A} (P : A → Prop) `{∀ x, Decision (P x)} (l : list A) (x : A)
    (rest : list A) :
  filter P l = x :: rest →
  ∃ l1 l2, l = l1 ++ x :: l2 ∧ ∀ y, y ∈ l1 → ¬ P y.
Proof.
  induction l as [|a l IH]; [discriminate|].
  rewrite filter_cons. destruct (decide (P a)) as [Ha|Ha].
  - intros [= -> _]. exists [], l. split; [reflexivity|].
    intros y Hy. now apply elem_of_nil in Hy.
  - intros Hf. destruct (IH Hf) as (l1 & l2 & -> & Hl1).
    exists (a :: l1), l2. split; [reflexivity|].
    intros y Hy. apply elem_of_cons in Hy as [->|Hy]; auto.
Qed.

(** X16: the tally entry that [validate_fdc] takes as the consensus (the
    head of the items sorted by count, descending) is an entry of the
    tally whose count no other entry exceeds, and the first such entry in
    the order of the dictionary: every entry before it has a strictly
    smaller count. *)
Theorem consensus_entry_is_first_most_frequent (d : OrderedDict.t bytes Z)
    (top : bytes * Z) :
  py_index (sorted_by_count_desc d) 0 = Ok top →
  (∀ p, p ∈ d → snd p <= snd top) ∧
  ∃ d1 d2, d = d1 ++ top :: d2 ∧ ∀ p, p ∈ d1 → snd p < snd top.
Proof.
  unfold py_index, sorted_by_count_desc, OrderedDict.items.
  set (le := λ a b : bytes * Z, snd b <=? snd a).
  assert (Htotal : ∀ a b, le a b = false → le b a = true) by (unfold le; intros; lia).
  assert (Htrans : ∀ a b c, le a b = true → le b c = true → le a c = true)
    by (unfold le; intros; lia).
  pose proof (py_sorted_perm le d) as Hperm.
  pose proof (py_sorted_sorted le Htotal Htrans d) as Hsorted.
  pose proof (py_sorted_stable le (λ a b : bytes * Z, snd a =? snd b) top d) as Hstable.
  destruct (py_sorted le d) as [|x rest] eqn:Es; simpl; [discriminate|].
  intros [= ->].
  apply StronglySorted_inv in Hsorted as [_ Hall]. rewrite Forall_forall in Hall.
  assert (Hmax : ∀ p, p ∈ d → snd p <= snd top).
  { intros p Hp. rewrite <- Hperm in Hp. apply elem_of_cons in Hp as [->|Hp]; [lia|].
    specialize (Hall p Hp). unfold le in Hall. lia. }
  split; [exact Hmax|].
  rewrite filter_cons in Hstable. rewrite decide_True in Hstable by apply Z.eqb_refl.
  symmetry in Hstable.
  destruct (filter_head_split _ d top _ (Hstable ltac:(unfold le; intros; lia)))
    as (d1 & d2 & -> & Hd1).
  exists d1, d2. split; [reflexivity|].
  intros p Hp. specialize (Hd1 p Hp). simpl in Hd1.
  specialize (Hmax p ltac:(apply elem_of_app; auto)).
  destruct (Z.eqb_spec (snd top) (snd p)); [congruence|lia].
Qed.
End TallyFacts.

(** ** The signature window *)

Section GraceFacts.
Variable vef : VotingEpochFactory.

(** X17: the window of [submit_signatures] never ends before
    [next.start_s + 56], and once the round has a finalization it ends
    after the finalization's timestamp: a signature sent after the reveal
    deadline and not later than the finalization is always selected
    from. *)
Theorem sig_grace_covers_finalization (epoch : VotingEpoch.t)
    (finalization : option ProtocolMessageRelayed.t) :
  VotingEpoch.start_s vef (VotingEpoch.next epoch) + 56 <= sig_grace vef epoch finalization ∧
  ∀ f, finalization = Some f →
       ProtocolMessageRelayed.timestamp f < sig_grace vef epoch finalization.
Proof.
  unfold sig_grace, finalization_grace, py_or_int. split; [lia|].
  intros f ->. destruct (Z.eqb_spec (ProtocolMessageRelayed.timestamp f + 1) 0); lia.
Qed.

(** The grace window starts at the reveal deadline, which lies before
    [next.start_s + 56] only if the reveal deadline is shorter than 56
    seconds. *)
Lemma sig_window_nonempty (epoch : VotingEpoch.t)
    (finalization : option ProtocolMessageRelayed.t) :
  ftso_reveal_deadline_seconds vef < 56 →
  VotingEpoch.reveal_deadline vef (VotingEpoch.next epoch)
  < sig_grace vef epoch finalization.
Proof.
  intros H. unfold sig_grace, VotingEpoch.reveal_deadline. lia.
Qed.
End GraceFacts.

(** ** The ingestion of logs and transactions *)

Section IngestionFacts.
Variable vef : VotingEpochFactory.
Variable ext : Collaborators.t.
Variable config : Configuration.t.

(** The round of [v] as a reader sees it: the stored one, or a fresh one. *)
Definition round_of (m : VotingRoundManager.t) (v : VotingEpoch.t) : VotingRound.t :=
  default (VotingRound.init v) (OrderedDict.get v (VotingRoundManager.rounds m)).

Lemma round_of_update (v k : VotingEpoch.t) (f : VotingRound.t → VotingRound.t)
    (m : VotingRoundManager.t) :
  round_of (VotingRoundManager.update v f m) k
  = if decide (k = v) then f (round_of m v) else round_of m k.
Proof.
  unfold round_of. destruct (update_lookup v f m) as [Heq Hne].
  destruct (decide (k = v)) as [->|Hk].
  - now rewrite Heq.
  - now rewrite Hne.
Qed.

(** X18: a [ProtocolMessageRelayed] log stores the event, stamped with
    the block's timestamp, as the finalization of the FTSO part (protocol
    100) or of the FDC part (protocol 200) of the round [voting_round_id];
    for any other protocol id the finalizations stay as they were.  An
    [AttestationRequest] log appends the request to the requests of the
    round of the block's own voting epoch.  Neither touches another round,
    the signing policy or its builder. *)
Theorem process_log_files_events (block_data : BlockData.t) (voting_epoch : VotingEpoch.t)
    (st : ObserverState.t) :
  (∀ protocol_id voting_round_id is_secure_random merkle_root,
     let e := ProtocolMessageRelayed.mk protocol_id voting_round_id is_secure_random
                merkle_root (BlockData.timestamp block_data) in
     let res := process_log block_data voting_epoch
                  (LogProtocolMessageRelayed protocol_id voting_round_id
                     is_secure_random merkle_root) st in
     let r := round_of (ObserverState.vrm st) (ve voting_round_id) in
     let r' := round_of (ObserverState.vrm (snd res)) (ve voting_round_id) in
     fst res = Ok tt ∧
     VotingRoundProtocol.finalization (VotingRound.ftso r')
       = (if protocol_id =? 100 then Some e
          else VotingRoundProtocol.finalization (VotingRound.ftso r)) ∧
     FdcVotingRoundProtocol.finalization (VotingRound.fdc r')
       = (if protocol_id =? 200 then Some e
          else FdcVotingRoundProtocol.finalization (VotingRound.fdc r)) ∧
     (∀ k, k ≠ ve voting_round_id →
           round_of (ObserverState.vrm (snd res)) k = round_of (ObserverState.vrm st) k) ∧
     ObserverState.signing_policy (snd res) = ObserverState.signing_policy st ∧
     ObserverState.spb (snd res) = ObserverState.spb st) ∧
  (∀ attestation_type source_id data block log_index,
     let e := AttestationRequest.mk attestation_type source_id data block log_index
                voting_epoch in
     let res := process_log block_data voting_epoch
                  (LogAttestationRequest attestation_type source_id data block log_index)
                  st in
     fst res = Ok tt ∧
     FdcVotingRoundProtocol.requests
       (VotingRound.fdc (round_of (ObserverState.vrm (snd res)) voting_epoch))
     = FdcVotingRoundProtocol.requests
         (VotingRound.fdc (round_of (ObserverState.vrm st) voting_epoch)) ++ [e] ∧
     (∀ k, k ≠ voting_epoch →
           round_of (ObserverState.vrm (snd res)) k = round_of (ObserverState.vrm st) k) ∧
     ObserverState.signing_policy (snd res) = ObserverState.signing_policy st ∧
     ObserverState.spb (snd res) = ObserverState.spb st).
Proof.
  split.
  - intros protocol_id voting_round_id is_secure_random merkle_root. simpl.
    rewrite round_of_update, decide_True by reflexivity.
    split; [reflexivity|].
    split; [|split; [|split; [|split; reflexivity]]].
    + destruct (protocol_id =? 100), (protocol_id =? 200); reflexivity.
    + destruct (protocol_id =? 100), (protocol_id =? 200); reflexivity.
    + intros k Hk. now rewrite round_of_update, decide_False.
  - intros attestation_type source_id data block log_index. simpl.
    rewrite round_of_update, decide_True by reflexivity.
    split; [reflexivity|]. split; [reflexivity|].
    split; [|split; reflexivity].
    intros k Hk. now rewrite round_of_update, decide_False.
Qed.

(** X19: a [submit1] transaction of a registered sender whose calldata
    parses is filed in the round named by each payload under the identity
    address of the sender's entity (whichever of its five addresses sent
    it): the FTSO payload is appended to [ftso.submit_1] of its round, the
    FDC payload to [fdc.submit_1] of its round. *)
Theorem process_tx_files_submit1 (block_data : BlockData.t) (tx : TxData.t)
    (st : ObserverState.t) (entity : Entity.t)
    (parsed : ParsedMessage.t FtsoSubmit1.t FdcSubmit1.t) :
  EntityMapper.by_omni (SigningPolicy.entity_mapper (ObserverState.signing_policy st))
    !! TxData.from tx = Some entity →
  target_function_signatures config !! hex (take 4 (TxData.input tx)) = Some ModeSubmit1 →
  Collaborators.parse_submit1_tx ext (hex (drop 4 (TxData.input tx))) = Ok parsed →
  let st' := snd (process_tx ext config block_data tx st) in
  let wtx := WTxData.from_tx_data tx block_data in
  let a := Entity.identity_address entity in
  (∀ p, ParsedMessage.ftso parsed = Some p →
     let v := ve (ParsedPayload.voting_round_id p) in
     ParsedPayloadMapper.lookup a
       (VotingRoundProtocol.submit_1 (VotingRound.ftso (round_of (ObserverState.vrm st') v)))
     = ParsedPayloadMapper.lookup a
         (VotingRoundProtocol.submit_1
            (VotingRound.ftso (round_of (ObserverState.vrm st) v)))
       ++ [WParsedPayload.mk p wtx]) ∧
  (∀ p, ParsedMessage.fdc parsed = Some p →
     let v := ve (ParsedPayload.voting_round_id p) in
     ParsedPayloadMapper.lookup a
       (FdcVotingRoundProtocol.submit_1 (VotingRound.fdc (round_of (ObserverState.vrm st') v)))
     = ParsedPayloadMapper.lookup a
         (FdcVotingRoundProtocol.submit_1
            (VotingRound.fdc (round_of (ObserverState.vrm st) v)))
       ++ [WParsedPayload.mk p wtx]).
Proof.
  intros Hentity Hmode Hparse.
  assert (Hst : snd (process_tx ext config block_data tx st)
                = let wtx := WTxData.from_tx_data tx block_data in
                  let st1 := ObserverState.record_parse ModeSubmit1
                               (hex (drop 4 (TxData.input tx))) st in
                  let st2 :=
                    match ParsedMessage.ftso parsed with
                    | Some p =>
                        ObserverState.set_vrm
                          (VotingRoundManager.update (ve (ParsedPayload.voting_round_id p))
                             (VotingRound.on_ftso
                                (VotingRoundProtocol.insert_submit_1 entity p wtx))) st1
                    | None => st1
                    end in
                  match ParsedMessage.fdc parsed with
                  | Some p =>
                      ObserverState.set_vrm
                        (VotingRoundManager.update (ve (ParsedPayload.voting_round_id p))
                           (VotingRound.on_fdc
                              (FdcVotingRoundProtocol.on_base
                                 (VotingRoundProtocol.insert_submit_1 entity p wtx)))) st2
                  | None => st2
                  end).
  { unfold process_tx. simpl. unfold mbind at 1, obs_bind at 1, obs_get. simpl.
    rewrite Hentity, Hmode. unfold try_except_pass, submit1_body. simpl.
    unfold mbind, obs_bind, obs_modify, obs_lift, mret, obs_ret. simpl.
    rewrite Hparse. simpl.
    destruct (ParsedMessage.ftso parsed), (ParsedMessage.fdc parsed); reflexivity. }
  cbv zeta. rewrite Hst. clear Hst. cbv zeta.
  split; intros p Hp; rewrite Hp;
    destruct (ParsedMessage.ftso parsed) as [pf|], (ParsedMessage.fdc parsed) as [pd|];
    try discriminate; try (injection Hp as ->); simpl;
    repeat (rewrite round_of_update; destruct (decide _) as [?|?]; simpl);
    unfold FdcVotingRoundProtocol.submit_1, FdcVotingRoundProtocol.on_base; simpl;
    rewrite ?mapper_insert_lookup, ?decide_True by reflexivity;
    congruence.
Qed.

(** X20: an FDC [submitSignatures] payload of a registered sender adds
    one to the tally of its [unsigned_message] in the round it names, and
    leaves the tally of every other message of that round as it was. *)
Theorem process_tx_counts_bitvote (block_data : BlockData.t) (tx : TxData.t)
    (st : ObserverState.t) (entity : Entity.t)
    (parsed : ParsedMessage.t SubmitSignatures.t SubmitSignatures.t)
    (p : ParsedPayload.t SubmitSignatures.t) :
  EntityMapper.by_omni (SigningPolicy.entity_mapper (ObserverState.signing_policy st))
    !! TxData.from tx = Some entity →
  target_function_signatures config !! hex (take 4 (TxData.input tx))
    = Some ModeSubmitSignatures →
  Collaborators.parse_submit_signature_tx ext (hex (drop 4 (TxData.input tx))) = Ok parsed →
  ParsedMessage.fdc parsed = Some p →
  let st' := snd (process_tx ext config block_data tx st) in
  let v := ve (ParsedPayload.voting_round_id p) in
  ∀ k,
    tally (VotingRound.fdc (round_of (ObserverState.vrm st') v)) k
    = tally (VotingRound.fdc (round_of (ObserverState.vrm st) v)) k
      + (if decide (SubmitSignatures.unsigned_message (ParsedPayload.payload p) = k)
         then 1 else 0).
Proof.
  intros Hentity Hmode Hparse Hfdc.
  assert (Hst : snd (process_tx ext config block_data tx st)
                = let wtx := WTxData.from_tx_data tx block_data in
                  let st1 := ObserverState.record_parse ModeSubmitSignatures
                               (hex (drop 4 (TxData.input tx))) st in
                  let st2 :=
                    match ParsedMessage.ftso parsed with
                    | Some q =>
                        ObserverState.set_vrm
                          (VotingRoundManager.update (ve (ParsedPayload.voting_round_id q))
                             (VotingRound.on_ftso
                                (VotingRoundProtocol.insert_submit_signatures entity q wtx)))
                          st1
                    | None => st1
                    end in
                  ObserverState.set_vrm
                    (VotingRoundManager.update (ve (ParsedPayload.voting_round_id p))
                       (λ vr,
                          VotingRound.on_fdc
                            (FdcVotingRoundProtocol.count_bitvote
                               (SubmitSignatures.unsigned_message (ParsedPayload.payload p)))
                            (VotingRound.on_fdc
                               (FdcVotingRoundProtocol.on_base
                                  (VotingRoundProtocol.insert_submit_signatures
                                     entity p wtx)) vr))) st2).
  { unfold process_tx. simpl. unfold mbind at 1, obs_bind at 1, obs_get. simpl.
    rewrite Hentity, Hmode. unfold try_except_pass, submit_signatures_body. simpl.
    unfold mbind, obs_bind, obs_modify, obs_lift, mret, obs_ret. simpl.
    rewrite Hparse. simpl. rewrite Hfdc.
    destruct (ParsedMessage.ftso parsed); reflexivity. }
  cbv zeta. rewrite Hst. clear Hst. cbv zeta. intros k.
  destruct (ParsedMessage.ftso parsed) as [pf|]; simpl;
    repeat (rewrite round_of_update; destruct (decide (_ = _ :> VotingEpoch.t)) as [?|?];
            simpl);
    try congruence;
    rewrite count_bitvote_tally; unfold tally; simpl;
    destruct (decide (_ = k)); congruence.
Qed.
End IngestionFacts.

(** ** What a block leaves untouched *)

Section FrameFacts.
Variable vef : VotingEpochFactory.
Variable ext : Collaborators.t.
Variable config : Configuration.t.
Variable tia : string.

(** The statement [c] leaves the component [proj] of the state as it is,
    whether it ends normally or raises. *)
Definition keeps {A B} (proj : ObserverState.t → A) (c : obs B) : Prop :=
  ∀ st, proj (snd (c st)) = proj st.

Lemma keeps_ret {A B} (proj : ObserverState.t → A) (x : B) : keeps proj (mret x).
Proof. intros st. reflexivity. Qed.

Lemma keeps_get {A} (proj : ObserverState.t → A) : keeps proj obs_get.
Proof. intros st. reflexivity. Qed.

Lemma keeps_lift {A B} (proj : ObserverState.t → A) (e : exc B) : keeps proj (obs_lift e).
Proof. intros st. reflexivity. Qed.

Lemma keeps_modify {A} (proj : ObserverState.t → A) (f : ObserverState.t → ObserverState.t) :
  (∀ st, proj (f st) = proj st) → keeps proj (obs_modify f).
Proof. intros Hf st. apply Hf. Qed.

Lemma keeps_bind {A B C} (proj : ObserverState.t → A) (c : obs B) (k : B → obs C) :
  keeps proj c → (∀ x, keeps proj (k x)) → keeps proj (c ≫= k).
Proof.
  intros Hc Hk st. unfold mbind, obs_bind. specialize (Hc st).
  destruct (c st) as [[x|e] st1]; simpl in *; [|assumption].
  now rewrite (Hk x st1).
Qed.

Lemma keeps_try {A} (proj : ObserverState.t → A) (body : obs unit) :
  keeps proj body → keeps proj (try_except_pass body).
Proof. intros Hb st. apply Hb. Qed.

Lemma keeps_for {A B} (proj : ObserverState.t → A) (l : list B) (body : B → obs unit) :
  (∀ x, keeps proj (body x)) → keeps proj (obs_for l body).
Proof.
  intros Hb. induction l as [|x l IH]; simpl; [apply keeps_ret|].
  apply keeps_bind; [apply Hb|intros _; exact IH].
Qed.

Ltac keeps_steps :=
  repeat first
    [ apply keeps_ret | apply keeps_get | apply keeps_lift
    | apply keeps_modify; intros; reflexivity
    | apply keeps_bind; [|intros]
    | apply keeps_try
    | apply keeps_for; intros
    | progress cbv zeta
    | match goal with |- keeps _ (match ?x with _ => _ end) => destruct x end ].

Lemma process_log_keeps_policy (block_data : BlockData.t) (voting_epoch : VotingEpoch.t)
    (log : LogEvent) :
  keeps ObserverState.signing_policy (process_log block_data voting_epoch log).
Proof. unfold process_log. destruct log; keeps_steps. Qed.

Lemma process_tx_keeps {A} (proj : ObserverState.t → A) (block_data : BlockData.t)
    (tx : TxData.t) :
  (∀ f st, proj (ObserverState.set_vrm f st) = proj st) →
  (∀ m i st, proj (ObserverState.record_parse m i st) = proj st) →
  keeps proj (process_tx ext config block_data tx).
Proof.
  intros Hvrm Hparse. unfold process_tx. cbv zeta.
  apply keeps_bind; [apply keeps_get|]. intros st0.
  destruct (EntityMapper.by_omni _ !! _) as [entity|]; [|apply keeps_ret].
  destruct (target_function_signatures config !! _) as [[| |]|]; [| | |apply keeps_ret];
    apply keeps_try;
    unfold submit1_body, submit2_body, submit_signatures_body;
    repeat first
      [ apply keeps_ret | apply keeps_lift
      | apply keeps_modify; intros; first [apply Hvrm | apply Hparse]
      | apply keeps_bind; [|intros]
      | match goal with |- keeps _ (match ?x with _ => _ end) => destruct x end ].
Qed.

Lemma run_validator_keeps_policy
    (validate : VotingRound.t → Entity.t → Configuration.t → exc (list Message.t))
    (r : VotingRound.t) :
  keeps ObserverState.signing_policy (run_validator config tia validate r).
Proof.
  unfold run_validator.
  apply keeps_bind; [apply keeps_get|]. intros st0.
  apply keeps_bind; [apply keeps_lift|]. intros entity.
  apply keeps_bind; [apply keeps_lift|]. intros issues.
  apply keeps_for. intros i. apply keeps_modify. reflexivity.
Qed.

(** X21: no block changes the signing policy of the loop, whatever its
    timestamp, logs and transactions, and whether its processing ends or
    raises; and no transaction changes the builder of the next policy or
    the issues emitted. *)
Theorem process_block_keeps_signing_policy (block_data : BlockData.t)
    (block_logs : list LogEvent) (st : ObserverState.t) :
  ObserverState.signing_policy (snd (process_block vef ext config tia block_data block_logs st))
  = ObserverState.signing_policy st ∧
  ∀ tx,
    ObserverState.spb (snd (process_tx ext config block_data tx st)) = ObserverState.spb st ∧
    ObserverState.emitted (snd (process_tx ext config block_data tx st))
    = ObserverState.emitted st.
Proof.
  split.
  - revert st. change (keeps ObserverState.signing_policy
                         (process_block vef ext config tia block_data block_logs)).
    unfold process_block. cbv zeta.
    apply keeps_bind; [intros st; now rewrite rollover_unchanged|]. intros _.
    apply keeps_bind; [apply keeps_for; intros; apply process_log_keeps_policy|]. intros _.
    apply keeps_bind;
      [apply keeps_for; intros; apply process_tx_keeps; intros; reflexivity|]. intros _.
    apply keeps_bind; [apply keeps_get|]. intros st0.
    apply keeps_bind; [apply keeps_lift|]. intros [rounds m].
    apply keeps_bind; [apply keeps_modify; intros; reflexivity|]. intros _.
    apply keeps_for. intros r.
    apply keeps_bind; [apply run_validator_keeps_policy|]. intros _.
    apply run_validator_keeps_policy.
  - intros tx. split.
    + apply (process_tx_keeps ObserverState.spb); intros; reflexivity.
    + apply (process_tx_keeps ObserverState.emitted); intros; reflexivity.
Qed.
End FrameFacts.

(** ** The FTSO validator: the commit check *)

Section FtsoCommitFacts.
Variable vef : VotingEpochFactory.
Variable ext : Collaborators.t.

Definition commit_mismatch (round : VotingRound.t) (config : Configuration.t) : Message.t :=
  ftso_issue round config CRITICAL
    "commit hash and reveal didn't match, causing reveal offence".

Ltac split_conditions :=
  repeat match goal with
         | H : context [if ?b then _ else _] |- _ => destruct b
         | |- context [if ?b then _ else _] => destruct b
         end.

Ltac message_in := apply list_elem_of_In; simpl; tauto.

Ltac message_not_in :=
  let Hin := fresh "Hin" in
  intros Hin; apply list_elem_of_In in Hin; simpl in Hin;
  repeat (destruct Hin as [Hin|Hin]; [discriminate Hin|]); exact Hin.

(** X22: when both a [submit_1] and a [submit_2] of the identity are
    selected, [validate_ftso] re-parses the calldata of the reveal and
    recomputes the commit hash: an exception of the generic parser, of the
    byte parser or of [commit_hash], or a reveal without FTSO payload
    ([AttributeError]), leaves the validator; when the reveal parses and
    the hash is computed, the validator can only raise from the signature
    recovery, and the issues returned contain the CRITICAL
    [commit hash and reveal didn't match, causing reveal offence] exactly
    when the hex of the committed hash differs from the hash recomputed
    from the submit address, the epoch id and the reveal, and they contain
    neither [no submit1 transaction] nor
    [no submit2 transaction, causing reveal offence]. *)
Theorem validate_ftso_commit_check (round : VotingRound.t) (entity : Entity.t)
    (config : Configuration.t)
    (s1v : WParsedPayload.t FtsoSubmit1.t) (s2v : WParsedPayload.t FtsoSubmit2.t) :
  ftso_submit_1 vef round entity = Some s1v →
  ftso_submit_2 vef round entity = Some s2v →
  match Collaborators.parse_generic_tx ext (WTxData.input (WParsedPayload.wtx_data s2v)) with
  | Raise e => validate_ftso vef ext round entity config = Raise e
  | Ok parsed =>
      match ParsedMessage.ftso parsed with
      | None => validate_ftso vef ext round entity config = Raise AttributeError
      | Some fp =>
          match Collaborators.uint256 ext (ParsedPayload.payload fp) with
          | Raise e => validate_ftso vef ext round entity config = Raise e
          | Ok (rnd, feed_v) =>
              match Collaborators.commit_hash ext (Entity.submit_address entity)
                      (VotingEpoch.id (VotingRound.voting_epoch round)) rnd feed_v with
              | Raise e => validate_ftso vef ext round entity config = Raise e
              | Ok hashed =>
                  match validate_ftso vef ext round entity config with
                  | Ok issues =>
                      (commit_mismatch round config ∈ issues ↔
                       (hex (FtsoSubmit1.commit_hash
                               (ParsedPayload.payload
                                  (WParsedPayload.parsed_payload s1v)))
                        ≠ hashed)) ∧
                      (no_submit1 round config ∉ issues) ∧
                      (reveal_offence round config ∉ issues)
                  | Raise e => ftso_recovery_raised vef ext round entity e
                  end
              end
          end
      end
  end.
Proof.
  intros H1 H2. unfold validate_ftso.
  fold (ftso_submit_1 vef round entity) (ftso_submit_2 vef round entity)
       (ftso_submit_sig vef round entity).
  rewrite H1, H2. simpl.
  destruct (Collaborators.parse_generic_tx ext _) as [parsed|e]; simpl; [|reflexivity].
  destruct (ParsedMessage.ftso parsed) as [fp|]; simpl; [|reflexivity].
  destruct (Collaborators.uint256 ext _) as [[rnd feed_v]|e]; simpl; [|reflexivity].
  destruct (Collaborators.commit_hash ext _ _ _ _) as [hashed|e]; simpl; [|reflexivity].
  destruct (String.eqb_spec
              (hex (FtsoSubmit1.commit_hash
                      (ParsedPayload.payload (WParsedPayload.parsed_payload s1v))))
              hashed)
    as [Heq|Hne]; simpl;
    match goal with
    | |- context [check_signature ?e ?mb ?en ?f ?s ?i] =>
        pose proof (check_signature_cases e mb en f s i) as Hc;
        destruct (check_signature e mb en f s i) as [issues|e']
    end;
    try exact Hc;
    unfold commit_mismatch, no_submit1, reveal_offence, ftso_issue.
  - split; [|split].
    + split; [|congruence]. intros Hin. exfalso. revert Hin.
      destruct Hc as [-> | ->]; split_conditions; message_not_in.
    + destruct Hc as [-> | ->]; split_conditions; message_not_in.
    + destruct Hc as [-> | ->]; split_conditions; message_not_in.
  - split; [|split].
    + split; [intros _; exact Hne|]. intros _.
      destruct Hc as [-> | ->]; split_conditions; message_in.
    + destruct Hc as [-> | ->]; split_conditions; message_not_in.
    + destruct Hc as [-> | ->]; split_conditions; message_not_in.
Qed.
End FtsoCommitFacts.

(** ** The FDC validator: failures, confirmation and the signature offence *)

Section FdcValidatorDetails.
Variable vef : VotingEpochFactory.
Variable ext : Collaborators.t.

Definition fdc_submit_2 (round : VotingRound.t) (entity : Entity.t)
    : option (WParsedPayload.t FdcSubmit2.t) :=
  WParsedPayloadList.extract_latest
    (ParsedPayloadMapper.lookup (Entity.identity_address entity)
       (FdcVotingRoundProtocol.submit_2 (VotingRound.fdc round)))
    {| start := VotingEpoch.start_s vef (VotingEpoch.next (VotingRound.voting_epoch round));
       stop := VotingEpoch.reveal_deadline vef
                 (VotingEpoch.next (VotingRound.voting_epoch round)) |}.

Definition fdc_submit_sig (round : VotingRound.t) (entity : Entity.t)
    : option (WParsedPayload.t SubmitSignatures.t) :=
  WParsedPayloadList.extract_latest
    (ParsedPayloadMapper.lookup (Entity.identity_address entity)
       (FdcVotingRoundProtocol.submit_signatures (VotingRound.fdc round)))
    {| start := VotingEpoch.reveal_deadline vef
                  (VotingEpoch.next (VotingRound.voting_epoch round));
       stop := sig_grace vef (VotingRound.voting_epoch round)
                 (FdcVotingRoundProtocol.finalization (VotingRound.fdc round)) |}.

Definition fdc_submit_sig_deadline (round : VotingRound.t) (entity : Entity.t)
    : option (WParsedPayload.t SubmitSignatures.t) :=
  WParsedPayloadList.extract_latest
    (ParsedPayloadMapper.lookup (Entity.identity_address entity)
       (FdcVotingRoundProtocol.submit_signatures (VotingRound.fdc round)))
    {| start := VotingEpoch.reveal_deadline vef
                  (VotingEpoch.next (VotingRound.voting_epoch round));
       stop := VotingEpoch.end_s vef (VotingEpoch.next (VotingRound.voting_epoch round)) |}.

Definition fdc_requests (round : VotingRound.t) : list AttestationRequest.t :=
  AttestationRequestMapper.sorted (FdcVotingRoundProtocol.requests (VotingRound.fdc round)).

Definition fdc_builder (round : VotingRound.t) (config : Configuration.t)
    : Message.builder_t :=
  Message.add (Configuration.chain_id config) (VotingRound.voting_epoch round) 200
    Message.builder.

Definition signature_offence (round : VotingRound.t) (config : Configuration.t)
    : Message.t :=
  Message.build (fdc_builder round config) CRITICAL
    "no submit signatures transaction, causing reveal offence".

(** The issue of the confirmation loop for the request [r] met at
    position [k] of the zip. *)
Definition unconfirmed (mb : Message.builder_t) (n_requests : Z) (k : nat)
    (r : AttestationRequest.t) : Message.t :=
  Message.build mb ERROR
    ("submit2 didn't confirm request that was part of consensus "
     +:+ representation (AttestationRequest.attestation_type r) +:+ "/"
     +:+ representation (AttestationRequest.source_id r)
     +:+ " at index " +:+ pretty (n_requests - 1 - Z.of_nat k)).

(** Position [k] of the zip holds a request of the consensus that the
    bit vector leaves out. *)
Definition left_out (requests : list AttestationRequest.t)
    (bit_vector consensus_bitvote : list bool) (k : nat) (r : AttestationRequest.t)
    : Prop :=
  requests !! k = Some r ∧ bit_vector !! k = Some false ∧
  consensus_bitvote !! k = Some true.

(** The signature recovery of [validate_fdc] raised [e]. *)
Definition fdc_recovery_raised (round : VotingRound.t) (entity : Entity.t) (e : PyExc)
    : Prop :=
  ∃ f sg,
    FdcVotingRoundProtocol.finalization (VotingRound.fdc round) = Some f ∧
    fdc_submit_sig round entity = Some sg ∧
    Collaborators.recover_address ext
      (SubmitSignatures.signature (ParsedPayload.payload (WParsedPayload.parsed_payload sg)))
      (Collaborators.to_message ext f) = Raise e.

Lemma confirm_loop_spec mb n rs : ∀ i bits cbits issues exp,
  ∃ extra,
    fst (confirm_loop mb n i rs bits cbits issues exp) = issues ++ extra ∧
    (∀ m, m ∈ extra ↔ ∃ k r, left_out rs bits cbits k r ∧ m = unconfirmed mb n (i + k) r) ∧
    (snd (confirm_loop mb n i rs bits cbits issues exp) = true ↔
     exp = true ∧ ∀ k r, ¬ left_out rs bits cbits k r).
Proof.
  induction rs as [|r rs IH]; intros i bits cbits issues exp.
  - exists []. simpl. rewrite app_nil_r. split; [reflexivity|]. split.
    + intros m. split; [intros Hm; inversion Hm|].
      intros (k & r & (Hk & _) & _). rewrite lookup_nil in Hk. discriminate.
    + split; [intros ->; split; [reflexivity|]|tauto].
      intros k r (Hk & _). rewrite lookup_nil in Hk. discriminate.
  - destruct bits as [|bit bits]; [|destruct cbits as [|cbit cbits]].
    + exists []. simpl. rewrite app_nil_r. split; [reflexivity|]. split.
      * intros m. split; [intros Hm; inversion Hm|].
        intros (k & r' & (_ & Hk & _) & _). rewrite lookup_nil in Hk. discriminate.
      * split; [intros ->; split; [reflexivity|]|tauto].
        intros k r' (_ & Hk & _). rewrite lookup_nil in Hk. discriminate.
    + exists []. simpl. rewrite app_nil_r. split; [reflexivity|]. split.
      * intros m. split; [intros Hm; inversion Hm|].
        intros (k & r' & (_ & _ & Hk) & _). rewrite lookup_nil in Hk. discriminate.
      * split; [intros ->; split; [reflexivity|]|tauto].
        intros k r' (_ & _ & Hk). rewrite lookup_nil in Hk. discriminate.
    + cbn [confirm_loop]. cbv zeta.
      destruct (cbit && negb bit) eqn:Hc.
      * apply andb_true_iff in Hc as [-> Hb]. apply negb_true_iff in Hb as ->.
        destruct (IH (S i) bits cbits (issues ++ [unconfirmed mb n i r]) false)
          as (extra & Hfst & Hmem & Hsnd).
        exists (unconfirmed mb n i r :: extra).
        split; [|split].
        -- unfold unconfirmed in Hfst |- *. rewrite Hfst, <- app_assoc. reflexivity.
        -- intros m. rewrite elem_of_cons, Hmem. split.
           ++ intros [-> | (k & r' & (Hr & Hb & Hcb) & ->)].
              ** exists 0%nat, r. rewrite Nat.add_0_r.
                 split; [|reflexivity]. repeat split; reflexivity.
              ** exists (S k), r'. rewrite Nat.add_succ_r.
                 split; [|reflexivity]. repeat split; assumption.
           ++ intros ([|k] & r' & (Hr & Hb & Hcb) & ->).
              ** left. simpl in Hr. injection Hr as <-. rewrite Nat.add_0_r. reflexivity.
              ** right. exists k, r'. rewrite Nat.add_succ_r.
                 split; [|reflexivity]. repeat split; assumption.
        -- unfold unconfirmed in Hsnd. rewrite Hsnd.
           split; [intros [? _]; discriminate|].
           intros [_ Hno]. exfalso. apply (Hno 0%nat r). repeat split; reflexivity.
      * destruct (IH (S i) bits cbits issues exp) as (extra & Hfst & Hmem & Hsnd).
        exists extra. split; [exact Hfst|]. split.
        -- intros m. rewrite Hmem. split.
           ++ intros (k & r' & (Hr & Hb & Hcb) & ->).
              exists (S k), r'. rewrite Nat.add_succ_r.
              split; [|reflexivity]. repeat split; assumption.
           ++ intros ([|k] & r' & (Hr & Hb & Hcb) & ->).
              ** simpl in Hb, Hcb. injection Hb as ->. injection Hcb as ->. discriminate.
              ** exists k, r'. rewrite Nat.add_succ_r.
                 split; [|reflexivity]. repeat split; assumption.
        -- rewrite Hsnd. split; intros [He Hno]; (split; [exact He|]).
           ++ intros [|k] r' (Hr & Hb & Hcb).
              ** simpl in Hb, Hcb. injection Hb as ->. injection Hcb as ->. discriminate.
              ** apply (Hno k r'). repeat split; assumption.
           ++ intros k r' (Hr & Hb & Hcb). apply (Hno (S k) r'). repeat split; assumption.
Qed.

(** X23: with a byte parser whose [uint16] is never negative, an
    exception leaves [validate_fdc] in five ways only: [IndexError] on an
    empty tally; the exception of [uint16] on the most frequent payload;
    [ValueError] of the inflation when the payload sets a bit at or beyond
    the announced number of requests; [AssertionError] when the number of
    distinct requests of the round differs from the announced one; the
    exception of the signature recovery. *)
Theorem validate_fdc_failure_modes (round : VotingRound.t) (entity : Entity.t)
    (config : Configuration.t) (e : PyExc) :
  (∀ b n rest, Collaborators.uint16 ext b = Ok (n, rest) → 0 <= n) →
  validate_fdc vef ext round entity config = Raise e →
  (FdcVotingRoundProtocol.consensus_bitvote (VotingRound.fdc round) = OrderedDict.empty ∧
   e = IndexError) ∨
  ∃ top,
    py_index (sorted_by_count_desc
                (FdcVotingRoundProtocol.consensus_bitvote (VotingRound.fdc round))) 0
    = Ok top ∧
    (Collaborators.uint16 ext (fst top) = Raise e ∨
     ∃ n votes,
       Collaborators.uint16 ext (fst top) = Ok (n, votes) ∧
       ((set_bit_beyond n 0 (rev votes) ∧ e = invalid_payload_length) ∨
        (¬ set_bit_beyond n 0 (rev votes) ∧
         Z.of_nat (length (fdc_requests round)) ≠ n ∧ e = AssertionError) ∨
        (¬ set_bit_beyond n 0 (rev votes) ∧
         Z.of_nat (length (fdc_requests round)) = n ∧
         fdc_recovery_raised round entity e))).
Proof.
  intros Hu H. unfold validate_fdc in H.
  fold (fdc_submit_2 round entity) (fdc_submit_sig round entity)
       (fdc_submit_sig_deadline round entity) (fdc_requests round)
       (fdc_builder round config) in H.
  destruct (py_index _ 0) as [top|e0] eqn:Etop; simpl in H.
  - right. exists top. split; [reflexivity|].
    destruct (Collaborators.uint16 ext (fst top)) as [[n votes]|e1] eqn:Eu; simpl in H;
      [|left; congruence].
    right. exists n, votes. split; [reflexivity|].
    destruct (inflate_bitvote_cases n votes (Hu _ _ _ Eu)) as [[Hr Hb]|[Hr Hb]];
      rewrite Hr in H; simpl in H.
    + left. split; [exact Hb|congruence].
    + right. destruct (Z.eqb_spec (Z.of_nat (length (fdc_requests round))) n) as [Hn|Hn];
        simpl in H.
      * right. split; [exact Hb|]. split; [exact Hn|].
        destruct (fdc_submit_2 round entity) as [s2v|]; simpl in H;
          [destruct (negb (_ =? _)) in H;
           [|destruct (confirm_loop _ _ _ _ _ _ _ _) as [issues exp] in H]|];
          match type of H with
          | context [check_signature ?x ?mb ?en ?f ?sg ?i] =>
              pose proof (check_signature_cases x mb en f sg i) as Hc
          end; rewrite H in Hc; exact Hc.
      * left. split; [exact Hb|]. split; [exact Hn|congruence].
  - left. unfold py_index in Etop.
    destruct (sorted_by_count_desc _ !! 0%nat) as [x|] eqn:El; [discriminate|].
    split; [|congruence].
    apply lookup_ge_None in El. unfold sorted_by_count_desc in El.
    rewrite (Permutation_length (py_sorted_perm _ _)) in El.
    unfold OrderedDict.items in El.
    destruct (FdcVotingRoundProtocol.consensus_bitvote (VotingRound.fdc round));
      [reflexivity|simpl in El; lia].
Qed.

(** X24: when [validate_fdc] returns issues, the tally has a most
    frequent payload, [uint16] read a number of requests [n] from it, the
    inflation gave a consensus bit vector, and the round has [n] distinct
    requests.  The issues then contain the CRITICAL
    [no submit signatures transaction, causing reveal offence] exactly when
    a [submit_2] is selected, its number of requests is [n], its bit vector
    leaves out no request of the consensus, and no signature submission
    lies between the reveal deadline and the end of the next epoch; and
    for a selected [submit_2] announcing [n] requests they contain, for
    every request of the consensus that its bit vector leaves out, the
    ERROR naming that request and the index [n - 1 - k]. *)
Theorem validate_fdc_confirmation (round : VotingRound.t) (entity : Entity.t)
    (config : Configuration.t) (issues : list Message.t) :
  validate_fdc vef ext round entity config = Ok issues →
  ∃ top n votes consensus,
    py_index (sorted_by_count_desc
                (FdcVotingRoundProtocol.consensus_bitvote (VotingRound.fdc round))) 0
    = Ok top ∧
    Collaborators.uint16 ext (fst top) = Ok (n, votes) ∧
    inflate_bitvote n votes = Ok consensus ∧
    Z.of_nat (length (fdc_requests round)) = n ∧
    (signature_offence round config ∈ issues ↔
     ∃ s2v,
       fdc_submit_2 round entity = Some s2v ∧
       FdcSubmit2.number_of_requests
         (ParsedPayload.payload (WParsedPayload.parsed_payload s2v)) = n ∧
       (∀ k r, ¬ left_out (fdc_requests round)
                   (FdcSubmit2.bit_vector
                      (ParsedPayload.payload (WParsedPayload.parsed_payload s2v)))
                   consensus k r) ∧
       fdc_submit_sig_deadline round entity = None) ∧
    (∀ s2v k r,
       fdc_submit_2 round entity = Some s2v →
       FdcSubmit2.number_of_requests
         (ParsedPayload.payload (WParsedPayload.parsed_payload s2v)) = n →
       left_out (fdc_requests round)
         (FdcSubmit2.bit_vector
            (ParsedPayload.payload (WParsedPayload.parsed_payload s2v)))
         consensus k r →
       unconfirmed (fdc_builder round config) n k r ∈ issues).
Proof.
  intros H. unfold validate_fdc in H.
  fold (fdc_submit_2 round entity) (fdc_submit_sig round entity)
       (fdc_submit_sig_deadline round entity) (fdc_requests round)
       (fdc_builder round config) in H.
  destruct (py_index _ 0) as [top|e0] eqn:Etop; simpl in H; [|discriminate].
  destruct (Collaborators.uint16 ext (fst top)) as [[n votes]|e1] eqn:Eu; simpl in H;
    [|discriminate].
  destruct (inflate_bitvote n votes) as [consensus|e2] eqn:Ei; simpl in H; [|discriminate].
  destruct (Z.eqb_spec (Z.of_nat (length (fdc_requests round))) n) as [Hn|Hn];
    simpl in H; [|discriminate].
  exists top, n, votes, consensus. repeat (split; [reflexivity || assumption|]).
  destruct (fdc_submit_2 round entity) as [s2v|] eqn:E2; simpl in H.
  - destruct (Z.eqb_spec
                (FdcSubmit2.number_of_requests
                   (ParsedPayload.payload (WParsedPayload.parsed_payload s2v)))
                (Z.of_nat (length (fdc_requests round)))) as [Hnum|Hnum]; simpl in H.
    + destruct (confirm_loop_spec (fdc_builder round config) n (fdc_requests round) 0
                  (FdcSubmit2.bit_vector
                     (ParsedPayload.payload (WParsedPayload.parsed_payload s2v)))
                  consensus [] true) as (extra & Hfst & Hmem & Hsnd).
      destruct (confirm_loop _ _ _ _ _ _ _ _) as [iss exp].
      simpl in Hfst, Hsnd. subst iss.
      assert (Hout : signature_offence round config ∉ extra).
      { intros Hin. apply Hmem in Hin as (k & r & _ & Heq). discriminate Heq. }
      assert (Hin : ∀ k r,
                 left_out (fdc_requests round)
                   (FdcSubmit2.bit_vector
                      (ParsedPayload.payload (WParsedPayload.parsed_payload s2v)))
                   consensus k r →
                 unconfirmed (fdc_builder round config) n k r ∈ extra).
      { intros k r Hl. apply Hmem. exists k, r. split; [exact Hl|reflexivity]. }
      match type of H with
      | context [check_signature ?x ?mb ?en ?f ?sg ?i] =>
          pose proof (check_signature_cases x mb en f sg i) as Hc
      end.
      rewrite H in Hc. clear H.
      split.
      * split.
        -- intros Hoff. exists s2v. split; [reflexivity|]. split; [congruence|].
           destruct exp.
           ++ split; [apply Hsnd; reflexivity|].
              destruct (fdc_submit_sig_deadline round entity) as [sd|]; [|reflexivity].
              exfalso. simpl in Hc.
              destruct (fdc_submit_sig round entity); simpl in Hc;
                destruct Hc as [-> | ->];
                rewrite ?elem_of_app, ?list_elem_of_singleton in Hoff;
                unfold signature_offence in Hoff;
                repeat (match type of Hoff with _ ∨ _ => destruct Hoff as [Hoff|Hoff] end);
                first [discriminate Hoff|exact (Hout Hoff)].
           ++ exfalso. simpl in Hc.
              destruct (_ && _) in Hc; destruct Hc as [-> | ->];
                rewrite ?elem_of_app, ?list_elem_of_singleton in Hoff;
                unfold signature_offence in Hoff;
                repeat (match type of Hoff with _ ∨ _ => destruct Hoff as [Hoff|Hoff] end);
                first [discriminate Hoff|exact (Hout Hoff)].
        -- intros (s2v0 & Hs & _ & Hno & Hd). injection Hs as <-.
           assert (exp = true) as -> by (apply Hsnd; split; [reflexivity|exact Hno]).
           rewrite Hd in Hc. simpl in Hc.
           destruct Hc as [-> | ->];
             rewrite ?elem_of_app, ?list_elem_of_singleton;
             unfold signature_offence; auto.
      * intros s2v0 k r Hs _ Hl. injection Hs as <-. apply Hin in Hl.
        destruct (_ && _) in Hc; destruct (_ && _) in Hc; destruct Hc as [-> | ->];
          rewrite ?elem_of_app; auto.
    + match type of H with
      | context [check_signature ?x ?mb ?en ?f ?sg ?i] =>
          pose proof (check_signature_cases x mb en f sg i) as Hc
      end.
      rewrite H in Hc. clear H.
      split.
      * split.
        -- intros Hoff. exfalso.
           destruct (_ && _) in Hc; destruct Hc as [-> | ->];
             apply list_elem_of_In in Hoff; simpl in Hoff;
             unfold signature_offence in Hoff;
             repeat (match type of Hoff with _ ∨ _ => destruct Hoff as [Hoff|Hoff] end);
             first [discriminate Hoff|exact Hoff].
        -- intros (s2v0 & Hs & Hnum' & _). injection Hs as <-. congruence.
      * intros s2v0 k r Hs Hnum' _. injection Hs as <-. congruence.
  - match type of H with
    | context [check_signature ?x ?mb ?en ?f ?sg ?i] =>
        pose proof (check_signature_cases x mb en f sg i) as Hc
    end.
    rewrite H in Hc. clear H.
    split.
    + split.
      * intros Hoff. exfalso.
        destruct (negb _) in Hc; destruct Hc as [-> | ->];
          apply list_elem_of_In in Hoff; simpl in Hoff;
          unfold signature_offence in Hoff;
          repeat (match type of Hoff with _ ∨ _ => destruct Hoff as [Hoff|Hoff] end);
          first [discriminate Hoff|exact Hoff].
      * intros (s2v0 & Hs & _). discriminate Hs.
    + intros s2v0 k r Hs. discriminate Hs.
Qed.
End FdcValidatorDetails.

(** ** The validators at the end of a block *)

Section BlockValidation.
Variable vef : VotingEpochFactory.
Variable ext : Collaborators.t.
Variable config : Configuration.t.
Variable tia : string.

(** The two loops over the logs and the transactions of a block. *)
Definition ingest (block_data : BlockData.t) (block_logs : list LogEvent) : obs unit :=
  _ ← obs_for block_logs
        (process_log block_data
           (VotingEpoch.from_timestamp vef (BlockData.timestamp block_data)));
  obs_for (BlockData.transactions block_data) (process_tx ext config block_data).

(** The state [st] with the manager [m] and the further issues [issues]. *)
Definition validated (st : ObserverState.t) (m : VotingRoundManager.t)
    (issues : list Message.t) : ObserverState.t :=
  ObserverState.mk (ObserverState.signing_policy st) (ObserverState.spb st) m
    (ObserverState.emitted st ++ issues) (ObserverState.parse_calls st).

(** Both validators return on the round [r], with the issues [issues]. *)
Definition round_issues (entity : Entity.t) (r : VotingRound.t)
    (issues : list Message.t) : Prop :=
  ∃ f d, validate_ftso vef ext r entity config = Ok f ∧
         validate_fdc vef ext r entity config = Ok d ∧
         issues = f ++ d.

(** The target identity [tia] is the identity address of [entity] in the
    policy of [st]. *)
Definition monitored (st : ObserverState.t) (entity : Entity.t) : Prop :=
  EntityMapper.by_identity_address
    (SigningPolicy.entity_mapper (ObserverState.signing_policy st))
  !! tia = Some entity.

Lemma obs_bind_eq {A B} (c : obs A) (k : A → obs B) (st : ObserverState.t) :
  (c ≫= k) st
  = match c st with
    | (Ok a, st') => k a st'
    | (Raise e, st') => (Raise e, st')
    end.
Proof. reflexivity. Qed.

Lemma emit_loop (issues : list Message.t) (st : ObserverState.t) :
  obs_for issues (λ i, obs_modify (ObserverState.emit i)) st
  = (Ok tt, validated st (ObserverState.vrm st) issues).
Proof.
  revert st. induction issues as [|i issues IH]; intros st.
  - unfold validated. rewrite app_nil_r. destruct st; reflexivity.
  - cbn [obs_for]. unfold mbind, obs_bind, obs_modify. rewrite IH.
    unfold validated, ObserverState.emit. simpl. rewrite <- app_assoc. reflexivity.
Qed.

Lemma run_validator_monitored validate (r : VotingRound.t) (st : ObserverState.t)
    (entity : Entity.t) :
  monitored st entity →
  run_validator config tia validate r st
  = match validate r entity config with
    | Ok issues => (Ok tt, validated st (ObserverState.vrm st) issues)
    | Raise e => (Raise e, st)
    end.
Proof.
  intros Hm. unfold run_validator, mbind, obs_bind, obs_get, obs_lift, py_getitem.
  unfold monitored in Hm. rewrite Hm.
  destruct (validate r entity config) as [issues|e]; [apply emit_loop|reflexivity].
Qed.

Lemma ingest_keeps_policy (block_data : BlockData.t) (block_logs : list LogEvent)
    (st : ObserverState.t) :
  ObserverState.signing_policy (snd (ingest block_data block_logs st))
  = ObserverState.signing_policy st.
Proof.
  revert st. change (keeps ObserverState.signing_policy (ingest block_data block_logs)).
  unfold ingest.
  apply keeps_bind; [apply keeps_for; intros; apply process_log_keeps_policy|]. intros _.
  apply keeps_for; intros; apply process_tx_keeps; intros; reflexivity.
Qed.

Lemma ingest_monitored (block_data : BlockData.t) (block_logs : list LogEvent)
    (st st1 : ObserverState.t) (entity : Entity.t) :
  ingest block_data block_logs st = (Ok tt, st1) →
  monitored st entity → monitored st1 entity.
Proof.
  intros Hi Hm. pose proof (ingest_keeps_policy block_data block_logs st) as Hk.
  rewrite Hi in Hk. simpl in Hk. unfold monitored. rewrite Hk. exact Hm.
Qed.

Lemma process_block_ingest (block_data : BlockData.t) (block_logs : list LogEvent)
    (st st1 : ObserverState.t) (rounds : list VotingRound.t) (m : VotingRoundManager.t) :
  ingest block_data block_logs st = (Ok tt, st1) →
  VotingRoundManager.finalize vef block_data (ObserverState.vrm st1) = Ok (rounds, m) →
  process_block vef ext config tia block_data block_logs st
  = obs_for rounds (λ r,
      _ ← run_validator config tia (validate_ftso vef ext) r;
      run_validator config tia (validate_fdc vef ext) r) (validated st1 m []).
Proof.
  intros Hi Hf. unfold process_block. cbv zeta.
  rewrite obs_bind_eq, rollover_unchanged.
  unfold ingest in Hi. rewrite obs_bind_eq in Hi. rewrite obs_bind_eq.
  destruct (obs_for block_logs _ st) as [[[]|e] st0]; [|discriminate].
  rewrite obs_bind_eq, Hi. rewrite obs_bind_eq. unfold obs_get at 1.
  rewrite obs_bind_eq. unfold obs_lift at 1. rewrite Hf.
  rewrite obs_bind_eq. unfold obs_modify at 1.
  unfold validated, ObserverState.set_vrm. rewrite app_nil_r. reflexivity.
Qed.

Lemma validated_again (st : ObserverState.t) (m m' : VotingRoundManager.t)
    (a b : list Message.t) :
  validated (validated st m a) m' b = validated st m' (a ++ b).
Proof. unfold validated. simpl. rewrite app_assoc. reflexivity. Qed.

Lemma validated_vrm (st : ObserverState.t) (m : VotingRoundManager.t)
    (a : list Message.t) :
  ObserverState.vrm (validated st m a) = m.
Proof. reflexivity. Qed.

Lemma monitored_validated (st : ObserverState.t) (m : VotingRoundManager.t)
    (a : list Message.t) (entity : Entity.t) :
  monitored st entity → monitored (validated st m a) entity.
Proof. intros H. exact H. Qed.

Lemma validators_return (entity : Entity.t) (rounds : list VotingRound.t)
    (per_round : list (list Message.t)) :
  Forall2 (round_issues entity) rounds per_round →
  ∀ st m a, monitored st entity →
    obs_for rounds (λ r,
      _ ← run_validator config tia (validate_ftso vef ext) r;
      run_validator config tia (validate_fdc vef ext) r) (validated st m a)
    = (Ok tt, validated st m (a ++ concat per_round)).
Proof.
  induction 1 as [|r issues rounds per_round (f & d & Hf & Hd & ->) _ IH];
    intros st m a Hm.
  - simpl. rewrite app_nil_r. reflexivity.
  - cbn [obs_for concat]. rewrite !obs_bind_eq.
    rewrite (run_validator_monitored _ _ _ entity) by exact Hm.
    rewrite Hf, validated_vrm, validated_again.
    rewrite (run_validator_monitored _ _ _ entity) by exact Hm.
    rewrite Hd, validated_vrm, validated_again.
    rewrite IH by exact Hm. rewrite <- !app_assoc. reflexivity.
Qed.

Lemma validators_raise (entity : Entity.t) (r : VotingRound.t)
    (rest : list VotingRound.t) (last : list Message.t) (e : PyExc)
    (done : list VotingRound.t) (per_round : list (list Message.t)) :
  (validate_ftso vef ext r entity config = Raise e ∧ last = []) ∨
  (validate_ftso vef ext r entity config = Ok last ∧
   validate_fdc vef ext r entity config = Raise e) →
  Forall2 (round_issues entity) done per_round →
  ∀ st m a, monitored st entity →
    obs_for (done ++ r :: rest) (λ r,
      _ ← run_validator config tia (validate_ftso vef ext) r;
      run_validator config tia (validate_fdc vef ext) r) (validated st m a)
    = (Raise e, validated st m (a ++ concat per_round ++ last)).
Proof.
  intros He.
  induction 1 as [|r0 issues done per_round (f & d & Hf & Hd & ->) _ IH];
    intros st m a Hm.
  - simpl app. cbn [obs_for concat]. rewrite !obs_bind_eq.
    rewrite (run_validator_monitored _ _ _ entity) by exact Hm.
    destruct He as [[Hf ->]|[Hf Hd]]; rewrite Hf.
    + rewrite app_nil_r. reflexivity.
    + rewrite validated_vrm, validated_again.
      rewrite (run_validator_monitored _ _ _ entity) by exact Hm.
      rewrite Hd. reflexivity.
  - rewrite <- app_comm_cons. cbn [obs_for concat]. rewrite !obs_bind_eq.
    rewrite (run_validator_monitored _ _ _ entity) by exact Hm.
    rewrite Hf, validated_vrm, validated_again.
    rewrite (run_validator_monitored _ _ _ entity) by exact Hm.
    rewrite Hd, validated_vrm, validated_again.
    rewrite IH by exact Hm. rewrite <- !app_assoc. reflexivity.
Qed.

(** X25: when the logs and the transactions of a block are ingested
    without exception, [finalize] returns [rounds], the target identity
    [tia] is registered in the current policy and both validators
    return on every round, the block ends normally: the manager is the one
    [finalize] left and the issues emitted are those before the block
    followed, round by round in the order of [rounds], by the FTSO issues
    and then the FDC issues of the round. *)
Theorem process_block_emits_issues (block_data : BlockData.t)
    (block_logs : list LogEvent) (st st1 : ObserverState.t)
    (rounds : list VotingRound.t) (m : VotingRoundManager.t) (entity : Entity.t)
    (per_round : list (list Message.t)) :
  ingest block_data block_logs st = (Ok tt, st1) →
  VotingRoundManager.finalize vef block_data (ObserverState.vrm st1) = Ok (rounds, m) →
  monitored st entity →
  Forall2 (round_issues entity) rounds per_round →
  process_block vef ext config tia block_data block_logs st
  = (Ok tt, validated st1 m (concat per_round)).
Proof.
  intros Hi Hf Hm Hr.
  rewrite (process_block_ingest _ _ _ _ _ _ Hi Hf).
  apply (validators_return entity rounds per_round Hr st1 m []).
  exact (ingest_monitored _ _ _ _ _ Hi Hm).
Qed.

(** X26: the validators are not guarded.  When the rounds returned by
    [finalize] are [done ++ r :: rest], both validators return on the
    rounds of [done] and a validator raises [e] on [r], the block raises
    [e]: the manager has already lost the rounds returned, the issues of
    [done] were emitted, with the FTSO issues of [r] when it is the FDC
    validator that raised, and no round of [rest] is validated. *)
Theorem process_block_validator_raises (block_data : BlockData.t)
    (block_logs : list LogEvent) (st st1 : ObserverState.t)
    (done : list VotingRound.t) (r : VotingRound.t) (rest : list VotingRound.t)
    (m : VotingRoundManager.t) (entity : Entity.t)
    (per_round : list (list Message.t)) (last : list Message.t) (e : PyExc) :
  ingest block_data block_logs st = (Ok tt, st1) →
  VotingRoundManager.finalize vef block_data (ObserverState.vrm st1)
  = Ok (done ++ r :: rest, m) →
  monitored st entity →
  Forall2 (round_issues entity) done per_round →
  (validate_ftso vef ext r entity config = Raise e ∧ last = []) ∨
  (validate_ftso vef ext r entity config = Ok last ∧
   validate_fdc vef ext r entity config = Raise e) →
  process_block vef ext config tia block_data block_logs st
  = (Raise e, validated st1 m (concat per_round ++ last)).
Proof.
  intros Hi Hf Hm Hr He.
  rewrite (process_block_ingest _ _ _ _ _ _ Hi Hf).
  apply (validators_raise entity r rest last e done per_round He Hr st1 m []).
  exact (ingest_monitored _ _ _ _ _ Hi Hm).
Qed.

(** X27: when the target identity [tia], the checksum form of the
    configured identity, is not an identity address of the current policy, a block whose logs and transactions
    are ingested ends normally if [finalize] returns no round, and raises
    [KeyError] at the first round returned otherwise, before any issue is
    emitted; in both cases the manager is the one [finalize] left. *)
Theorem process_block_unregistered_identity (block_data : BlockData.t)
    (block_logs : list LogEvent) (st st1 : ObserverState.t)
    (rounds : list VotingRound.t) (m : VotingRoundManager.t) :
  ingest block_data block_logs st = (Ok tt, st1) →
  VotingRoundManager.finalize vef block_data (ObserverState.vrm st1) = Ok (rounds, m) →
  EntityMapper.by_identity_address
    (SigningPolicy.entity_mapper (ObserverState.signing_policy st))
  !! tia = None →
  process_block vef ext config tia block_data block_logs st
  = (match rounds with [] => Ok tt | _ :: _ => Raise KeyError end, validated st1 m []).
Proof.
  intros Hi Hf Hn.
  rewrite (process_block_ingest _ _ _ _ _ _ Hi Hf).
  destruct rounds as [|r rest]; [reflexivity|].
  cbn [obs_for]. rewrite !obs_bind_eq.
  unfold run_validator at 1. rewrite !obs_bind_eq. unfold obs_get at 1, obs_lift at 1.
  pose proof (ingest_keeps_policy block_data block_logs st) as Hk.
  rewrite Hi in Hk. simpl in Hk.
  unfold py_getitem. cbn [validated ObserverState.signing_policy].
  rewrite Hk, Hn. reflexivity.
Qed.
End BlockValidation.

(** * Further concrete runs *)

(** *** The builder and the historical scan *)

(** The events of reward epoch 2 before the policy is initialized, in the
    order of the chain. *)
Definition events_before_initialized : list PolicyEvent :=
  [EvRandomAcquisitionStarted (RandomAcquisitionStarted.mk 2);
   EvVotePowerBlockSelected (VotePowerBlockSelected.mk 2 123456)]
  ++ (EvVoterRegistered <$> registered_sample)
  ++ (EvVoterRegistrationInfo <$> registration_info_sample).

Definition events_sample : list PolicyEvent :=
  events_before_initialized ++ [EvSigningPolicyInitialized initialized_sample].

Lemma build_by_omni_indexes_entities_witness :
  ∃ sp,
    SigningPolicyBuilder.build builder_sample = Ok sp ∧
    (∀ a e, EntityMapper.by_omni (SigningPolicy.entity_mapper sp) !! a = Some e →
            e ∈ SigningPolicy.entities sp ∧ a ∈ addresses e) ∧
    (∀ e a, e ∈ SigningPolicy.entities sp → a ∈ addresses e →
            is_Some (EntityMapper.by_omni (SigningPolicy.entity_mapper sp) !! a)).
Proof.
  eexists. split; [vm_compute; reflexivity|].
  refine (let H := build_by_omni_indexes_entities builder_sample _ _ in
          conj (proj1 H) (proj1 (proj2 H))).
  vm_compute. reflexivity.
Defined.

Lemma add_all_appends_witness :
  add_all events_sample
    (SigningPolicyBuilder.for_epoch (RewardEpoch.mk 2) SigningPolicyBuilder.builder)
  = Ok builder_sample ∧
  SigningPolicyBuilder.voter_registered builder_sample
  = [] ++ registered_of events_sample ∧
  SigningPolicyBuilder.voter_registration_info builder_sample
  = [] ++ registration_info_of events_sample.
Proof.
  split; [reflexivity|].
  refine (let H := add_all_appends events_sample
                     (SigningPolicyBuilder.for_epoch (RewardEpoch.mk 2)
                        SigningPolicyBuilder.builder)
                     builder_sample _ in
          conj (proj1 (proj2 (proj2 (proj2 (proj2 H)))))
               (proj1 (proj2 (proj2 (proj2 (proj2 (proj2 H))))))).
  reflexivity.
Defined.

Lemma build_ok_requires_witness :
  ∃ sp re ras vpbs spi,
    SigningPolicyBuilder.build builder_sample = Ok sp ∧
    SigningPolicyBuilder.reward_epoch builder_sample = Some re ∧
    SigningPolicyBuilder.random_acquisation_started builder_sample = Some ras ∧
    RandomAcquisitionStarted.reward_epoch_id ras = RewardEpoch.id re ∧
    SigningPolicyBuilder.vote_power_block_selected builder_sample = Some vpbs ∧
    VotePowerBlockSelected.reward_epoch_id vpbs = RewardEpoch.id re ∧
    SigningPolicyBuilder.signing_policy_initialized builder_sample = Some spi ∧
    SigningPolicyInitialized.reward_epoch_id spi = RewardEpoch.id re.
Proof.
  destruct (SigningPolicyBuilder.build builder_sample) as [sp|e] eqn:E;
    [|vm_compute in E; discriminate E].
  destruct (build_ok_requires builder_sample sp E)
    as (re & ras & vpbs & spi & H1 & H2 & H3 & H4 & H5 & H6 & H7 & _).
  exists sp, re, ras, vpbs, spi. split; [reflexivity|].
  repeat (split; [assumption|]). assumption.
Defined.

(** A scan that meets other logs, the events of the epoch, and a removal
    after the initialization. *)
Lemma scan_ends_at_initialized_witness :
  get_signing_policy_events (RewardEpoch.mk 2)
    ((LogOther :: (LogPolicy <$> events_before_initialized))
     ++ LogPolicy (EvSigningPolicyInitialized initialized_sample)
     :: [LogPolicy (EvVoterRemoved (VoterRemoved.mk 2 "0xIdA")); LogOther])
  = get_signing_policy_events (RewardEpoch.mk 2)
      ((LogOther :: (LogPolicy <$> events_before_initialized))
       ++ [LogPolicy (EvSigningPolicyInitialized initialized_sample)]) ∧
  get_signing_policy_events (RewardEpoch.mk 2)
    (LogOther :: (LogPolicy <$> events_before_initialized))
  = Raise AssertionError.
Proof.
  apply (scan_ends_at_initialized (RewardEpoch.mk 2)
           (LogOther :: (LogPolicy <$> events_before_initialized))
           [LogPolicy (EvVoterRemoved (VoterRemoved.mk 2 "0xIdA")); LogOther]
           initialized_sample).
  apply Forall_forall. intros log Hin. apply list_elem_of_In in Hin. simpl in Hin.
  repeat (destruct Hin as [<-|Hin]; [reflexivity|]). destruct Hin.
Defined.

(** *** Selections *)

Definition submit1_at (ts : Z) : WParsedPayload.t FtsoSubmit1.t :=
  WParsedPayload.mk (ParsedPayload.mk 100 0 (FtsoSubmit1.mk [xaa])) (wtx_sample ts).

(** Two submissions of the same second inside the window, one before it. *)
Lemma extract_latest_first_of_latest_witness :
  ∃ l1 l2,
    [submit1_at 1658429990; submit1_at 1658430020; submit1_at 1658430020]
    = l1 ++ submit1_at 1658430020 :: l2 ∧
    (∀ y, y ∈ l1 → 1658430000 <= ts_of y < 1658430090 → ts_of y < 1658430020) ∧
    (∀ y, y ∈ l2 → 1658430000 <= ts_of y < 1658430090 → ts_of y <= 1658430020).
Proof.
  apply (extract_latest_first_of_latest
           [submit1_at 1658429990; submit1_at 1658430020; submit1_at 1658430020]
           {| start := 1658430000; stop := 1658430090 |}
           (submit1_at 1658430020)).
  reflexivity.
Defined.

(** *** The round manager *)

(** [VotingRoundManager(3)] after [get] of the epochs 5 and 7. *)
Definition manager_two_rounds : VotingRoundManager.t :=
  VotingRoundManager.update (ve 7) (λ r, r)
    (VotingRoundManager.update (ve 5) (λ r, r) (VotingRoundManager.init 3)).

(** A block after the end of epoch 6 and before the end of epoch 8. *)
Definition block_after_epoch_6 : BlockData.t := BlockData.mk 1 1658430700 [].

Lemma manager_two_rounds_wf : manager_wf manager_two_rounds.
Proof.
  apply manager_wf_update; [reflexivity|].
  apply manager_wf_update; [reflexivity|]. apply manager_wf_init.
Defined.

Lemma finalize_ascending_witness :
  VotingRoundManager.finalize vef_sample block_after_epoch_6 manager_two_rounds
  = Ok ([VotingRound.init (ve 5)],
        VotingRoundManager.mk 5 [(ve 7, VotingRound.init (ve 7))]).
Proof.
  apply (finalize_ascending vef_sample block_after_epoch_6 manager_two_rounds).
  repeat constructor.
Defined.

Lemma finalize_returns_completed_witness :
  (∀ r, r ∈ [VotingRound.init (ve 5)] →
     ∃ k, (k, r) ∈ VotingRoundManager.rounds manager_two_rounds ∧
          VotingRoundManager.finalized manager_two_rounds < VotingEpoch.id k ∧
          VotingEpoch.end_s vef_sample (VotingEpoch.next k)
          < BlockData.timestamp block_after_epoch_6) ∧
  (∀ p, p ∈ [(ve 7, VotingRound.init (ve 7))] →
        p ∈ VotingRoundManager.rounds manager_two_rounds) ∧
  VotingRoundManager.finalized manager_two_rounds <= 5.
Proof.
  apply (finalize_returns_completed vef_sample block_after_epoch_6 manager_two_rounds
           (VotingRoundManager.mk 5 [(ve 7, VotingRound.init (ve 7))])
           [VotingRound.init (ve 5)]).
  reflexivity.
Defined.

Lemma finalize_again_returns_nothing_witness :
  VotingRoundManager.finalize vef_sample (BlockData.mk 0 1658430650 [])
    (VotingRoundManager.mk 5 [(ve 7, VotingRound.init (ve 7))])
  = Ok ([], VotingRoundManager.mk 5 [(ve 7, VotingRound.init (ve 7))]).
Proof.
  apply (finalize_again_returns_nothing vef_sample block_after_epoch_6
           (BlockData.mk 0 1658430650 []) manager_two_rounds
           (VotingRoundManager.mk 5 [(ve 7, VotingRound.init (ve 7))])
           [VotingRound.init (ve 5)]).
  - simpl. lia.
  - exact manager_two_rounds_wf.
  - reflexivity.
  - simpl. lia.
Defined.

(** *** The tally of bitvotes *)

(** Two payloads tie at two votes: the one counted first wins. *)
Lemma consensus_entry_is_first_most_frequent_witness :
  (∀ p, p ∈ [([x01], 1); ([x02], 2); ([x03], 2)] → snd p <= 2) ∧
  ∃ d1 d2, [([x01], 1); ([x02], 2); ([x03], 2)] = d1 ++ ([x02], 2) :: d2 ∧
           ∀ p, p ∈ d1 → snd p < 2.
Proof.
  apply (consensus_entry_is_first_most_frequent
           [([x01], 1); ([x02], 2); ([x03], 2)] ([x02], 2)).
  reflexivity.
Defined.

(** *** Decoded transactions *)

(** Collaborators standing in for the decoders: every [submit1] calldata
    decodes to an FTSO commit and an FDC payload of round 7, every
    [submitSignatures] calldata to an FDC payload of round 7 signing
    [00 01 01]; the generic parser returns its input as the FTSO payload of
    round 0; [uint16] reads two bytes, big-endian, and [uint256] stands for
    a reader of one byte.  The hash of a commit is empty and no signature
    is recovered. *)
Definition ext_decoding : Collaborators.t :=
  Collaborators.mk
    (λ _, Ok (ParsedMessage.mk
                (Some (ParsedPayload.mk 100 7 (FtsoSubmit1.mk [xaa])))
                (Some (ParsedPayload.mk 200 7 FdcSubmit1.mk))))
    (λ _, Raise (ExternalError "parse_submit2_tx"))
    (λ _, Ok (ParsedMessage.mk None
                (Some (ParsedPayload.mk 200 7
                         (SubmitSignatures.mk (SSignature.mk "1b" "r" "s")
                            [x00; x01; x01])))))
    (λ b, Ok (ParsedMessage.mk (Some (ParsedPayload.mk 100 0 b)) None))
    (λ b, match b with
          | hi :: lo :: rest => Ok (256 * byte_val hi + byte_val lo, rest)
          | _ => Raise (ExternalError "uint16")
          end)
    (λ b, match b with
          | x :: rest => Ok (byte_val x, rest)
          | [] => Raise (ExternalError "uint256")
          end)
    (λ _ _ _ _, Ok "")
    (λ _ _, Raise (ExternalError "recover"))
    (λ _, []).

(** A transaction of the submit address of the sample entity calling the
    selector [sel]. *)
Definition tx_sample (sel : bytes) : TxData.t :=
  TxData.mk [] None (sel ++ [x01]) 1 0 "0xSubmit" 0.

Definition block_sample : BlockData.t := BlockData.mk 4243 1658430640 [].

Lemma process_tx_files_submit1_witness :
  let st' := snd (process_tx ext_decoding config_sample block_sample
                    (tx_sample [x6c; x53; x2f; xae]) state_before_start_round) in
  let wtx := WTxData.from_tx_data (tx_sample [x6c; x53; x2f; xae]) block_sample in
  ParsedPayloadMapper.lookup "0xId"
    (VotingRoundProtocol.submit_1
       (VotingRound.ftso (round_of (ObserverState.vrm st') (ve 7))))
  = ParsedPayloadMapper.lookup "0xId"
      (VotingRoundProtocol.submit_1
         (VotingRound.ftso
            (round_of (ObserverState.vrm state_before_start_round) (ve 7))))
    ++ [WParsedPayload.mk (ParsedPayload.mk 100 7 (FtsoSubmit1.mk [xaa])) wtx].
Proof.
  refine (proj1 (process_tx_files_submit1 ext_decoding config_sample block_sample
                   (tx_sample [x6c; x53; x2f; xae]) state_before_start_round
                   entity_sample
                   (ParsedMessage.mk
                      (Some (ParsedPayload.mk 100 7 (FtsoSubmit1.mk [xaa])))
                      (Some (ParsedPayload.mk 200 7 FdcSubmit1.mk)))
                   _ _ _)
            (ParsedPayload.mk 100 7 (FtsoSubmit1.mk [xaa])) _);
    vm_compute; reflexivity.
Defined.

Lemma process_tx_counts_bitvote_witness :
  let st' := snd (process_tx ext_decoding config_sample block_sample
                    (tx_sample [x57; xee; xd5; x80]) state_before_start_round) in
  tally (VotingRound.fdc (round_of (ObserverState.vrm st') (ve 7))) [x00; x01; x01]
  = tally (VotingRound.fdc
             (round_of (ObserverState.vrm state_before_start_round) (ve 7)))
      [x00; x01; x01]
    + (if decide ([x00; x01; x01] = [x00; x01; x01]) then 1 else 0).
Proof.
  refine (process_tx_counts_bitvote ext_decoding config_sample block_sample
            (tx_sample [x57; xee; xd5; x80]) state_before_start_round
            entity_sample
            (ParsedMessage.mk None
               (Some (ParsedPayload.mk 200 7
                        (SubmitSignatures.mk (SSignature.mk "1b" "r" "s")
                           [x00; x01; x01]))))
            (ParsedPayload.mk 200 7
               (SubmitSignatures.mk (SSignature.mk "1b" "r" "s") [x00; x01; x01]))
            _ _ _ _ [x00; x01; x01]);
    vm_compute; reflexivity.
Defined.

(** *** The validators *)

(** A reveal of the identity, ten seconds into epoch 1, whose calldata is
    [07 01]. *)
Definition wtx_reveal : WTxData.t :=
  WTxData.mk (TxData.mk [] None [x07; x01] 1 0 "0xSubmit" 0) [] None [x07; x01] 1
    1658430100 0 "0xSubmit" 0.

Definition reveal_sample : WParsedPayload.t FtsoSubmit2.t :=
  WParsedPayload.mk (ParsedPayload.mk 100 0 (FtsoSubmit2.mk 7 [Some 1; None])) wtx_reveal.

(** The round of epoch 0 with the commit [aa] and that reveal. *)
Definition round_commit_reveal : VotingRound.t :=
  VotingRound.on_ftso
    (VotingRoundProtocol.insert_submit_2 entity_sample
       (WParsedPayload.parsed_payload reveal_sample) wtx_reveal)
    round_submit1_only.

Lemma validate_ftso_commit_check_witness :
  match validate_ftso vef_sample ext_decoding round_commit_reveal entity_sample
          config_sample with
  | Ok issues =>
      (commit_mismatch round_commit_reveal config_sample ∈ issues ↔
       (hex [xaa] ≠ "")) ∧
      (no_submit1 round_commit_reveal config_sample ∉ issues) ∧
      (reveal_offence round_commit_reveal config_sample ∉ issues)
  | Raise e =>
      ftso_recovery_raised vef_sample ext_decoding round_commit_reveal entity_sample e
  end.
Proof.
  refine (validate_ftso_commit_check vef_sample ext_decoding round_commit_reveal
            entity_sample config_sample (submit1_at 1658430010) reveal_sample _ _);
    vm_compute; reflexivity.
Defined.

(** The FDC round of epoch 0 whose only bitvote announces one request and
    sets the bit of a second one. *)
Definition round_stray_bit : VotingRound.t :=
  VotingRound.on_fdc (FdcVotingRoundProtocol.count_bitvote [x00; x01; x02])
    (VotingRound.init (ve 0)).

Lemma validate_fdc_failure_modes_witness :
  (FdcVotingRoundProtocol.consensus_bitvote (VotingRound.fdc round_stray_bit)
   = OrderedDict.empty ∧ invalid_payload_length = IndexError) ∨
  ∃ top,
    py_index (sorted_by_count_desc
                (FdcVotingRoundProtocol.consensus_bitvote
                   (VotingRound.fdc round_stray_bit))) 0
    = Ok top ∧
    (Collaborators.uint16 ext_decoding (fst top) = Raise invalid_payload_length ∨
     ∃ n votes,
       Collaborators.uint16 ext_decoding (fst top) = Ok (n, votes) ∧
       ((set_bit_beyond n 0 (rev votes) ∧
         invalid_payload_length = invalid_payload_length) ∨
        (¬ set_bit_beyond n 0 (rev votes) ∧
         Z.of_nat (length (fdc_requests round_stray_bit)) ≠ n ∧
         invalid_payload_length = AssertionError) ∨
        (¬ set_bit_beyond n 0 (rev votes) ∧
         Z.of_nat (length (fdc_requests round_stray_bit)) = n ∧
         fdc_recovery_raised vef_sample ext_decoding round_stray_bit entity_sample
           invalid_payload_length))).
Proof.
  apply (validate_fdc_failure_modes vef_sample ext_decoding round_stray_bit
           entity_sample config_sample invalid_payload_length).
  - intros b n rest H. destruct b as [|hi [|lo r]]; simpl in H; try discriminate H.
    injection H as <- _. unfold byte_val. lia.
  - vm_compute. reflexivity.
Defined.

Definition request_sample : AttestationRequest.t :=
  AttestationRequest.mk {| representation := "Payment" |} {| representation := "BTC" |}
    [x0a] 10 0 (ve 0).

(** The FDC round of epoch 0 with one request, a consensus that confirms
    it, and a [submit_2] of the identity that does not. *)
Definition round_unconfirmed : VotingRound.t :=
  VotingRound.on_fdc
    (λ p, FdcVotingRoundProtocol.count_bitvote [x00; x01; x01]
            (FdcVotingRoundProtocol.append_request request_sample
               (FdcVotingRoundProtocol.on_base
                  (VotingRoundProtocol.insert_submit_2 entity_sample
                     (ParsedPayload.mk 200 0 (FdcSubmit2.mk 1 [false]))
                     (wtx_sample 1658430100)) p)))
    (VotingRound.init (ve 0)).

Lemma validate_fdc_confirmation_witness :
  ∃ issues,
    validate_fdc vef_sample ext_decoding round_unconfirmed entity_sample config_sample
    = Ok issues ∧
    ∃ top n votes consensus,
      py_index (sorted_by_count_desc
                  (FdcVotingRoundProtocol.consensus_bitvote
                     (VotingRound.fdc round_unconfirmed))) 0
      = Ok top ∧
      Collaborators.uint16 ext_decoding (fst top) = Ok (n, votes) ∧
      inflate_bitvote n votes = Ok consensus ∧
      Z.of_nat (length (fdc_requests round_unconfirmed)) = n ∧
      (signature_offence round_unconfirmed config_sample ∈ issues ↔
       ∃ s2v,
         fdc_submit_2 vef_sample round_unconfirmed entity_sample = Some s2v ∧
         FdcSubmit2.number_of_requests
           (ParsedPayload.payload (WParsedPayload.parsed_payload s2v)) = n ∧
         (∀ k r, ¬ left_out (fdc_requests round_unconfirmed)
                     (FdcSubmit2.bit_vector
                        (ParsedPayload.payload (WParsedPayload.parsed_payload s2v)))
                     consensus k r) ∧
         fdc_submit_sig_deadline vef_sample round_unconfirmed entity_sample = None) ∧
      (∀ s2v k r,
         fdc_submit_2 vef_sample round_unconfirmed entity_sample = Some s2v →
         FdcSubmit2.number_of_requests
           (ParsedPayload.payload (WParsedPayload.parsed_payload s2v)) = n →
         left_out (fdc_requests round_unconfirmed)
           (FdcSubmit2.bit_vector
              (ParsedPayload.payload (WParsedPayload.parsed_payload s2v)))
           consensus k r →
         unconfirmed (fdc_builder round_unconfirmed config_sample) n k r ∈ issues).
Proof.
  eexists. split; [vm_compute; reflexivity|].
  apply (validate_fdc_confirmation vef_sample ext_decoding round_unconfirmed
           entity_sample config_sample).
  vm_compute. reflexivity.
Defined.

(** *** The validators at the end of a block *)

(** The loop during reward epoch 1, holding the round [r] of epoch 0. *)
Definition state_with_round (r : VotingRound.t) : ObserverState.t :=
  ObserverState.mk policy_sample builder_sample
    (VotingRoundManager.update (ve 0) (λ _, r) (VotingRoundManager.init (-1))) [] [].

Lemma process_block_emits_issues_witness :
  ∃ f d,
    validate_ftso vef_sample ext_decoding round_unconfirmed entity_sample config_sample
    = Ok f ∧
    validate_fdc vef_sample ext_decoding round_unconfirmed entity_sample config_sample
    = Ok d ∧
    process_block vef_sample ext_decoding config_sample tia_sample block_after_epoch_6 []
      (state_with_round round_unconfirmed)
    = (Ok tt, validated (state_with_round round_unconfirmed)
                (VotingRoundManager.mk 0 []) (concat [f ++ d])).
Proof.
  eexists. eexists. split; [vm_compute; reflexivity|]. split; [vm_compute; reflexivity|].
  apply (process_block_emits_issues vef_sample ext_decoding config_sample tia_sample
           block_after_epoch_6 [] (state_with_round round_unconfirmed)
           (state_with_round round_unconfirmed) [round_unconfirmed]
           (VotingRoundManager.mk 0 []) entity_sample).
  - reflexivity.
  - reflexivity.
  - vm_compute. reflexivity.
  - constructor; [|constructor].
    eexists. eexists. split; [vm_compute; reflexivity|].
    split; [vm_compute; reflexivity|reflexivity].
Defined.

(** A round without any bitvote stops the loop at the FDC validator, after
    the FTSO issues of the round were emitted. *)
Lemma process_block_validator_raises_witness :
  ∃ last,
    validate_ftso vef_sample ext_decoding (VotingRound.init (ve 0)) entity_sample
      config_sample = Ok last ∧
    process_block vef_sample ext_decoding config_sample tia_sample block_after_epoch_6 []
      (state_with_round (VotingRound.init (ve 0)))
    = (Raise IndexError,
       validated (state_with_round (VotingRound.init (ve 0)))
         (VotingRoundManager.mk 0 []) (concat [] ++ last)).
Proof.
  eexists. split; [vm_compute; reflexivity|].
  apply (process_block_validator_raises vef_sample ext_decoding config_sample tia_sample
           block_after_epoch_6 [] (state_with_round (VotingRound.init (ve 0)))
           (state_with_round (VotingRound.init (ve 0)))
           [] (VotingRound.init (ve 0)) [] (VotingRoundManager.mk 0 []) entity_sample
           []).
  - reflexivity.
  - reflexivity.
  - vm_compute. reflexivity.
  - constructor.
  - right. split; vm_compute; reflexivity.
Defined.

(** The same block when the target identity is one that the policy does
    not know. *)
Lemma process_block_unregistered_identity_witness :
  process_block vef_sample ext_decoding config_sample "0xOther"
    block_after_epoch_6 [] (state_with_round round_unconfirmed)
  = (Raise KeyError,
     validated (state_with_round round_unconfirmed) (VotingRoundManager.mk 0 []) []).
Proof.
  apply (process_block_unregistered_identity vef_sample ext_decoding config_sample
           "0xOther" block_after_epoch_6 [] (state_with_round round_unconfirmed)
           (state_with_round round_unconfirmed) [round_unconfirmed]
           (VotingRoundManager.mk 0 [])).
  - reflexivity.
  - reflexivity.
  - vm_compute. reflexivity.
Defined.
